(** * RideKeeper: risk-driven outreach orchestrator

    A shallow embedding of the backend services of the RideKeeper
    repository (risk scoring, confidence-weighted adjustment, intent
    resolution, outreach dispatch, ride lifecycle and the scheduler
    sweeps), together with the properties its specification states.

    Conventions of the embedding:
    - Prisma tables are finite maps from the row id to the row
      ([gmap string _]); the append-only message log is a list, newest
      first, every row carrying its [createdAt].
    - integer-valued scores are [Z]; distances, costs and parser
      confidences, which the code only compares, are rationals ([Q]);
      the numbers of the adjustment layer, which come out of
      [JSON.parse] and are clamped, added and rounded, are JavaScript
      numbers ([JSNumber]: the doubles as rationals, the infinities and
      NaN), and their sums are rounded to doubles.
    - [io.emit] appends to an event log; outbound transport and the
      inference providers are oracles passed as section variables, and
      every call to them is recorded in a trace.
    - an operation runs at the instant [now] (milliseconds), the time
      its rows are stamped with; an identifier the code builds from a
      later [Date.now()] of the same operation is built from
      [showTime now], an oracle that stands for that later reading in
      print and is not assumed to print [now]. *)

From Stdlib Require Import ZArith QArith Qround Qminmax Qabs Qpower Lqa Lia Bool Ascii String List.
From stdpp Require Import base option list strings gmap fin_maps.

Local Open Scope string_scope.
Local Open Scope Z_scope.
Local Open Scope list_scope.

(** ** JavaScript helpers *)

(** Truthiness of a [string | null] value: [null] and [''] are falsy. *)
Definition truthy (s : option string) : bool :=
  match s with
  | Some s => negb (String.eqb s "")
  | None => false
  end.

(** [a || b] on [string | null | undefined] operands. *)
Definition or_else (a b : option string) : option string :=
  if truthy a then a else b.

(** [Math.round]: the nearest integer, halves rounded up. *)
Definition Math_round (q : Q) : Z := Qfloor (q + (1 # 2)).

(** ** JavaScript numbers *)

(** A JavaScript number: a finite value, an infinity or NaN. The finite
    values are the doubles, as rationals; the arithmetic below rounds
    its results to doubles. *)
Inductive JSNumber := Num (q : Q) | PosInfinity | NegInfinity | NaN.
Coercion Num : Q >-> JSNumber.
Coercion inject_Z : Z >-> Q.

(** [x <= y]; a comparison with NaN is false. *)
Definition JS_le (x y : JSNumber) : bool :=
  match x, y with
  | NaN, _ | _, NaN => false
  | Num a, Num b => Qle_bool a b
  | NegInfinity, _ | _, PosInfinity => true
  | _, _ => false
  end.

(** [x < y] *)
Definition JS_lt (x y : JSNumber) : bool :=
  match x, y with
  | NaN, _ | _, NaN => false
  | Num a, Num b => negb (Qle_bool b a)
  | PosInfinity, _ | _, NegInfinity => false
  | _, _ => true
  end.

(** [Math.min] and [Math.max] of two numbers: NaN when either is. *)
Definition Math_min (x y : JSNumber) : JSNumber :=
  match x, y with
  | NaN, _ | _, NaN => NaN
  | _, _ => if JS_le x y then x else y
  end.

Definition Math_max (x y : JSNumber) : JSNumber :=
  match x, y with
  | NaN, _ | _, NaN => NaN
  | _, _ => if JS_le x y then y else x
  end.

(** [Math.max(lo, Math.min(hi, x))] *)
Definition clamp (lo hi : Q) (x : JSNumber) : JSNumber :=
  Math_max lo (Math_min hi x).

(** The exponent of the binade of a positive rational: the [e] with
    [2^e <= a < 2^(e+1)]. *)
Definition ilog2 (a : Q) : Z :=
  let k := Z.log2 (Qnum a) - Z.log2 (Z.pos (Qden a)) in
  if Qle_bool (2 ^ k) a then k else k - 1.

(** Rounding to the nearest integer, ties to the even one. *)
Definition roundHalfEven (y : Q) : Z :=
  let f := Qfloor y in
  match (y - inject_Z f ?= 1 # 2)%Q with
  | Lt => f
  | Gt => f + 1
  | Eq => if Z.even f then f else f + 1
  end.

(** The double nearest to a rational (IEEE 754 binary64, round to
    nearest, ties to even): 53 significant bits, exponents from -1022
    (below which the spacing stays [2^-1074]) to 1023, beyond which
    the result is an infinity. *)
Definition roundDouble (x : Q) : JSNumber :=
  if Qeq_bool x 0 then Num 0
  else
    let a := Qabs x in
    let e := Z.max (ilog2 a) (-1022) in
    let ulp := (2 ^ (e - 52))%Q in
    let r := (inject_Z (roundHalfEven (a / ulp)) * ulp)%Q in
    if Qle_bool (2 ^ 1024) r
    then if Qle_bool 0 x then PosInfinity else NegInfinity
    else Num (if Qle_bool 0 x then r else - r).

(** [x + y] *)
Definition JS_add (x y : JSNumber) : JSNumber :=
  match x, y with
  | NaN, _ | _, NaN => NaN
  | Num a, Num b => roundDouble (a + b)
  | PosInfinity, NegInfinity | NegInfinity, PosInfinity => NaN
  | PosInfinity, _ | _, PosInfinity => PosInfinity
  | NegInfinity, _ | _, NegInfinity => NegInfinity
  end.

(** [x / d] for a positive constant [d]. *)
Definition JS_div (x : JSNumber) (d : Q) : JSNumber :=
  match x with
  | Num a => roundDouble (a / d)
  | other => other
  end.

(** [Math.round] of a number. *)
Definition JS_round (x : JSNumber) : JSNumber :=
  match x with
  | Num q => Num (inject_Z (Math_round q))
  | other => other
  end.

(** Order and equality of numbers as propositions. *)
Definition JSle (x y : JSNumber) : Prop := JS_le x y = true.
Definition JSlt (x y : JSNumber) : Prop := JS_lt x y = true.
Definition JSeq (x y : JSNumber) : Prop :=
  match x, y with
  | Num a, Num b => (a == b)%Q
  | PosInfinity, PosInfinity | NegInfinity, NegInfinity => True
  | _, _ => False
  end.

Declare Scope JS_scope.
Delimit Scope JS_scope with JS.
Notation "x <= y" := (JSle x y) : JS_scope.
Notation "x < y" := (JSlt x y) : JS_scope.
Notation "x == y" := (JSeq x y) : JS_scope.
Notation "x <= y <= z" := (JSle x y /\ JSle y z) : JS_scope.
Notation "x < y <= z" := (JSlt x y /\ JSle y z) : JS_scope.
Notation "x <= y < z" := (JSle x y /\ JSlt y z) : JS_scope.

(** ** Rule-based risk score (riskScore.service.ts) *)

Module RiskScore.

Definition HOMELESS : string := "HOMELESS".
Definition UNSTABLY_HOUSED : string := "UNSTABLY_HOUSED".
Definition HOUSED : string := "HOUSED".

Inductive RiskCategory := LOW | MEDIUM | HIGH.

#[global] Instance RiskCategory_eq_dec : EqDecision RiskCategory.
Proof. solve_decision. Defined.

Record CaseWorker := {
  cwName : string;
  cwPhoneNumber : string
}.

Record Patient := {
  patientId : string;
  firstName : string;
  lastName : string;
  phoneNumber : option string;
  housingStatus : string;
  address : option string;
  distanceFromClinic : option Q;
  caseWorkers : list CaseWorker
}.

Record NoShowHistory := {
  nsPatientId : string;
  nsAppointmentId : string;
  occurredAt : Z
}.

(** The human-readable [reason] text of a factor is display-only and is
    not part of the model. *)
Record RiskFactor := {
  factor : string;
  points : Z
}.

Record RiskScoreResult := {
  score : Z;
  category : RiskCategory;
  factors : list RiskFactor
}.

Definition getHousingPoints (housingStatus : string) : Z :=
  if String.eqb housingStatus HOMELESS then 40
  else if String.eqb housingStatus UNSTABLY_HOUSED then 25
  else if String.eqb housingStatus HOUSED then 0
  else 0.

Definition getDistancePoints (distanceFromClinic : option Q) : Z :=
  match distanceFromClinic with
  | None => 20
  | Some d =>
      if negb (Qle_bool d 5) then 30          (* [d > 5] *)
      else if Qle_bool 2 d then 20            (* [d >= 2] *)
      else 10
  end.

Definition getPhonePoints (phoneNumber : option string) : Z :=
  if truthy phoneNumber then 0 else 25.

(** [prisma.noShowHistory.count] over the rows of the patient whose
    [occurredAt] is at or after the cut-off. *)
Definition getNoShowCount (history : list NoShowHistory)
    (sixMonthsAgo : Z) (pid : string) : Z :=
  Z.of_nat (length (filter
    (fun h => nsPatientId h = pid /\ sixMonthsAgo <= occurredAt h) history)).

Definition getNoShowPoints (noShowCount : Z) : Z :=
  Z.min (noShowCount * 15) 60.

Definition getRiskCategory (score : Z) : RiskCategory :=
  if score <=? 30 then LOW
  else if score <=? 60 then MEDIUM
  else HIGH.

(** One [if (points > 0) { factors.push(..); totalScore += points }] step. *)
Definition addFactor (name : string) (pts : Z)
    (acc : list RiskFactor * Z) : list RiskFactor * Z :=
  if 0 <? pts
  then (acc.1 ++ [{| factor := name; points := pts |}], acc.2 + pts)
  else acc.

(** [calculateRiskScore(patient, appointment)]; the appointment is not
    read. [history] is the [noShowHistory] table and [sixMonthsAgo] the
    clock moved back six calendar months. *)
Definition calculateRiskScore (history : list NoShowHistory)
    (sixMonthsAgo : Z) (patient : Patient) : RiskScoreResult :=
  let acc := ([], 0) in
  let acc := addFactor "Housing Status"
               (getHousingPoints (housingStatus patient)) acc in
  let acc := addFactor "Distance from Clinic"
               (getDistancePoints (distanceFromClinic patient)) acc in
  let acc := addFactor "Phone Access"
               (getPhonePoints (phoneNumber patient)) acc in
  let noShowCount := getNoShowCount history sixMonthsAgo (patientId patient) in
  let acc := addFactor "Previous No-Shows" (getNoShowPoints noShowCount) acc in
  let totalScore := Z.min acc.2 100 in
  {| score := totalScore;
     category := getRiskCategory totalScore;
     factors := acc.1 |}.

End RiskScore.

(** ** The persistent store (Prisma models) *)

Module Store.
Import RiskScore.

Record Clinic := {
  clinicName : string;
  clinicAddress : string;
  latitude : Q;
  longitude : Q
}.

Record Appointment := {
  apPatientId : string;
  apClinicId : string;
  appointmentDate : Z;
  appointmentType : string;
  apStatus : string;
  riskScore : option Z;
  needsRide : bool;
  rideOfferSent : bool;
  aiRiskScore : option JSNumber;
  aiConfidence : option JSNumber;
  aiReasoning : option string;
  aiRecommendations : option (list string)
}.

Record Ride := {
  rdAppointmentId : string;
  pickupLocation : string;
  dropoffLocation : string;
  pickupTime : Z;
  rdStatus : string;
  uberRideId : option string;
  estimatedCost : option Q;
  driverName : option string;
  vehicleInfo : option string;
  driverLatitude : option Q;
  driverLongitude : option Q
}.

Record SMSMessage := {
  smsId : nat;
  smsAppointmentId : string;
  smsPhoneNumber : string;
  smsMessage : string;
  direction : string;
  smsStatus : string;
  twilioSid : option string;
  createdAt : Z
}.

(** A row of [aIRiskCache], keyed by the appointment id. The source
    stores the two lists JSON-encoded ([JSON.stringify] on write,
    [JSON.parse] on read); the model keeps the lists. *)
Record AIRiskCache := {
  aiScore : JSNumber;
  cacheConfidence : JSNumber;
  cacheReasoning : string;
  cacheRecommendations : list string;
  cacheRiskFactors : list string;
  cacheOptimalContactTime : option string;
  calculatedAt : Z;
  expiresAt : Z
}.

Record DB := {
  patients : gmap string Patient;
  clinics : gmap string Clinic;
  appointments : gmap string Appointment;
  rides : gmap string Ride;
  smsMessages : list SMSMessage;
  nextSmsId : nat;
  noShowHistory : list NoShowHistory;
  aiRiskCache : gmap string AIRiskCache
}.

Definition set_appointments (f : gmap string Appointment -> gmap string Appointment)
    (db : DB) : DB :=
  {| patients := patients db; clinics := clinics db;
     appointments := f (appointments db); rides := rides db;
     smsMessages := smsMessages db; nextSmsId := nextSmsId db;
     noShowHistory := noShowHistory db; aiRiskCache := aiRiskCache db |}.

Definition set_rides (f : gmap string Ride -> gmap string Ride) (db : DB) : DB :=
  {| patients := patients db; clinics := clinics db;
     appointments := appointments db; rides := f (rides db);
     smsMessages := smsMessages db; nextSmsId := nextSmsId db;
     noShowHistory := noShowHistory db; aiRiskCache := aiRiskCache db |}.

Definition set_aiRiskCache (f : gmap string AIRiskCache -> gmap string AIRiskCache)
    (db : DB) : DB :=
  {| patients := patients db; clinics := clinics db;
     appointments := appointments db; rides := rides db;
     smsMessages := smsMessages db; nextSmsId := nextSmsId db;
     noShowHistory := noShowHistory db; aiRiskCache := f (aiRiskCache db) |}.

Definition set_smsMessages (f : list SMSMessage -> list SMSMessage) (db : DB) : DB :=
  {| patients := patients db; clinics := clinics db;
     appointments := appointments db; rides := rides db;
     smsMessages := f (smsMessages db); nextSmsId := nextSmsId db;
     noShowHistory := noShowHistory db; aiRiskCache := aiRiskCache db |}.

(** [prisma.sMSMessage.create]: the row gets a fresh id and the current
    time; the created row is returned. *)
Definition createSMS (now : Z) (appointmentId phone body dir status : string)
    (sid : option string) (db : DB) : SMSMessage * DB :=
  let row := {| smsId := nextSmsId db; smsAppointmentId := appointmentId;
                smsPhoneNumber := phone; smsMessage := body; direction := dir;
                smsStatus := status; twilioSid := sid; createdAt := now |} in
  (row,
   {| patients := patients db; clinics := clinics db;
      appointments := appointments db; rides := rides db;
      smsMessages := row :: smsMessages db; nextSmsId := S (nextSmsId db);
      noShowHistory := noShowHistory db; aiRiskCache := aiRiskCache db |}).

(** [prisma.sMSMessage.update({ where: { id }, data: { twilioSid, status } })] *)
Definition updateSMS (id : nat) (sid : option string) (status : string)
    (db : DB) : DB :=
  set_smsMessages (map (fun m =>
    if Nat.eqb (smsId m) id
    then {| smsId := smsId m; smsAppointmentId := smsAppointmentId m;
            smsPhoneNumber := smsPhoneNumber m; smsMessage := smsMessage m;
            direction := direction m; smsStatus := status;
            twilioSid := match sid with Some s => Some s | None => twilioSid m end;
            createdAt := createdAt m |}
    else m)) db.

End Store.

(** ** Confidence-weighted adjustment (aiRiskScore.service.ts) *)

Module AIRiskScore.
Import RiskScore Store.

Record AIRiskAssessment := {
  adjustedScore : JSNumber;
  adjustment : JSNumber;
  confidence : JSNumber;
  reasoning : string;
  recommendations : list string;
  optimalContactTime : string;
  riskFactors : list string
}.

Record EnhancedRiskScoreResult := {
  baseScore : Z;                       (* [score] *)
  finalCategory : RiskCategory;        (* [category] *)
  baseFactors : list RiskFactor;       (* [factors] *)
  aiAssessment : option AIRiskAssessment;
  finalScore : JSNumber;
  isAIEnhanced : bool;
  aiAvailable : bool
}.

(** A value [JSON.parse] may put in a field the validation treats as
    a number. The validation reads it through [||], which tests its
    truthiness, and through [Math.min], which applies ToNumber: the
    model keeps a number as it is (a literal beyond the double range
    is parsed as an infinity), and of any other truthy value (a
    non-empty string, [true], an array, an object) the number ToNumber
    makes of it, NaN for a string that is not a numeric literal. *)
Inductive JSValue :=
| JSNumberValue (x : JSNumber)
| JSTruthy (toNumber : JSNumber).

(** The object [JSON.parse] yields from the model's reply. A numeric
    field is [None] when it is missing, [null], [false] or the empty
    string; the two list fields are [Some] exactly when
    [Array.isArray] holds. *)
Record AIResult := {
  rawAdjustedScore : option JSValue;
  rawAdjustment : option JSValue;
  rawConfidence : option JSValue;
  rawReasoning : option string;
  rawRecommendations : option (list string);
  rawOptimalContactTime : option string;
  rawRiskFactors : option (list string)
}.

(** What [client.messages.create] followed by [JSON.parse] can do.
    [TextContent None] is a text that [JSON.parse] rejects or parses
    to [null]. *)
Inductive ClaudeReply :=
| ApiThrows
| NonTextContent
| TextContent (parsed : option AIResult).

Inductive AIError := ApiFailure | UnexpectedResponseType | FailedToParse.

(** Service configuration: [AI_RISK_SCORING_ENABLED === 'true'] and
    whether [getClient()] yields a client (API key set, not test mode). *)
Record Config := {
  isEnabled : bool;
  hasClient : bool
}.

(** ToNumber of [x || d]: a falsy field, the number [0] and NaN give
    the default. *)
Definition num_or (x : option JSValue) (d : Q) : JSNumber :=
  match x with
  | Some (JSNumberValue (Num q)) => if Qeq_bool q 0 then Num d else Num q
  | Some (JSNumberValue NaN) => Num d
  | Some (JSNumberValue inf) => inf
  | Some (JSTruthy n) => n
  | None => Num d
  end.

Definition str_or (x : option string) (d : string) : string :=
  match or_else x (Some d) with Some s => s | None => d end.

(** [Array.isArray(xs) ? xs.slice(0, 5) : []] *)
Definition slice5 (xs : option (list string)) : list string :=
  match xs with Some l => take 5 l | None => [] end.

(** The validation at the end of [getAIAssessment]. *)
Definition getAIAssessment (reply : ClaudeReply) (baseResult : RiskScoreResult)
    : AIError + AIRiskAssessment :=
  match reply with
  | ApiThrows => inl ApiFailure
  | NonTextContent => inl UnexpectedResponseType
  | TextContent None => inl FailedToParse
  | TextContent (Some aiResult) =>
      inr {| adjustedScore :=
               clamp 0 100 (num_or (rawAdjustedScore aiResult)
                                   (inject_Z (score baseResult)));
             adjustment := clamp (-20) 20 (num_or (rawAdjustment aiResult) 0);
             confidence := clamp 0 100 (num_or (rawConfidence aiResult) 50);
             reasoning := str_or (rawReasoning aiResult) "AI assessment completed";
             recommendations := slice5 (rawRecommendations aiResult);
             optimalContactTime := str_or (rawOptimalContactTime aiResult) "Morning";
             riskFactors := slice5 (rawRiskFactors aiResult) |}
  end.

Definition combineScores (baseResult : RiskScoreResult)
    (aiAssessment : AIRiskAssessment) : EnhancedRiskScoreResult :=
  let finalScore : JSNumber :=
    if JS_le 80 (confidence aiAssessment) then adjustedScore aiAssessment
    else if JS_le 50 (confidence aiAssessment) then
      JS_round
        (JS_div (JS_add (inject_Z (score baseResult))
                        (adjustedScore aiAssessment)) 2)
    else inject_Z (score baseResult) in
  let category :=
    if JS_le finalScore 30 then LOW
    else if JS_le finalScore 60 then MEDIUM
    else HIGH in
  {| baseScore := score baseResult;
     finalCategory := category;
     baseFactors := factors baseResult;
     aiAssessment := Some aiAssessment;
     finalScore := finalScore;
     isAIEnhanced := true;
     aiAvailable := true |}.

(** The result returned when the adjustment is skipped or fails. *)
Definition fallback (baseResult : RiskScoreResult) : EnhancedRiskScoreResult :=
  {| baseScore := score baseResult;
     finalCategory := category baseResult;
     baseFactors := factors baseResult;
     aiAssessment := None;
     finalScore := inject_Z (score baseResult);
     isAIEnhanced := false;
     aiAvailable := false |}.

Definition getCachedAssessment (db : DB) (now : Z) (appointmentId : string)
    : option AIRiskAssessment :=
  match aiRiskCache db !! appointmentId with
  | None => None
  | Some cached =>
      if expiresAt cached <? now then None
      else Some {| adjustedScore := aiScore cached;
                   adjustment := 0;
                   confidence := cacheConfidence cached;
                   reasoning := cacheReasoning cached;
                   recommendations := cacheRecommendations cached;
                   optimalContactTime :=
                     str_or (cacheOptimalContactTime cached) "Morning";
                   riskFactors := cacheRiskFactors cached |}
  end.

Definition msPerHour : Z := 60 * 60 * 1000.

(** [expiresAt.setHours(expiresAt.getHours() + 24)]: 24 hours after the
    clock reading (local time without a daylight-saving shift in
    between). The [upsert] overwrites an existing row; the row holds
    the numbers it is given. *)
Definition cacheAssessment (now : Z) (appointmentId : string)
    (assessment : AIRiskAssessment) (db : DB) : DB :=
  let expiresAt := now + 24 * msPerHour in
  set_aiRiskCache (insert appointmentId
    {| aiScore := adjustedScore assessment;
       cacheConfidence := confidence assessment;
       cacheReasoning := reasoning assessment;
       cacheRecommendations := recommendations assessment;
       cacheRiskFactors := riskFactors assessment;
       cacheOptimalContactTime := Some (optimalContactTime assessment);
       calculatedAt := now;
       expiresAt := expiresAt |}) db.

(** [prisma.appointment.update]; a missing row makes Prisma throw, which
    the method catches and logs. *)
Definition updateAppointmentWithAI (appointmentId : string)
    (assessment : AIRiskAssessment) (db : DB) : DB :=
  set_appointments (alter (fun a =>
    {| apPatientId := apPatientId a; apClinicId := apClinicId a;
       appointmentDate := appointmentDate a;
       appointmentType := appointmentType a; apStatus := apStatus a;
       riskScore := riskScore a; needsRide := needsRide a;
       rideOfferSent := rideOfferSent a;
       aiRiskScore := Some (adjustedScore assessment);
       aiConfidence := Some (confidence assessment);
       aiReasoning := Some (reasoning assessment);
       aiRecommendations := Some (recommendations assessment) |})
    appointmentId) db.

(** [prisma.aIRiskCache.delete], errors ignored. *)
Definition invalidateCache (appointmentId : string) (db : DB) : DB :=
  set_aiRiskCache (delete appointmentId) db.

Section Enhanced.
(** The inference provider. Its reply may depend on everything the
    prompt is built from (patient, appointment, base result, stored
    history), so it receives the store and the arguments. *)
Variable claude : DB -> Patient -> string -> RiskScoreResult -> ClaudeReply.
(** [sixMonthsAgo.setMonth(sixMonthsAgo.getMonth() - 6)] on the clock. *)
Variable sixMonthsBefore : Z -> Z.
Variable cfg : Config.

(** Returns the result, the store afterwards and the appointment ids
    for which the provider was invoked. *)
Definition calculateAIEnhancedRiskScore (now : Z) (patient : Patient)
    (appointmentId : string) (db : DB)
    : EnhancedRiskScoreResult * DB * list string :=
  let baseResult :=
    calculateRiskScore (noShowHistory db) (sixMonthsBefore now) patient in
  if negb (isEnabled cfg) || negb (hasClient cfg)
  then (fallback baseResult, db, [])
  else
    match getCachedAssessment db now appointmentId with
    | Some cached => (combineScores baseResult cached, db, [])
    | None =>
        match getAIAssessment (claude db patient appointmentId baseResult)
                              baseResult with
        | inr aiAssessment =>
            let db := cacheAssessment now appointmentId aiAssessment db in
            let db := updateAppointmentWithAI appointmentId aiAssessment db in
            (combineScores baseResult aiAssessment, db, [appointmentId])
        | inl _ => (fallback baseResult, db, [appointmentId])
        end
    end.
End Enhanced.

End AIRiskScore.

(** ** Regular expressions with JavaScript's backtracking semantics

    A text is the sequence of the bytes of its UTF-8 form. The
    character classes, [toLowerCase] and [trim] below are JavaScript's
    on the ASCII range; outside it JavaScript knows more white space
    (U+00A0 among others) and more letters, so what is proved about
    arbitrary messages is stated for messages of the ASCII range
    ([isAscii]). *)

Module Regex.

Definition chars := list ascii.

Definition code (a : ascii) : nat := nat_of_ascii a.

(** [\s] on the ASCII range: space, tab, line feed, vertical tab, form
    feed, carriage return. *)
Definition is_space (a : ascii) : bool :=
  let n := code a in
  Nat.eqb n 32 || (Nat.leb 9 n && Nat.leb n 13).

(** [\d] *)
Definition is_digit (a : ascii) : bool :=
  let n := code a in Nat.leb 48 n && Nat.leb n 57.

(** [.]: any character but a line terminator. *)
Definition is_dot (a : ascii) : bool :=
  let n := code a in negb (Nat.eqb n 10 || Nat.eqb n 13).

Definition lower (a : ascii) : ascii :=
  let n := code a in
  if Nat.leb 65 n && Nat.leb n 90 then ascii_of_nat (n + 32) else a.

Inductive re :=
| Void
| Eps
| Chr (p : ascii -> bool)
| Cat (r1 r2 : re)
| Alt (r1 r2 : re)
| Star (r : re)
| Grp (r : re).                 (* the capturing group of the pattern *)

(** A pattern: the body and whether it carries [^] and [$]. *)
Record pattern := {
  anchoredStart : bool;
  body : re;
  anchoredEnd : bool
}.

(** Literal text; [ci] is the [i] flag. *)
Fixpoint lit_chars (ci : bool) (s : chars) : re :=
  match s with
  | [] => Eps
  | a :: t =>
      Cat (Chr (fun b => if ci then Ascii.eqb (lower b) (lower a)
                         else Ascii.eqb b a))
          (lit_chars ci t)
  end.

Definition lit (s : string) : re := lit_chars false (list_ascii_of_string s).
Definition lit_i (s : string) : re := lit_chars true (list_ascii_of_string s).

Fixpoint alts (rs : list re) : re :=
  match rs with
  | [] => Void
  | [r] => r
  | r :: rest => Alt r (alts rest)
  end.

Fixpoint cats (rs : list re) : re :=
  match rs with
  | [] => Eps
  | r :: rest => Cat r (cats rest)
  end.

Definition opt (r : re) : re := Alt r Eps.          (* greedy [r?] *)
Definition plus (r : re) : re := Cat r (Star r).    (* greedy [r+] *)

(** Backtracking matcher in continuation-passing style: alternatives
    are tried left to right, quantifiers are greedy, and an iteration of
    a star that consumes nothing is rejected. [c] is the text captured
    so far by the group. *)
Fixpoint run {R : Type} (r : re) (s : chars) (c : option chars)
    (k : chars -> option chars -> option R) {struct r} : option R :=
  match r with
  | Void => None
  | Eps => k s c
  | Chr p =>
      match s with
      | a :: t => if p a then k t c else None
      | [] => None
      end
  | Cat r1 r2 => run r1 s c (fun s' c' => run r2 s' c' k)
  | Alt r1 r2 =>
      match run r1 s c k with
      | Some x => Some x
      | None => run r2 s c k
      end
  | Star r1 =>
      (fix loop (n : nat) (s : chars) (c : option chars)
           (k : chars -> option chars -> option R) {struct n} : option R :=
         match n with
         | O => k s c
         | S n' =>
             match run r1 s c (fun s' c' =>
                     if Nat.ltb (length s') (length s)
                     then loop n' s' c' k else None) with
             | Some x => Some x
             | None => k s c
             end
         end) (length s) s c k
  | Grp r1 =>
      run r1 s c (fun s' _ => k s' (Some (take (length s - length s') s)))
  end.

(** A match attempt at the start of [s]. *)
Definition match_here (p : pattern) (s : chars) : option (option chars) :=
  run (body p) s None (fun rest c =>
    if anchoredEnd p then
      match rest with [] => Some c | _ => None end
    else Some c).

(** The leftmost match: [Some c] when the pattern matches somewhere,
    [c] being the text of the capturing group. *)
Fixpoint search_from (p : pattern) (s : chars) : option (option chars) :=
  match match_here p s with
  | Some c => Some c
  | None =>
      match s with
      | [] => None
      | _ :: t => search_from p t
      end
  end.

Definition exec (p : pattern) (s : chars) : option (option chars) :=
  if anchoredStart p then match_here p s else search_from p s.

(** [pattern.test(s)] *)
Definition test (p : pattern) (s : string) : bool :=
  match exec p (list_ascii_of_string s) with Some _ => true | None => false end.

(** [s.match(pattern)[1]] when the pattern matches. *)
Definition match1 (p : pattern) (s : string) : option string :=
  match exec p (list_ascii_of_string s) with
  | Some (Some c) => Some (string_of_list_ascii c)
  | Some None => Some ""
  | None => None
  end.

Definition whole (r : re) : pattern :=          (* /^r$/ *)
  {| anchoredStart := true; body := r; anchoredEnd := true |}.
Definition prefix (r : re) : pattern :=         (* /^r/ *)
  {| anchoredStart := true; body := r; anchoredEnd := false |}.
Definition suffix (r : re) : pattern :=         (* /r$/ *)
  {| anchoredStart := false; body := r; anchoredEnd := true |}.
Definition anywhere (r : re) : pattern :=       (* /r/ *)
  {| anchoredStart := false; body := r; anchoredEnd := false |}.

(** String methods, on the ASCII range. *)
Definition toLowerCase (s : string) : string :=
  string_of_list_ascii (map lower (list_ascii_of_string s)).

Fixpoint trimStart (s : chars) : chars :=
  match s with
  | a :: t => if is_space a then trimStart t else s
  | [] => []
  end.

Definition trim (s : string) : string :=
  string_of_list_ascii
    (rev (trimStart (rev (trimStart (list_ascii_of_string s))))).

(** [s.replace(/[!?.]+/g, '')] *)
Definition stripPunctuation (s : string) : string :=
  string_of_list_ascii
    (List.filter (fun a => negb (Ascii.eqb a "!" || Ascii.eqb a "?" || Ascii.eqb a "."))
       (list_ascii_of_string s)).

(** [s.replace(/\s+/g, ' ')] *)
Fixpoint collapse (inRun : bool) (s : chars) : chars :=
  match s with
  | [] => []
  | a :: t =>
      if is_space a
      then if inRun then collapse true t else " "%char :: collapse true t
      else a :: collapse false t
  end.

Definition collapseSpaces (s : string) : string :=
  string_of_list_ascii (collapse false (list_ascii_of_string s)).

(** [s.includes(w)] *)
Definition includes (s w : string) : bool := test (anywhere (lit w)) s.

End Regex.

(** ** Conversational intent resolver (claude.service.ts) *)

Module ClaudeService.
Import Regex.

(** [enum PatientIntent]: string-valued, and the provider's answer is
    cast to it without validation, so an intent is a string. *)
Definition CONFIRM_RIDE : string := "CONFIRM_RIDE".
Definition DECLINE_RIDE : string := "DECLINE_RIDE".
Definition RESCHEDULE : string := "RESCHEDULE".
Definition QUESTION : string := "QUESTION".
Definition UNKNOWN : string := "UNKNOWN".

Record ParsedPatientResponse := {
  intent : string;
  confidence : Q;
  alternativePickupLocation : option string;
  preferredTime : option string;
  rawMessage : string;
  reasoning : option string
}.

Record Context := {
  ctxPatientName : option string;
  ctxAppointmentDate : option string;
  ctxClinicName : option string
}.

(** The last confirm pattern and the last decline pattern of the file
    are not the thumbs-up and thumbs-down signs: the file holds the
    bytes EF A3 BF C3 BC C3 AB C3 A7 and EF A3 BF C3 BC C3 AB C3 A9,
    which is what U+1F44D and U+1F44E become after a round trip through
    Mac Roman (the four characters U+F8FF, u-umlaut, e-diaeresis and
    c-cedilla, or e-acute). The patterns match that text and not the
    signs. *)
Definition bytes (l : list nat) : string :=
  string_of_list_ascii (map ascii_of_nat l).
Definition mangledThumbsUp : string :=
  bytes [239; 163; 191; 195; 188; 195; 171; 195; 167]%nat.
Definition mangledThumbsDown : string :=
  bytes [239; 163; 191; 195; 188; 195; 171; 195; 169]%nat.

Definition confirmPatterns : list pattern :=
  map (fun s => whole (lit s))
    ["yes"; "yeah"; "yep"; "yup"; "ok"; "okay"; "sure"; "sounds good";
     "please"; "yes please"; "y"; mangledThumbsUp; "i need a ride";
     "i want a ride"; "book it"; "lets do it"; "definitely"; "absolutely"].

Definition words (l : list string) : re := alts (map lit l).

Definition relatives : re :=
  words ["friend"; "family"; "wife"; "husband"; "son"; "daughter"; "mom";
         "dad"; "brother"; "sister"].
Definition isWill : re := words ["is"; "will"].
Definition taking : re := words ["take"; "taking"; "drive"; "driving"; "pick"].

Definition declinePatterns : list pattern :=
  [ whole (lit "no");
    whole (lit "nope");
    whole (lit "nah");
    whole (lit "n");
    whole (lit "no thanks");
    whole (lit "no thank you");
    whole (lit "i have a ride");
    whole (lit "got a ride");
    prefix (cats [lit "don"; opt (lit "'"); lit "t need"]);
    whole (cats [lit "i"; opt (lit "'"); lit "m good"]);
    whole (cats [lit "i"; opt (lit "'"); lit "m ok"]);
    prefix (cats [lit "my "; relatives; lit " "; isWill; lit " "; taking]);
    prefix (cats [lit "someone "; isWill; lit " "; taking]);
    whole (cats [lit "i "; words ["can"; "will"]; lit " ";
                 words ["get"; "take"; "drive"]; lit " ";
                 words ["there"; "myself"]]);
    whole (lit "cancel");
    whole (lit mangledThumbsDown) ].

Definition reschedulePatterns : list pattern :=
  [ anywhere (lit "reschedule");
    anywhere (cats [lit "change "; opt (lit "the ");
                    words ["time"; "date"; "appointment"]]);
    anywhere (cats [lit "different "; words ["time"; "day"; "date"]]);
    anywhere (cats [lit "can"; opt (lit "'"); lit "t make it"]);
    anywhere (cats [lit "move "; opt (lit "the ");
                    words ["appointment"; "time"]]);
    anywhere (cats [lit "not "; words ["that"; "this"]; lit " ";
                    words ["time"; "day"; "date"]]) ].

Definition questionPatterns : list pattern :=
  [ suffix (lit "?");
    prefix (words ["what"; "when"; "where"; "who"; "how"; "why"; "which";
                   "is"; "are"; "can"; "will"; "do"; "does"]);
    prefix (words ["tell me"; "let me know"]) ].

(** [/pick(?: me)? up (?:at|from) (.+)/i] *)
Definition locationPattern : pattern :=
  anywhere (cats [lit_i "pick"; opt (lit_i " me"); lit_i " up ";
                  alts [lit_i "at"; lit_i "from"]; lit_i " ";
                  Grp (plus (Chr is_dot))]).

(** [/(?:at|around|by) (\d{1,2}(?::\d{2})?\s*(?:am|pm)?)/i] *)
Definition timePattern : pattern :=
  anywhere (cats [alts [lit_i "at"; lit_i "around"; lit_i "by"]; lit_i " ";
                  Grp (cats [Chr is_digit; opt (Chr is_digit);
                             opt (cats [lit ":"; Chr is_digit; Chr is_digit]);
                             Star (Chr is_space);
                             opt (alts [lit_i "am"; lit_i "pm"])])]).

Definition anyMatch (ps : list pattern) (s : string) : bool :=
  existsb (fun p => test p s) ps.

Definition response (i : string) (conf : Q) (loc time : option string)
    (message : string) : ParsedPatientResponse :=
  {| intent := i; confidence := conf; alternativePickupLocation := loc;
     preferredTime := time; rawMessage := message; reasoning := None |}.

Definition ruleBasedParsing (message : string) : ParsedPatientResponse :=
  let normalized := trim (toLowerCase message) in
  let cleaned := collapseSpaces (stripPunctuation normalized) in
  if anyMatch confirmPatterns cleaned then
    response CONFIRM_RIDE (95 # 100) None None message
  else if anyMatch declinePatterns cleaned then
    response DECLINE_RIDE (95 # 100) None None message
  else if anyMatch reschedulePatterns cleaned then
    response RESCHEDULE (80 # 100) None None message
  else if anyMatch questionPatterns normalized then
    response QUESTION (70 # 100) None None message
  else
    match match1 locationPattern message with
    | Some loc =>
        response CONFIRM_RIDE (85 # 100) (Some (trim loc)) None message
    | None =>
        match match1 timePattern message with
        | Some t => response CONFIRM_RIDE (70 # 100) None (Some (trim t)) message
        | None => response UNKNOWN (30 # 100) None None message
        end
    end.

(** The JSON object the inference provider answers with. *)
Record IntentJSON := {
  jsonIntent : string;
  jsonConfidence : Q;
  jsonAlternativePickupLocation : option string;
  jsonPreferredTime : option string;
  jsonReasoning : option string
}.

Inductive IntentReply :=
| IntentApiThrows
| IntentNonText
| IntentText (parsed : option IntentJSON).   (* [None]: unparsable text *)

Section Resolver.
(** [isTestMode]: no API key, or [CLAUDE_TEST_MODE === 'true']; the
    client exists exactly when it is false. *)
Variable isTestMode : bool.
(** The inference provider, asked with the message and the context. *)
Variable classify : string -> option Context -> IntentReply.
(** The provider asked to phrase an answer; [None] when it throws,
    [Some None] when the content is not text. *)
Variable phrase : string -> string -> string -> option string -> option string
                  -> option (option string).

(** [None] stands for the exception the caller catches. *)
Definition parseWithClaude (message : string) (context : option Context)
    : option ParsedPatientResponse :=
  match classify message context with
  | IntentApiThrows => None
  | IntentNonText => Some (ruleBasedParsing message)
  | IntentText None => Some (ruleBasedParsing message)
  | IntentText (Some parsed) =>
      Some {| intent := jsonIntent parsed;
              confidence := jsonConfidence parsed;
              alternativePickupLocation :=
                or_else (jsonAlternativePickupLocation parsed) None;
              preferredTime := or_else (jsonPreferredTime parsed) None;
              rawMessage := message;
              reasoning := jsonReasoning parsed |}
  end.

(** Returns the response and the messages sent to the provider. *)
Definition parsePatientResponse (message : string) (context : option Context)
    : ParsedPatientResponse * list string :=
  let ruleBasedResult := ruleBasedParsing message in
  if Qle_bool (9 # 10) (confidence ruleBasedResult) then (ruleBasedResult, [])
  else if negb isTestMode then
    match parseWithClaude message context with
    | Some r => (r, [message])
    | None => (ruleBasedResult, [message])
    end
  else (ruleBasedResult, []).

Definition coordinatorReply : string :=
  "I'll have a coordinator reach out to help you. Reply YES if you still need a ride.".

(** [generateResponse]; [appointmentDate], [pickupLocation] and
    [pickupTime] are the already formatted context strings. *)
Definition generateResponse (patientMessage appointmentDate clinicName : string)
    (pickupLocation pickupTime : option string) : string * list string :=
  if isTestMode then
    let normalized := toLowerCase patientMessage in
    (if includes normalized "time" || includes normalized "when" then
       match or_else pickupTime None with
       | Some t => "Your ride is scheduled for pickup at " +:+ t +:+ "."
       | None => "We'll pick you up in time for your appointment at "
                   +:+ appointmentDate +:+ "."
       end
     else if includes normalized "where" || includes normalized "location"
             || includes normalized "address" then
       match or_else pickupLocation None with
       | Some l => "Your pickup location is " +:+ l +:+ "."
       | None => "Please let us know your preferred pickup location."
       end
     else if includes normalized "cost" || includes normalized "pay"
             || includes normalized "free" then
       "The ride is completely free - no cost to you!"
     else coordinatorReply, [])
  else
    (match phrase patientMessage appointmentDate clinicName
                  pickupLocation pickupTime with
     | Some (Some text) => text
     | Some None => "I'll have a coordinator reach out to help you."
     | None => coordinatorReply
     end, [patientMessage]).
End Resolver.

End ClaudeService.

(** ** Outbound and inbound text messages (twilio.service.ts) *)

Module TwilioService.
Import RiskScore Store.

Definition OUTBOUND : string := "OUTBOUND".
Definition INBOUND : string := "INBOUND".
Definition SENT : string := "SENT".
Definition DELIVERED : string := "DELIVERED".
Definition FAILED : string := "FAILED".
Definition RECEIVED : string := "RECEIVED".

(** [SMSSendResult], without the [twilioSid] it echoes: the routes
    only copy that field into their JSON answer, and in test mode it
    is built from a later reading of the clock than the sid stored on
    the row. *)
Record SMSSendResult := {
  success : bool;
  error : option string
}.

(** The value of an optional string, [''] when it is absent. *)
Definition orEmpty (s : option string) : string :=
  match s with Some s => s | None => "" end.

Section Service.
(** [TWILIO_TEST_MODE === 'true'] or no account configured. *)
Variable isTestMode : bool.
(** [client.messages.create]: the provider message id ([inr]), or the
    message of the error it throws ([inl]). *)
Variable transport : Z -> string -> string -> string + string.
(** [toLocaleDateString] / [toLocaleTimeString] of a timestamp. *)
Variable formatDate : Z -> string.
Variable formatTime : Z -> string.
(** [Date.now()] in print, as read after the row created at the given
    instant has been written. *)
Variable showTime : Z -> string.

(** The outbound row is stored before the transport is tried. In test
    mode the row is then stamped ["TEST_" + Date.now()]; the result
    echoes a sid built from a further reading of the clock. *)
Definition sendSMS (now : Z) (to message : string)
    (appointmentId : option string) (db : DB) : SMSSendResult * DB :=
  let '(smsRecord, db) :=
    createSMS now (orEmpty (or_else appointmentId None)) to message
              OUTBOUND SENT None db in
  if isTestMode then
    let sid := "TEST_" +:+ showTime now in
    ({| success := true; error := None |},
     updateSMS (smsId smsRecord) (Some sid) DELIVERED db)
  else
    match transport now to message with
    | inr sid =>
        ({| success := true; error := None |},
         updateSMS (smsId smsRecord) (Some sid) DELIVERED db)
    | inl errorMessage =>
        ({| success := false; error := Some errorMessage |},
         updateSMS (smsId smsRecord) None FAILED db)
    end.

Definition sendRideOffer (now : Z) (appointmentId : string)
    (appointment : Appointment) (patient : Patient) (clinicName : string)
    (caseworkerPhone : option string) (db : DB) : SMSSendResult * DB :=
  match or_else caseworkerPhone (phoneNumber patient) with
  | None =>
      ({| success := false;
          error := Some "No phone number available for patient or caseworker" |},
       db)
  | Some targetPhone =>
      if negb (truthy (Some targetPhone)) then
        ({| success := false;
            error := Some "No phone number available for patient or caseworker" |},
         db)
      else
      let formattedDate := formatDate (appointmentDate appointment) in
      let formattedTime := formatTime (appointmentDate appointment) in
      let message :=
        if truthy caseworkerPhone then
          "Hi! This is RideKeeper. Your client " +:+ firstName patient +:+ " "
            +:+ lastName patient +:+ " has an appointment on " +:+ formattedDate
            +:+ " at " +:+ formattedTime +:+ " at " +:+ clinicName
            +:+ ". They may need a free ride. Can you confirm they'll be ready for pickup? Reply YES to book the ride."
        else
          "Hi " +:+ firstName patient +:+ "! You have an appointment on "
            +:+ formattedDate +:+ " at " +:+ formattedTime +:+ " at "
            +:+ clinicName
            +:+ ". Need a free ride? Reply YES and we'll send an Uber to pick you up." in
      sendSMS now targetPhone message (Some appointmentId) db
  end.

Definition sendDriverArriving (now : Z) (ride : Ride) (targetPhone : string)
    (db : DB) : SMSSendResult * DB :=
  let message :=
    "Your driver " +:+ orEmpty (or_else (driverName ride) None)
      +:+ " is arriving now in a "
      +:+ orEmpty (or_else (vehicleInfo ride) (Some "vehicle"))
      +:+ ". Head to " +:+ pickupLocation ride +:+ "!" in
  sendSMS now targetPhone message (Some (rdAppointmentId ride)) db.
End Service.

(** [findFirst({ orderBy: { createdAt: 'desc' } })]: a row with the
    greatest [createdAt]; among equals, the one inserted last (the log
    is kept newest first). *)
Fixpoint latest (best : option SMSMessage) (l : list SMSMessage)
    : option SMSMessage :=
  match l with
  | [] => best
  | m :: rest =>
      latest (match best with
              | None => Some m
              | Some b => if createdAt b <? createdAt m then Some m else Some b
              end) rest
  end.

Definition isOutboundTo (from : string) (m : SMSMessage) : bool :=
  String.eqb (smsPhoneNumber m) from && String.eqb (direction m) OUTBOUND.

Definition recentOutbound (db : DB) (from : string) : option SMSMessage :=
  latest None (List.filter (isOutboundTo from) (smsMessages db)).

(** Returns the appointment id ([None] for [null]) and the store with
    the inbound row appended. *)
Definition handleIncomingSMS (now : Z) (from body twilioSid : string) (db : DB)
    : option string * DB :=
  let appointmentId :=
    or_else (smsAppointmentId <$> recentOutbound db from) None in
  let '(_, db) :=
    createSMS now (orEmpty (or_else appointmentId None)) from body
              INBOUND RECEIVED (Some twilioSid) db in
  (appointmentId, db).

End TwilioService.

(** ** The mocked ride provider (uberHealth.service.ts) *)

Module UberHealth.

Record UberDriver := {
  driverNameOf : string;
  vehicle : string;
  license : string
}.

Record UberRideResponse := {
  ride_id : string;
  status : string;
  pickup_time : Z;
  pickup_address : string;
  dropoff_address : string;
  driver : option UberDriver;
  estimated_cost : Q;
  eta_minutes : option Z;
  current_location : option (Q * Q)
}.

Definition withStatus (s : string) (r : UberRideResponse) : UberRideResponse :=
  {| ride_id := ride_id r; status := s; pickup_time := pickup_time r;
     pickup_address := pickup_address r; dropoff_address := dropoff_address r;
     driver := driver r; estimated_cost := estimated_cost r;
     eta_minutes := eta_minutes r; current_location := current_location r |}.

(** [cancelRide] on the in-memory [mockRides] map. *)
Definition cancelRide (rideId : string) (mockRides : gmap string UberRideResponse)
    : (bool * string) * gmap string UberRideResponse :=
  match mockRides !! rideId with
  | None => ((false, "Ride not found"), mockRides)
  | Some ride =>
      if String.eqb (status ride) "completed" then
        ((false, "Cannot cancel completed ride"), mockRides)
      else if String.eqb (status ride) "in_progress" then
        ((false, "Cannot cancel ride in progress"), mockRides)
      else
        ((true, "Ride cancelled successfully"),
         <[rideId := withStatus "cancelled" ride]> mockRides)
  end.

(** [bookRide]: the new ride is stored under its id with status
    ['scheduled'] and no driver. *)
Definition bookRide (rideId : string) (pickupAddress dropoffAddress : string)
    (pickupTime : Z) (estimatedCost : Q)
    (mockRides : gmap string UberRideResponse)
    : UberRideResponse * gmap string UberRideResponse :=
  let ride :=
    {| ride_id := rideId; status := "scheduled"; pickup_time := pickupTime;
       pickup_address := pickupAddress; dropoff_address := dropoffAddress;
       driver := None; estimated_cost := estimatedCost;
       eta_minutes := None; current_location := None |} in
  (ride, <[rideId := ride]> mockRides).

End UberHealth.

(** ** Events pushed to the dashboard ([io.emit]) *)

Inductive Event :=
| RIDE_STATUS_UPDATE (rideId : string) (appointmentId : option string)
    (oldStatus newStatus : string)
| RIDE_OFFER_SENT (appointmentId phoneNumber : string)
| SMS_RECEIVED (appointmentId from body parsedIntent : string) (confidence : Q)
| RIDE_BOOKED (rideId appointmentId : string) (pickupTime : Z) (estimatedCost : Q).

(** The store, the provider's in-memory rides and the event log. *)
Record World := {
  db : Store.DB;
  mockRides : gmap string UberHealth.UberRideResponse;
  events : list Event
}.

Definition emit (e : Event) (w : World) : World :=
  {| db := db w; mockRides := mockRides w; events := events w ++ [e] |}.

Definition withDB (f : Store.DB -> Store.DB) (w : World) : World :=
  {| db := f (db w); mockRides := mockRides w; events := events w |}.

Definition withMock
    (f : gmap string UberHealth.UberRideResponse
         -> gmap string UberHealth.UberRideResponse) (w : World) : World :=
  {| db := db w; mockRides := f (mockRides w); events := events w |}.

(** ** The scheduler sweeps (scheduler.service.ts) *)

Module Scheduler.
Import RiskScore Store TwilioService UberHealth.

Definition SCHEDULED : string := "SCHEDULED".
Definition CONFIRMED : string := "CONFIRMED".
Definition DRIVER_ASSIGNED : string := "DRIVER_ASSIGNED".
Definition IN_PROGRESS : string := "IN_PROGRESS".
Definition COMPLETED : string := "COMPLETED".
Definition CANCELLED : string := "CANCELLED".
Definition NO_SHOW : string := "NO_SHOW".

(** The [statusMap] object literal of [updateRideStatuses]. *)
Definition statusMap : list (string * string) :=
  [ ("scheduled", SCHEDULED);
    ("driver_assigned", DRIVER_ASSIGNED);
    ("en_route", DRIVER_ASSIGNED);
    ("arrived", DRIVER_ASSIGNED);
    ("in_progress", IN_PROGRESS);
    ("completed", COMPLETED);
    ("cancelled", CANCELLED) ].

Fixpoint lookupStatus (m : list (string * string)) (k : string) : option string :=
  match m with
  | [] => None
  | (k', v) :: rest => if String.eqb k k' then Some v else lookupStatus rest k
  end.

(** [statusMap[uberStatus.status] || ride.status] *)
Definition newStatusFor (uberStatus : UberRideResponse) (ride : Ride) : string :=
  orEmpty (or_else (lookupStatus statusMap (status uberStatus))
                   (Some (rdStatus ride))).

(** [patient.phoneNumber || patient.caseWorkers[0]?.phoneNumber] *)
Definition contactPhone (patient : Patient) : option string :=
  or_else (phoneNumber patient) (cwPhoneNumber <$> head (caseWorkers patient)).

(** [include: { appointment: { include: { patient: .. } } }]. The
    schema's foreign keys make the join total. *)
Definition patientOfRide (d : DB) (ride : Ride) : option Patient :=
  a ← appointments d !! rdAppointmentId ride;
  patients d !! apPatientId a.

Definition setRideStatus (s : string) (r : Ride) : Ride :=
  {| rdAppointmentId := rdAppointmentId r; pickupLocation := pickupLocation r;
     dropoffLocation := dropoffLocation r; pickupTime := pickupTime r;
     rdStatus := s; uberRideId := uberRideId r;
     estimatedCost := estimatedCost r; driverName := driverName r;
     vehicleInfo := vehicleInfo r; driverLatitude := driverLatitude r;
     driverLongitude := driverLongitude r |}.

(** The [data] of the [prisma.ride.update] in [updateRideStatuses]; the
    snapshot [ride] supplies the defaults, and an [undefined] latitude
    or longitude leaves the column as it is. *)
Definition syncedRide (ride : Ride) (newStatus : string)
    (uberStatus : UberRideResponse) (cur : Ride) : Ride :=
  {| rdAppointmentId := rdAppointmentId cur;
     pickupLocation := pickupLocation cur;
     dropoffLocation := dropoffLocation cur;
     pickupTime := pickupTime cur;
     rdStatus := newStatus;
     uberRideId := uberRideId cur;
     estimatedCost := estimatedCost cur;
     driverName :=
       or_else (driverNameOf <$> driver uberStatus) (driverName ride);
     vehicleInfo :=
       match driver uberStatus with
       | Some d => Some (vehicle d +:+ " (" +:+ license d +:+ ")")
       | None => vehicleInfo ride
       end;
     driverLatitude :=
       match current_location uberStatus with
       | Some loc => Some loc.1
       | None => driverLatitude cur
       end;
     driverLongitude :=
       match current_location uberStatus with
       | Some loc => Some loc.2
       | None => driverLongitude cur
       end |}.

Definition isActiveRide (ride : Ride) : bool :=
  String.eqb (rdStatus ride) SCHEDULED
  || String.eqb (rdStatus ride) DRIVER_ASSIGNED
  || String.eqb (rdStatus ride) IN_PROGRESS.

(** The rows [prisma.ride.findMany] returns to [updateRideStatuses]. *)
Definition activeRides (d : DB) : list (string * Ride) :=
  List.filter (fun kr => isActiveRide kr.2) (map_to_list (rides d)).

Section Sweeps.
Variable isTestMode : bool.
Variable transport : Z -> string -> string -> string + string.
Variable formatDate : Z -> string.
Variable formatTime : Z -> string.
Variable showTime : Z -> string.

(** The body of the loop of [updateRideStatuses] for one ride of the
    snapshot; [getRideStatus] is the provider's answer in this run,
    which the provider also keeps as its record of the ride
    ([mockRides.set]). *)
Definition updateRideStatus (getRideStatus : string -> option UberRideResponse)
    (now : Z) (w : World) (row : string * Ride) : World :=
  let '(id, ride) := row in
  match or_else (uberRideId ride) None with
  | None => w
  | Some uberId =>
      match getRideStatus uberId with
      | None => w
      | Some uberStatus =>
          let w := withMock (insert uberId uberStatus) w in
          let newStatus := newStatusFor uberStatus ride in
          let statusChanged := negb (String.eqb newStatus (rdStatus ride)) in
          let w := withDB (set_rides
                     (alter (syncedRide ride newStatus uberStatus) id)) w in
          if statusChanged then
            let w := emit (RIDE_STATUS_UPDATE id (Some (rdAppointmentId ride))
                             (rdStatus ride) newStatus) w in
            if String.eqb (status uberStatus) "arrived" then
              match patientOfRide (db w) ride with
              | None => w
              | Some patient =>
                  match contactPhone patient with
                  | Some targetPhone =>
                      if truthy (Some targetPhone) then
                        withDB (fun d =>
                          (sendDriverArriving isTestMode transport showTime
                             now ride targetPhone d).2) w
                      else w
                  | None => w
                  end
              end
            else w
          else w
      end
  end.

Definition updateRideStatuses (getRideStatus : string -> option UberRideResponse)
    (now : Z) (w : World) : World :=
  foldl (updateRideStatus getRideStatus now) w (activeRides (db w)).

Definition setRideOfferSent (a : Appointment) : Appointment :=
  {| apPatientId := apPatientId a; apClinicId := apClinicId a;
     appointmentDate := appointmentDate a;
     appointmentType := appointmentType a; apStatus := apStatus a;
     riskScore := riskScore a; needsRide := needsRide a;
     rideOfferSent := true;
     aiRiskScore := aiRiskScore a; aiConfidence := aiConfidence a;
     aiReasoning := aiReasoning a;
     aiRecommendations := aiRecommendations a |}.

(** The [where] clause of [sendRideOffers]. *)
Definition dueForOffer (now : Z) (a : Appointment) : bool :=
  (now + 24 * 60 * 60 * 1000 <=? appointmentDate a)
  && (appointmentDate a <=? now + 25 * 60 * 60 * 1000)
  && String.eqb (apStatus a) SCHEDULED
  && match riskScore a with Some s => 61 <=? s | None => false end
  && negb (rideOfferSent a).

Definition offerCandidates (now : Z) (d : DB) : list (string * Appointment) :=
  List.filter (fun ka => dueForOffer now ka.2) (map_to_list (appointments d)).

(** The body of the loop of [sendRideOffers] for one appointment. *)
Definition sendRideOfferTo (now : Z) (w : World) (row : string * Appointment)
    : World :=
  let '(id, appointment) := row in
  match patients (db w) !! apPatientId appointment,
        clinics (db w) !! apClinicId appointment with
  | Some patient, Some clinic =>
      let targetPhone :=
        if negb (truthy (phoneNumber patient))
           && (0 <? length (caseWorkers patient))%nat
        then cwPhoneNumber <$> head (caseWorkers patient)
        else phoneNumber patient in
      if negb (truthy targetPhone) then w
      else
        let '(result, d) :=
          sendRideOffer isTestMode transport formatDate formatTime showTime
            now id appointment patient (clinicName clinic)
            (if negb (truthy (phoneNumber patient)) then targetPhone else None)
            (db w) in
        let w := withDB (fun _ => d) w in
        if success result then
          let w := withDB (set_appointments (alter setRideOfferSent id)) w in
          emit (RIDE_OFFER_SENT id (orEmpty targetPhone)) w
        else w
  | _, _ => w
  end.

Definition sendRideOffers (now : Z) (w : World) : World :=
  foldl (sendRideOfferTo now) w (offerCandidates now (db w)).
End Sweeps.

End Scheduler.

(** ** HTTP routes (appointments, rides and sms routers) *)

Module Routes.
Import RiskScore Store TwilioService UberHealth Scheduler.

(** The JSON answer of a route: the HTTP status and the error code. *)
Record Response := {
  httpStatus : Z;
  ok : bool;
  errorCode : option string
}.

Definition respond (st : Z) (o : bool) (e : option string) : Response :=
  {| httpStatus := st; ok := o; errorCode := e |}.

Definition setAppointmentStatus (s : string) (a : Appointment) : Appointment :=
  {| apPatientId := apPatientId a; apClinicId := apClinicId a;
     appointmentDate := appointmentDate a;
     appointmentType := appointmentType a; apStatus := s;
     riskScore := riskScore a; needsRide := needsRide a;
     rideOfferSent := rideOfferSent a;
     aiRiskScore := aiRiskScore a; aiConfidence := aiConfidence a;
     aiReasoning := aiReasoning a;
     aiRecommendations := aiRecommendations a |}.

Definition setNeedsRide (b : bool) (a : Appointment) : Appointment :=
  {| apPatientId := apPatientId a; apClinicId := apClinicId a;
     appointmentDate := appointmentDate a;
     appointmentType := appointmentType a; apStatus := apStatus a;
     riskScore := riskScore a; needsRide := b;
     rideOfferSent := rideOfferSent a;
     aiRiskScore := aiRiskScore a; aiConfidence := aiConfidence a;
     aiReasoning := aiReasoning a;
     aiRecommendations := aiRecommendations a |}.

(** [include: { ride: true }]: the ride of the appointment, if any. *)
Definition rideOfAppointment (d : DB) (appointmentId : string)
    : option (string * Ride) :=
  head (List.filter (fun kr => String.eqb (rdAppointmentId kr.2) appointmentId)
          (map_to_list (rides d))).

Section Handlers.
Variable isTestMode : bool.                 (* Twilio test mode *)
Variable transport : Z -> string -> string -> string + string.
Variable formatDate : Z -> string.
Variable formatTime : Z -> string.
Variable showTime : Z -> string.
Variable toISOString : Z -> string.
Variable claudeTestMode : bool.
Variable classify : string -> option ClaudeService.Context
                    -> ClaudeService.IntentReply.
Variable phrase : string -> string -> string -> option string -> option string
                  -> option (option string).
(** Identifiers drawn by [uuidv4] and by Prisma, and the provider's
    cost estimate for a trip to the clinic. *)
Variable newUberRideId : World -> string.
Variable newRideId : World -> string.
Variable estimateCost : Clinic -> Q.

(** POST /api/appointments/:id/offer-ride, from the request to its
    answer. The answer carries the error code SMS_FAILED when the send
    result has a non-empty error text. After a successful send with
    [TWILIO_TEST_MODE === 'true'] in the environment the handler also
    arms a timer that, three seconds after the answer, logs a
    simulated YES and two seconds later books a demo ride. Those
    timers run after the answer and are not part of this function: it
    gives the world as it is when the route answers, which is the
    whole effect of the route when no timer is armed, so whenever the
    message service is live ([isTestMode = false]) or is in test mode
    only for want of an account. *)
Definition offerRide (now : Z) (id : string) (w : World) : Response * World :=
  match appointments (db w) !! id with
  | None => (respond 404 false (Some "NOT_FOUND"), w)
  | Some appointment =>
      match patients (db w) !! apPatientId appointment,
            clinics (db w) !! apClinicId appointment with
      | Some patient, Some clinic =>
          let viaCaseworker :=
            negb (truthy (phoneNumber patient))
            && (0 <? length (caseWorkers patient))%nat in
          let targetPhone :=
            if viaCaseworker then cwPhoneNumber <$> head (caseWorkers patient)
            else phoneNumber patient in
          if negb (truthy targetPhone) then
            (respond 400 false (Some "NO_PHONE"), w)
          else
            let '(result, d) :=
              sendRideOffer isTestMode transport formatDate formatTime showTime
                now id appointment patient (clinicName clinic)
                (if viaCaseworker then targetPhone else None) (db w) in
            let w := withDB (fun _ => d) w in
            if success result then
              let w := withDB (set_appointments (alter setRideOfferSent id)) w in
              let w := withDB (AIRiskScore.invalidateCache id) w in
              let w := emit (RIDE_OFFER_SENT id (orEmpty targetPhone)) w in
              (respond 200 true None, w)
            else
              (respond 200 false
                 (if truthy (error result) then Some "SMS_FAILED" else None), w)
      | _, _ => (respond 500 false (Some "SEND_ERROR"), w)
      end
  end.

(** POST /api/rides/:id/cancel *)
Definition cancel (id : string) (w : World) : Response * World :=
  match rides (db w) !! id with
  | None => (respond 404 false (Some "NOT_FOUND"), w)
  | Some ride =>
      let cancelled (w : World) : Response * World :=
        let w := withDB (set_rides (alter (setRideStatus CANCELLED) id)) w in
        let w := emit (RIDE_STATUS_UPDATE id None (rdStatus ride) CANCELLED) w in
        (respond 200 true None, w) in
      match or_else (uberRideId ride) None with
      | Some uberId =>
          let '(cancelResult, mock) := cancelRide uberId (mockRides w) in
          let w := withMock (fun _ => mock) w in
          if negb cancelResult.1 then
            (respond 400 false (Some "CANCEL_FAILED"), w)
          else cancelled w
      | None => cancelled w
      end
  end.

(** POST /api/sms/webhook. The answer is always the same empty TwiML
    document, so only the world afterwards and the messages sent to
    the inference provider are returned. *)
Definition webhook (now : Z) (From Body MessageSid : string) (w : World)
    : World * list string :=
  let '(appointmentId, d) := handleIncomingSMS now From Body MessageSid (db w) in
  let w := withDB (fun _ => d) w in
  match appointmentId with
  | None => (w, [])
  | Some appointmentId =>
      match appointments (db w) !! appointmentId with
      | None => (w, [])
      | Some appointment =>
          match patients (db w) !! apPatientId appointment,
                clinics (db w) !! apClinicId appointment with
          | Some patient, Some clinic =>
              let ride := rideOfAppointment (db w) appointmentId in
              let '(parsedResponse, calls) :=
                ClaudeService.parsePatientResponse claudeTestMode classify Body
                  (Some {| ClaudeService.ctxPatientName := Some (firstName patient);
                           ClaudeService.ctxAppointmentDate :=
                             Some (toISOString (appointmentDate appointment));
                           ClaudeService.ctxClinicName := Some (clinicName clinic) |}) in
              let w := emit (SMS_RECEIVED appointmentId From Body
                               (ClaudeService.intent parsedResponse)
                               (ClaudeService.confidence parsedResponse)) w in
              let intent := ClaudeService.intent parsedResponse in
              let '(responseMessage, w, calls) :=
                if String.eqb intent ClaudeService.CONFIRM_RIDE then
                  match ride with
                  | None =>
                      let pickupTime := appointmentDate appointment - 45 * 60 * 1000 in
                      let pickupLocation :=
                        orEmpty (or_else
                          (ClaudeService.alternativePickupLocation parsedResponse)
                          (or_else (address patient)
                             (Some "Main entrance of your current location"))) in
                      let '(uberResponse, mock) :=
                        bookRide (newUberRideId w) pickupLocation
                          (clinicAddress clinic) pickupTime (estimateCost clinic)
                          (mockRides w) in
                      let w := withMock (fun _ => mock) w in
                      let rideId := newRideId w in
                      let w := withDB (set_rides (insert rideId
                        {| rdAppointmentId := appointmentId;
                           pickupLocation := pickupLocation;
                           dropoffLocation := clinicAddress clinic;
                           pickupTime := pickupTime;
                           rdStatus := "SCHEDULED";
                           uberRideId := Some (ride_id uberResponse);
                           estimatedCost := Some (estimated_cost uberResponse);
                           driverName := None; vehicleInfo := None;
                           driverLatitude := None; driverLongitude := None |})) w in
                      let w := withDB (set_appointments
                                 (alter (setAppointmentStatus CONFIRMED)
                                        appointmentId)) w in
                      let w := emit (RIDE_BOOKED rideId appointmentId pickupTime
                                       (estimated_cost uberResponse)) w in
                      ("Great! Your ride is confirmed for " +:+ formatTime pickupTime
                         +:+ ". Pickup: " +:+ pickupLocation
                         +:+ ". We'll text you when your driver is nearby. See you tomorrow!",
                       w, calls)
                  | Some _ =>
                      ("You already have a ride booked! We'll text you when your driver is nearby.",
                       w, calls)
                  end
                else if String.eqb intent ClaudeService.DECLINE_RIDE then
                  ("No problem! Let us know if you need anything else. See you at your appointment!",
                   withDB (set_appointments (alter (setNeedsRide false)
                                                   appointmentId)) w,
                   calls)
                else if String.eqb intent ClaudeService.RESCHEDULE then
                  ("To reschedule your appointment, please call the clinic directly. Would you still like a ride to your current appointment? Reply YES or NO.",
                   w, calls)
                else if String.eqb intent ClaudeService.QUESTION then
                  let '(text, calls') :=
                    ClaudeService.generateResponse claudeTestMode phrase Body
                      (formatDate (appointmentDate appointment) +:+ " at "
                         +:+ formatTime (appointmentDate appointment))
                      (clinicName clinic)
                      ((fun kr : string * Ride => pickupLocation kr.2) <$> ride)
                      ((fun kr : string * Ride => formatTime (pickupTime kr.2)) <$> ride) in
                  (text, w, calls ++ calls')
                else
                  ("Sorry, I didn't understand that. Reply YES if you need a free ride to your appointment, or NO if you have transportation. Questions? A coordinator will reach out shortly.",
                   w, calls) in
              if truthy (Some responseMessage) then
                (withDB (fun d =>
                   (sendSMS isTestMode transport showTime now From responseMessage
                      (Some appointmentId) d).2) w, calls)
              else (w, calls)
          | _, _ => (w, [])
          end
      end
  end.
End Handlers.

End Routes.

(** * Vocabulary of the properties *)

Module Props.
Import RiskScore Store AIRiskScore TwilioService UberHealth Scheduler Routes.

(** The bounds of a validated adjustment payload. *)
Definition payloadInBounds (a : AIRiskAssessment) : Prop :=
  (0 <= adjustedScore a <= 100)%JS /\
  (-20 <= adjustment a <= 20)%JS /\
  (0 <= confidence a <= 100)%JS /\
  (length (recommendations a) <= 5)%nat /\
  (length (riskFactors a) <= 5)%nat.






(** The provider refuses to cancel the ride with this id: it does not
    know it, or has it completed or in progress. *)
Definition providerRefuses (mock : gmap string UberRideResponse) (u : string)
    : Prop :=
  match mock !! u with
  | None => True
  | Some r => status r = "completed" \/ status r = "in_progress"
  end.

(** The world after a successful cancellation of the ride. *)
Definition cancelledWorld (id : string) (ride : Ride) (w : World) : World :=
  emit (RIDE_STATUS_UPDATE id None (rdStatus ride) CANCELLED)
    (withDB (set_rides (alter (setRideStatus CANCELLED) id)) w).

(** The provider's answer for the ride maps to the status it has. *)
Definition quietRow (p : string -> option UberRideResponse) (ride : Ride) : Prop :=
  match or_else (uberRideId ride) None with
  | None => True
  | Some u =>
      match p u with
      | None => True
      | Some uberStatus => newStatusFor uberStatus ride = rdStatus ride
      end
  end.

(** The row of a ride after its step of the status-sync sweep. *)
Definition rideAfter (p : string -> option UberRideResponse) (ride : Ride) : Ride :=
  match or_else (uberRideId ride) None with
  | None => ride
  | Some u =>
      match p u with
      | None => ride
      | Some uberStatus =>
          syncedRide ride (newStatusFor uberStatus ride) uberStatus ride
      end
  end.

(** The outbound messages logged for an appointment. *)
Definition outboundFor (appointmentId : string) (d : DB) : list SMSMessage :=
  List.filter (fun m => String.eqb (direction m) OUTBOUND
                        && String.eqb (smsAppointmentId m) appointmentId)
    (smsMessages d).

End Props.

(** * Example data *)

Module Fixtures.
Import RiskScore Store AIRiskScore TwilioService UberHealth Scheduler Routes.

Definition t0 : Z := 1700000000000.

Definition maria : Patient :=
  {| patientId := "p1"; firstName := "Maria"; lastName := "Santos";
     phoneNumber := Some "+15551234567"; housingStatus := HOMELESS;
     address := Some "Tent City, 5th St"; distanceFromClinic := Some (42 # 10);
     caseWorkers := [] |}.

(** A patient in the worst case of the rule engine, and four no-shows
    in the last four months. *)
Definition james : Patient :=
  {| patientId := "p2"; firstName := "James"; lastName := "Wilson";
     phoneNumber := None; housingStatus := HOMELESS;
     address := None; distanceFromClinic := Some (150 # 1);
     caseWorkers := [] |}.

Definition fourNoShows : list NoShowHistory :=
  map (fun k => {| nsPatientId := "p2"; nsAppointmentId := "old";
                   occurredAt := t0 - k * 30 * 24 * msPerHour |})
      [1; 2; 3; 4].

(** The no-show table of the examples: two rows of Maria inside the
    window, one of hers a year old, and the four of James. *)
Definition mixedHistory : list NoShowHistory :=
  [ {| nsPatientId := "p1"; nsAppointmentId := "old1";
       occurredAt := t0 - 10 * 24 * msPerHour |};
    {| nsPatientId := "p1"; nsAppointmentId := "old2";
       occurredAt := t0 - 365 * 24 * msPerHour |};
    {| nsPatientId := "p1"; nsAppointmentId := "old3";
       occurredAt := t0 - 150 * 24 * msPerHour |} ] ++ fourNoShows.

Definition clinic : Clinic :=
  {| clinicName := "Mission Health"; clinicAddress := "240 Shotwell St";
     latitude := 37760 # 1000; longitude := -(122415 # 1000) |}.

Definition appointment : Appointment :=
  {| apPatientId := "p1"; apClinicId := "c1";
     appointmentDate := t0 + 24 * 60 * 60 * 1000 + 10 * 60 * 1000;
     appointmentType := "Primary care"; apStatus := "SCHEDULED";
     riskScore := Some 85; needsRide := true; rideOfferSent := false;
     aiRiskScore := None; aiConfidence := None; aiReasoning := None;
     aiRecommendations := None |}.

(** One patient with a phone, one clinic, one appointment. *)
Definition baseDB : DB :=
  {| patients := {[ "p1" := maria ]}; clinics := {[ "c1" := clinic ]};
     appointments := {[ "a1" := appointment ]}; rides := ∅;
     smsMessages := []; nextSmsId := 0; noShowHistory := [];
     aiRiskCache := ∅ |}.

(** A message row, and a store whose log (newest first) holds an
    inbound reply, an offer to a second number, and two outbound
    messages to the first number for two appointments. *)
Definition message (id : nat) (appointmentId phone dir : string) (at_ : Z)
    : SMSMessage :=
  {| smsId := id; smsAppointmentId := appointmentId; smsPhoneNumber := phone;
     smsMessage := "text"; direction := dir; smsStatus := DELIVERED;
     twilioSid := None; createdAt := at_ |}.

Definition threadDB : DB :=
  {| patients := patients baseDB; clinics := clinics baseDB;
     appointments := appointments baseDB; rides := ∅;
     smsMessages :=
       [ message 4 "a1" "+15551234567" INBOUND (t0 + 4000);
         message 3 "a3" "+15559876543" OUTBOUND (t0 + 3000);
         message 2 "a2" "+15551234567" OUTBOUND (t0 + 2000);
         message 1 "a1" "+15551234567" OUTBOUND t0 ];
     nextSmsId := 5; noShowHistory := []; aiRiskCache := ∅ |}.

Definition world (d : DB) : World :=
  {| db := d; mockRides := ∅; events := [] |}.

Definition ride (st : string) (uber : option string) : Ride :=
  {| rdAppointmentId := "a1"; pickupLocation := "Tent City, 5th St";
     dropoffLocation := "240 Shotwell St";
     pickupTime := appointmentDate appointment - 45 * 60 * 1000;
     rdStatus := st; uberRideId := uber; estimatedCost := Some (12 # 1);
     driverName := None; vehicleInfo := None;
     driverLatitude := None; driverLongitude := None |}.

Definition uberRide (id st : string) : UberRideResponse :=
  {| ride_id := id; status := st;
     pickup_time := appointmentDate appointment - 45 * 60 * 1000;
     pickup_address := "Tent City, 5th St"; dropoff_address := "240 Shotwell St";
     driver := Some {| driverNameOf := "Sarah M."; vehicle := "Gray Honda Civic";
                       license := "7ABC123" |};
     estimated_cost := 12 # 1; eta_minutes := None; current_location := None |}.

(** The ride the demo mode books: its provider id is unknown to the
    provider. *)
Definition demoRideWorld : World :=
  world (set_rides (insert "r1" (ride SCHEDULED (Some "DEMO_UBER_1"))) baseDB).

(** A completed ride that carries no provider id. *)
Definition completedRideWorld : World :=
  world (set_rides (insert "r1" (ride COMPLETED None)) baseDB).

(** A ride in step with the provider, which has it scheduled. *)
Definition syncedRideWorld : World :=
  {| db := set_rides (insert "r1" (ride SCHEDULED (Some "UBER_1"))) baseDB;
     mockRides := {[ "UBER_1" := uberRide "UBER_1" "scheduled" ]};
     events := [] |}.

(** A ride whose driver was assigned in an earlier sweep. *)
Definition assignedRideWorld : World :=
  world (set_rides (insert "r1" (ride DRIVER_ASSIGNED (Some "UBER_1"))) baseDB).

(** The provider now reports the driver at the pickup point. *)
Definition arrivedProvider (u : string) : option UberRideResponse :=
  if String.eqb u "UBER_1" then Some (uberRide "UBER_1" "arrived") else None.

Definition cachedRow : AIRiskCache :=
  {| aiScore := 70; cacheConfidence := 85;
     cacheReasoning := "Responsive in the evening";
     cacheRecommendations := ["Call after 6 PM"];
     cacheRiskFactors := ["housing"]; cacheOptimalContactTime := Some "7 PM";
     calculatedAt := t0; expiresAt := t0 + 24 * msPerHour |}.

(** The offer has gone out and an assessment is cached. *)
Definition offeredDB : DB :=
  set_aiRiskCache (insert "a1" cachedRow)
    (createSMS t0 "a1" "+15551234567" "Need a free ride? Reply YES"
       OUTBOUND DELIVERED (Some "SM1") baseDB).2.

Definition noTransport (_ : Z) (_ _ : string) : string + string :=
  inl "transport down".
Definition noFormat (_ : Z) : string := "".
Definition noIntentProvider (_ : string) (_ : option ClaudeService.Context)
    : ClaudeService.IntentReply := ClaudeService.IntentApiThrows.
Definition noPhrase (_ _ _ : string) (_ _ : option string)
    : option (option string) := None.
Definition someId (_ : World) : string := "id1".
Definition noCost (_ : Clinic) : Q := 0.

Definition rawReply : AIResult :=
  {| rawAdjustedScore := Some (JSNumberValue 90%Q);
     rawAdjustment := Some (JSNumberValue 20%Q);
     rawConfidence := Some (JSNumberValue 90%Q); rawReasoning := None;
     rawRecommendations := None; rawOptimalContactTime := None;
     rawRiskFactors := None |}.

Definition claudeReplies (_ : DB) (_ : Patient) (_ : string)
    (_ : RiskScoreResult) : ClaudeReply := TextContent (Some rawReply).

Definition halfYear (now : Z) : Z := now - 183 * 24 * msPerHour.

Definition aiOn : Config := {| isEnabled := true; hasClient := true |}.

End Fixtures.

(** * Further operations of the same files *)

(** ** The other scheduler jobs and the appointment routes around them *)

Module Jobs.
Import RiskScore Store TwilioService UberHealth Scheduler Routes.

(** The events these operations push. *)
Inductive JobEvent :=
| RISK_SCORE_CALCULATED (appointmentId : string) (riskScore : Z)
    (category : RiskCategory) (factors : list RiskFactor)
| APPOINTMENT_UPDATE (appointmentId status : string)
| RIDE_REMINDER_SENT (rideId appointmentId : string)
| SMS_STATUS_UPDATE (messageId : nat) (appointmentId twilioSid status : string).

Definition set_noShowHistory (f : list NoShowHistory -> list NoShowHistory)
    (d : DB) : DB :=
  {| patients := patients d; clinics := clinics d;
     appointments := appointments d; rides := rides d;
     smsMessages := smsMessages d; nextSmsId := nextSmsId d;
     noShowHistory := f (noShowHistory d); aiRiskCache := aiRiskCache d |}.

(** [data: { riskScore, needsRide }] *)
Definition setRisk (s : Z) (needs : bool) (a : Appointment) : Appointment :=
  {| apPatientId := apPatientId a; apClinicId := apClinicId a;
     appointmentDate := appointmentDate a;
     appointmentType := appointmentType a; apStatus := apStatus a;
     riskScore := Some s; needsRide := needs;
     rideOfferSent := rideOfferSent a;
     aiRiskScore := aiRiskScore a; aiConfidence := aiConfidence a;
     aiReasoning := aiReasoning a;
     aiRecommendations := aiRecommendations a |}.

(** [status: { in: [SCHEDULED, CONFIRMED] }] *)
Definition isActiveAppointment (a : Appointment) : bool :=
  String.eqb (apStatus a) SCHEDULED || String.eqb (apStatus a) CONFIRMED.

(** The [riskFilter] query parameter of GET /api/appointments/upcoming:
    the clause it adds on [riskScore]. A [null] score satisfies no
    comparison. *)
Definition riskFilterMatches (riskFilter : option string) (riskScore : option Z)
    : bool :=
  match riskFilter with
  | Some f =>
      if String.eqb f "high" then
        match riskScore with Some s => 61 <=? s | None => false end
      else if String.eqb f "medium" then
        match riskScore with Some s => (31 <=? s) && (s <=? 60) | None => false end
      else if String.eqb f "low" then
        match riskScore with Some s => s <=? 30 | None => false end
      else true
  | None => true
  end.

Section Jobs.
Variable isTestMode : bool.
Variable transport : Z -> string -> string -> string + string.
Variable formatTime : Z -> string.
Variable showTime : Z -> string.
(** A JavaScript number printed in a template. *)
Variable showNumber : Q -> string.
(** The clock moved back six calendar months, forward seven calendar
    days, and to the first and the last millisecond of its day. *)
Variable sixMonthsBefore : Z -> Z.
Variable sevenDaysLater : Z -> Z.
Variable startOfDay : Z -> Z.
Variable endOfDay : Z -> Z.

(** The [where] clause of [calculateAllRiskScores]. *)
Definition dueForScoring (now : Z) (a : Appointment) : bool :=
  (now <=? appointmentDate a) && (appointmentDate a <=? sevenDaysLater now)
  && isActiveAppointment a.

(** The body of the loop of [calculateAllRiskScores]. The included
    patient exists by the schema's foreign key. *)
Definition scoreAppointment (now : Z) (st : DB * list JobEvent)
    (row : string * Appointment) : DB * list JobEvent :=
  let '(id, appointment) := row in
  match patients st.1 !! apPatientId appointment with
  | Some patient =>
      let riskResult :=
        calculateRiskScore (noShowHistory st.1) (sixMonthsBefore now) patient in
      (set_appointments
         (alter (setRisk (score riskResult)
                         (bool_decide (category riskResult = HIGH))) id) st.1,
       st.2 ++ [RISK_SCORE_CALCULATED id (score riskResult)
                  (category riskResult) (factors riskResult)])
  | None => st
  end.

Definition calculateAllRiskScores (now : Z) (d : DB) : DB * list JobEvent :=
  foldl (scoreAppointment now) (d, [])
    (List.filter (fun ka => dueForScoring now ka.2) (map_to_list (appointments d))).

(** The [where] clause of [markNoShows]. *)
Definition unattendedToday (now : Z) (a : Appointment) : bool :=
  (startOfDay now <=? appointmentDate a) && (appointmentDate a <=? endOfDay now)
  && isActiveAppointment a.

(** [prisma.noShowHistory.create({ data: { patientId, appointmentId } })];
    [occurredAt] is not given and takes the time of the insertion. *)
Definition recordNoShow (now : Z) (patientId appointmentId : string) (d : DB) : DB :=
  set_noShowHistory (fun h => h ++ [{| nsPatientId := patientId;
                                       nsAppointmentId := appointmentId;
                                       occurredAt := now |}]) d.

(** The body of the loop of [markNoShows]. *)
Definition markNoShow (now : Z) (st : DB * list JobEvent)
    (row : string * Appointment) : DB * list JobEvent :=
  let '(id, appointment) := row in
  (recordNoShow now (apPatientId appointment) id
     (set_appointments (alter (setAppointmentStatus NO_SHOW) id) st.1),
   st.2 ++ [APPOINTMENT_UPDATE id NO_SHOW]).

Definition markNoShows (now : Z) (d : DB) : DB * list JobEvent :=
  foldl (markNoShow now) (d, [])
    (List.filter (fun ka => unattendedToday now ka.2) (map_to_list (appointments d))).

(** POST /api/appointments/:id/mark-noshow. [prisma.appointment.update]
    throws on an unknown id, which the route answers with a 500. *)
Definition markNoShowRoute (now : Z) (id : string) (d : DB)
    : Response * DB * list JobEvent :=
  match appointments d !! id with
  | None => (respond 500 false (Some "UPDATE_ERROR"), d, [])
  | Some appointment =>
      (respond 200 true None,
       recordNoShow now (apPatientId appointment) id
         (set_appointments (alter (setAppointmentStatus NO_SHOW) id) d),
       [APPOINTMENT_UPDATE id NO_SHOW])
  end.

(** [TwilioService.sendRideReminder] *)
Definition sendRideReminder (now : Z) (ride : Ride) (patientFirstName : string)
    (targetPhone : string) (hoursBeforePickup : Q) (d : DB) : SMSSendResult * DB :=
  let formattedTime := formatTime (pickupTime ride) in
  let timeText :=
    if negb (Qle_bool 1 hoursBeforePickup) then
      showNumber (inject_Z (Math_round (hoursBeforePickup * 60))) +:+ " minutes"
    else
      showNumber hoursBeforePickup +:+ " hour"
        +:+ (if negb (Qle_bool hoursBeforePickup 1) then "s" else "") in
  let message :=
    if truthy (driverName ride) && truthy (vehicleInfo ride) then
      "Hi " +:+ patientFirstName +:+ "! Your Uber arrives in " +:+ timeText
        +:+ " (" +:+ formattedTime +:+ "). Driver: " +:+ orEmpty (driverName ride)
        +:+ ", " +:+ orEmpty (vehicleInfo ride) +:+ ". Head to "
        +:+ pickupLocation ride +:+ ". See you soon!"
    else
      "Hi " +:+ patientFirstName +:+ "! Your ride is scheduled to arrive in "
        +:+ timeText +:+ " at " +:+ formattedTime +:+ ". Be ready at "
        +:+ pickupLocation ride +:+ "!" in
  sendSMS isTestMode transport showTime now targetPhone message
    (Some (rdAppointmentId ride)) d.

(** [TwilioService.sendRideConfirmation] *)
Definition sendRideConfirmation (now : Z) (ride : Ride) (targetPhone : string)
    (d : DB) : SMSSendResult * DB :=
  let message :=
    "Great! Your ride is confirmed for " +:+ formatTime (pickupTime ride)
      +:+ ". Pickup: " +:+ pickupLocation ride
      +:+ ". We'll text you when your driver is nearby. See you tomorrow!" in
  sendSMS isTestMode transport showTime now targetPhone message
    (Some (rdAppointmentId ride)) d.

(** The [where] clause of [sendRideReminders]: pickup between two and
    two and a half hours from now, both ends included. *)
Definition dueForReminder (now : Z) (ride : Ride) : bool :=
  (now + 2 * 60 * 60 * 1000 <=? pickupTime ride)
  && (pickupTime ride <=? now + 150 * 60 * 1000)
  && (String.eqb (rdStatus ride) SCHEDULED
      || String.eqb (rdStatus ride) DRIVER_ASSIGNED).

(** The body of the loop of [sendRideReminders]; the event follows the
    send whatever its result. *)
Definition remindRide (now : Z) (st : DB * list JobEvent) (row : string * Ride)
    : DB * list JobEvent :=
  let '(id, ride) := row in
  match patientOfRide st.1 ride with
  | Some patient =>
      match contactPhone patient with
      | Some targetPhone =>
          if truthy (Some targetPhone) then
            ((sendRideReminder now ride (firstName patient) targetPhone 2 st.1).2,
             st.2 ++ [RIDE_REMINDER_SENT id (rdAppointmentId ride)])
          else st
      | None => st
      end
  | None => st
  end.

Definition sendRideReminders (now : Z) (d : DB) : DB * list JobEvent :=
  foldl (remindRide now) (d, [])
    (List.filter (fun kr => dueForReminder now kr.2) (map_to_list (rides d))).
End Jobs.

End Jobs.

(** ** The provider mock's clock-driven status (uberHealth.service.ts) *)

Module UberMock.
Import UberHealth.

Definition withDriver (d : UberDriver) (r : UberRideResponse) : UberRideResponse :=
  {| ride_id := ride_id r; status := status r; pickup_time := pickup_time r;
     pickup_address := pickup_address r; dropoff_address := dropoff_address r;
     driver := Some d; estimated_cost := estimated_cost r;
     eta_minutes := eta_minutes r; current_location := current_location r |}.

Definition withProgress (eta : Z) (loc : Q * Q) (r : UberRideResponse)
    : UberRideResponse :=
  {| ride_id := ride_id r; status := status r; pickup_time := pickup_time r;
     pickup_address := pickup_address r; dropoff_address := dropoff_address r;
     driver := driver r; estimated_cost := estimated_cost r;
     eta_minutes := Some eta; current_location := Some loc |}.

Section Mock.
(** [MOCK_DRIVERS[Math.floor(Math.random() * MOCK_DRIVERS.length)]] *)
Variable getRandomDriver : Z -> string -> UberDriver.
(** [interpolateLocation(dropoff, pickup, progress)], floating-point
    arithmetic on the coordinates of the ride. *)
Variable interpolateLocation : UberRideResponse -> Q -> Q * Q.

(** [if (!updatedRide.driver) updatedRide.driver = this.getRandomDriver()] *)
Definition ensureDriver (now : Z) (r : UberRideResponse) : UberRideResponse :=
  match driver r with
  | Some _ => r
  | None => withDriver (getRandomDriver now (ride_id r)) r
  end.

Definition minutesUntilPickup (now : Z) (r : UberRideResponse) : Q :=
  inject_Z (pickup_time r - now) / inject_Z (1000 * 60).

(** [getRideStatus]: the status is recomputed from the time left until
    the pickup, and the recomputed ride is stored. *)
Definition getRideStatus (now : Z) (rideId : string)
    (mockRides : gmap string UberRideResponse)
    : option UberRideResponse * gmap string UberRideResponse :=
  match mockRides !! rideId with
  | None => (None, mockRides)
  | Some ride =>
      let m := minutesUntilPickup now ride in
      let updatedRide :=
        if Qle_bool m 0 then
          if negb (String.eqb (status ride) "completed")
             && negb (String.eqb (status ride) "cancelled")
          then
            if Qle_bool m (-30) then withStatus "completed" ride
            else withStatus "in_progress" ride
          else ride
        else if Qle_bool m 5 then
          ensureDriver now (withStatus "arrived" ride)
        else if Qle_bool m 15 then
          withProgress (Math_round m) (interpolateLocation ride (m / 15))
            (ensureDriver now (withStatus "en_route" ride))
        else if Qle_bool m 60 then
          ensureDriver now (withStatus "driver_assigned" ride)
        else ride in
      (Some updatedRide, <[rideId := updatedRide]> mockRides)
  end.
End Mock.

End UberMock.

(** ** The other routes of the sms and rides routers *)

Module MoreRoutes.
Import RiskScore Store TwilioService UberHealth Scheduler Routes Jobs.

(** The [switch (MessageStatus)] of the status webhook. *)
Definition dbStatusOf (MessageStatus : string) : string :=
  if String.eqb MessageStatus "delivered" then "DELIVERED"
  else if String.eqb MessageStatus "read" then "READ"
  else if String.eqb MessageStatus "sent" || String.eqb MessageStatus "queued"
  then "SENT"
  else if String.eqb MessageStatus "failed"
          || String.eqb MessageStatus "undelivered"
  then "FAILED"
  else "SENT".

Definition hasSid (sid : string) (m : SMSMessage) : bool :=
  match twilioSid m with Some s => String.eqb s sid | None => false end.

Definition setSmsStatus (st : string) (m : SMSMessage) : SMSMessage :=
  {| smsId := smsId m; smsAppointmentId := smsAppointmentId m;
     smsPhoneNumber := smsPhoneNumber m; smsMessage := smsMessage m;
     direction := direction m; smsStatus := st; twilioSid := twilioSid m;
     createdAt := createdAt m |}.

(** POST /api/sms/status-webhook with a message id in the body:
    [updateMany] on the rows with that id, then an event for one of
    them ([findFirst] without an order; the model takes the newest). *)
Definition statusWebhook (MessageSid MessageStatus : string) (d : DB)
    : DB * list JobEvent :=
  let dbStatus := dbStatusOf MessageStatus in
  let d' := set_smsMessages
              (map (fun m => if hasSid MessageSid m then setSmsStatus dbStatus m
                             else m)) d in
  match List.filter (hasSid MessageSid) (smsMessages d') with
  | message :: _ =>
      (d', [SMS_STATUS_UPDATE (smsId message) (smsAppointmentId message)
              MessageSid dbStatus])
  | [] => (d', [])
  end.

(** A date field of a request body: a number of milliseconds or a
    text. *)
Inductive DateInput := DateMillis (t : Z) | DateText (s : string).

(** Truthiness of the field: [0] and the empty text are falsy. *)
Definition dateTruthy (x : DateInput) : bool :=
  match x with
  | DateMillis t => negb (t =? 0)
  | DateText s => negb (String.eqb s "")
  end.

Section Handlers.
Variable isTestMode : bool.
Variable transport : Z -> string -> string -> string + string.
Variable formatTime : Z -> string.
Variable showTime : Z -> string.
Variable claudeTestMode : bool.
Variable classify : string -> option ClaudeService.Context
                    -> ClaudeService.IntentReply.
Variable newUberRideId : World -> string.
Variable newRideId : World -> string.
Variable estimateCost : Clinic -> Q.
(** [Date.parse] of a text: the timestamp, [None] when invalid. *)
Variable parseDate : string -> option Z.

(** [new Date(x)]: the timestamp, [None] for an invalid date. *)
Definition newDate (x : DateInput) : option Z :=
  match x with
  | DateMillis t => if Z.abs t <=? 8640000000000000 then Some t else None
  | DateText s => parseDate s
  end.

(** POST /api/sms/send *)
Definition sendRoute (now : Z) (phoneNumber message appointmentId : option string)
    (d : DB) : Response * DB :=
  match or_else phoneNumber None, or_else message None with
  | Some phone, Some body =>
      let '(result, d) :=
        sendSMS isTestMode transport showTime now phone body appointmentId d in
      (respond 200 (success result)
         (if truthy (error result) then Some "SMS_FAILED" else None), d)
  | _, _ => (respond 400 false (Some "MISSING_FIELDS"), d)
  end.

(** POST /api/sms/simulate-reply; [message] defaults to ['YES']. The
    reply is logged and parsed (without context), nothing more. *)
Definition simulateReply (now : Z) (appointmentId message : option string)
    (w : World) : Response * World * list string :=
  let message := match message with Some m => m | None => "YES" end in
  match or_else appointmentId None with
  | None => (respond 400 false (Some "MISSING_FIELDS"), w, [])
  | Some appointmentId =>
      match appointments (db w) !! appointmentId with
      | None => (respond 404 false (Some "NOT_FOUND"), w, [])
      | Some appointment =>
          match patients (db w) !! apPatientId appointment with
          | None => (respond 500 false (Some "SIMULATION_ERROR"), w, [])
          | Some patient =>
              match contactPhone patient with
              | Some phoneNumber =>
                  if truthy (Some phoneNumber) then
                    let w := withDB (fun d =>
                      (handleIncomingSMS now phoneNumber message
                         ("SIMULATED_" +:+ showTime now) d).2) w in
                    let '(parsedResponse, calls) :=
                      ClaudeService.parsePatientResponse claudeTestMode classify
                        message None in
                    let w := emit (SMS_RECEIVED appointmentId phoneNumber message
                                     (ClaudeService.intent parsedResponse)
                                     (ClaudeService.confidence parsedResponse)) w in
                    (respond 200 true None, w, calls)
                  else (respond 400 false (Some "NO_PHONE"), w, [])
              | None => (respond 400 false (Some "NO_PHONE"), w, [])
              end
          end
      end
  end.

(** POST /api/rides/book. [pickupTime] is the body field as it
    arrives, absent ([None]), a number or a text. A falsy field ([0],
    the empty text) counts as missing. [new Date(pickupTime)] is
    invalid for a number beyond 8.64e15 milliseconds and for a text
    the date parser rejects; [bookRide] then throws on
    [toISOString()] before it stores anything and the route answers
    500. *)
Definition book (now : Z) (appointmentId pickupLocation : option string)
    (pickupTime : option DateInput) (w : World) : Response * World :=
  match or_else appointmentId None, or_else pickupLocation None, pickupTime with
  | Some appointmentId, Some pickupLocation, Some pickupInput =>
      if negb (dateTruthy pickupInput)
      then (respond 400 false (Some "MISSING_FIELDS"), w)
      else
      match appointments (db w) !! appointmentId with
      | None => (respond 404 false (Some "NOT_FOUND"), w)
      | Some appointment =>
          match patients (db w) !! apPatientId appointment,
                clinics (db w) !! apClinicId appointment with
          | Some patient, Some clinic =>
              match rideOfAppointment (db w) appointmentId with
              | Some _ => (respond 400 false (Some "RIDE_EXISTS"), w)
              | None =>
                  match newDate pickupInput with
                  | None => (respond 500 false (Some "BOOKING_ERROR"), w)
                  | Some pickupTime =>
                  let '(uberResponse, mock) :=
                    bookRide (newUberRideId w) pickupLocation
                      (clinicAddress clinic) pickupTime (estimateCost clinic)
                      (mockRides w) in
                  let w := withMock (fun _ => mock) w in
                  let rideId := newRideId w in
                  let ride :=
                    {| rdAppointmentId := appointmentId;
                       pickupLocation := pickupLocation;
                       dropoffLocation := clinicAddress clinic;
                       pickupTime := pickupTime;
                       rdStatus := SCHEDULED;
                       uberRideId := Some (ride_id uberResponse);
                       estimatedCost := Some (estimated_cost uberResponse);
                       driverName := None; vehicleInfo := None;
                       driverLatitude := None; driverLongitude := None |} in
                  let w := withDB (set_rides (insert rideId ride)) w in
                  let w := withDB (set_appointments
                             (alter (setAppointmentStatus CONFIRMED)
                                    appointmentId)) w in
                  let w :=
                    match contactPhone patient with
                    | Some targetPhone =>
                        if truthy (Some targetPhone) then
                          withDB (fun d =>
                            (sendRideConfirmation isTestMode transport formatTime
                               showTime now ride targetPhone d).2) w
                        else w
                    | None => w
                    end in
                  let w := emit (RIDE_BOOKED rideId appointmentId pickupTime
                                   (estimated_cost uberResponse)) w in
                  (respond 200 true None, w)
                  end
              end
          | _, _ => (respond 500 false (Some "BOOKING_ERROR"), w)
          end
      end
  | _, _, _ => (respond 400 false (Some "MISSING_FIELDS"), w)
  end.
End Handlers.

End MoreRoutes.

(** ** The risk route of the appointments router *)

Module RiskRoute.
Import RiskScore Store AIRiskScore Routes Jobs.

(** The [data] of the update after an adjusted calculation. An
    [undefined] value leaves its column as it is; the recommendations
    are stored ([JSON.stringify]) when the result carries an
    assessment and set to [null] otherwise. *)
Definition setRiskAI (r : EnhancedRiskScoreResult) (a : Appointment)
    : Appointment :=
  {| apPatientId := apPatientId a; apClinicId := apClinicId a;
     appointmentDate := appointmentDate a;
     appointmentType := appointmentType a; apStatus := apStatus a;
     riskScore := Some (baseScore r);
     needsRide := JS_le 61 (finalScore r);
     rideOfferSent := rideOfferSent a;
     aiRiskScore := Some (finalScore r);
     aiConfidence :=
       match aiAssessment r with
       | Some x => Some (confidence x)
       | None => aiConfidence a
       end;
     aiReasoning :=
       match aiAssessment r with
       | Some x => Some (reasoning x)
       | None => aiReasoning a
       end;
     aiRecommendations := recommendations <$> aiAssessment r |}.

Section Route.
Variable claude : DB -> Patient -> string -> RiskScoreResult -> ClaudeReply.
Variable sixMonthsBefore : Z -> Z.
Variable cfg : Config.

(** [aiRiskScoreService.isAIAvailable()] *)
Definition isAIAvailable : bool := isEnabled cfg && hasClient cfg.

(** POST /api/appointments/:id/calculate-risk. [useAI] is the body
    field: the adjusted branch is taken unless it is the boolean
    [false]. Returns the answer, the result sent with it, the store,
    the appointment ids handed to the provider and the event. *)
Definition calculateRisk (now : Z) (useAI : option bool) (id : string) (d : DB)
    : Response * option EnhancedRiskScoreResult * DB * list string
      * list JobEvent :=
  match appointments d !! id with
  | None => (respond 404 false (Some "NOT_FOUND"), None, d, [], [])
  | Some appointment =>
      match patients d !! apPatientId appointment with
      | None => (respond 500 false (Some "CALCULATION_ERROR"), None, d, [], [])
      | Some patient =>
          if match useAI with Some false => false | _ => true end
             && isAIAvailable
          then
            let '(riskResult, d, calls) :=
              calculateAIEnhancedRiskScore claude sixMonthsBefore cfg now
                patient id d in
            let d := set_appointments (alter (setRiskAI riskResult) id) d in
            (respond 200 true None, Some riskResult, d, calls,
             [RISK_SCORE_CALCULATED id (baseScore riskResult)
                (finalCategory riskResult) (baseFactors riskResult)])
          else
            let baseResult :=
              calculateRiskScore (noShowHistory d) (sixMonthsBefore now)
                patient in
            let riskResult :=
              {| baseScore := score baseResult;
                 finalCategory := category baseResult;
                 baseFactors := factors baseResult;
                 aiAssessment := None;
                 finalScore := inject_Z (score baseResult);
                 isAIEnhanced := false;
                 aiAvailable := isAIAvailable |} in
            let d := set_appointments
                       (alter (setRisk (score baseResult)
                                 (bool_decide (category baseResult = HIGH)))
                              id) d in
            (respond 200 true None, Some riskResult, d, [],
             [RISK_SCORE_CALCULATED id (score baseResult)
                (category baseResult) (factors baseResult)])
      end
  end.
End Route.

End RiskRoute.

(** ** Vocabulary of the further properties *)

Module MoreProps.
Import RiskScore Store AIRiskScore TwilioService UberHealth Scheduler Routes.

(** The points of an itemised breakdown, added up. *)
Definition sumPoints (fs : list RiskFactor) : Z :=
  foldr (fun f acc => points f + acc) 0 fs.

(** Message ids are drawn from the counter: every stored id is below it. *)
Definition smsIdsFresh (d : DB) : Prop :=
  forall m, m ∈ smsMessages d -> (smsId m < nextSmsId d)%nat.

(** An appointment has at most one ride. *)
Definition oneRidePerAppointment (d : DB) : Prop :=
  forall id1 id2 r1 r2,
    rides d !! id1 = Some r1 -> rides d !! id2 = Some r2 ->
    rdAppointmentId r1 = rdAppointmentId r2 -> id1 = id2.

(** The rides of an appointment. *)
Definition ridesOf (appointmentId : string) (d : DB) : list (string * Ride) :=
  List.filter (fun kr => String.eqb (rdAppointmentId kr.2) appointmentId)
    (map_to_list (rides d)).

(** The messages of one direction logged for a phone number. *)
Definition messagesWith (dir phone : string) (d : DB) : list SMSMessage :=
  List.filter (fun m => String.eqb (direction m) dir
                        && String.eqb (smsPhoneNumber m) phone)
    (smsMessages d).

(** The messages of the ASCII range, on which the model's [trim],
    [toLowerCase] and white-space classes are JavaScript's. *)
Definition isAscii (s : string) : bool :=
  forallb (fun a => (nat_of_ascii a <? 128)%nat) (list_ascii_of_string s).

(** The confirmation phrases of the rule tier. *)
Definition confirmPhrases : list string :=
  ["yes"; "yeah"; "yep"; "yup"; "ok"; "okay"; "sure"; "sounds good";
   "please"; "yes please"; "y"; ClaudeService.mangledThumbsUp;
   "i need a ride";
   "i want a ride"; "book it"; "lets do it"; "definitely"; "absolutely"].

(** The text the rule tier matches its phrase patterns against. *)
Definition cleaned (message : string) : string :=
  Regex.collapseSpaces (Regex.stripPunctuation
    (Regex.trim (Regex.toLowerCase message))).

(** A step of the status-sync sweep asks the provider about [u] and
    is answered. *)
Definition asked (p : string -> option UberRideResponse) (u : string)
    (row : string * Ride) : Prop :=
  or_else (uberRideId row.2) None = Some u /\ is_Some (p u).

(** The announcement the status-sync sweep owes for a ride of its
    snapshot: one event when the provider's answer maps to another
    status than the ride has, none otherwise. *)
Definition syncEvents (p : string -> option UberRideResponse)
    (row : string * Ride) : list Event :=
  match or_else (uberRideId row.2) None with
  | None => []
  | Some u =>
      match p u with
      | None => []
      | Some uberStatus =>
          if String.eqb (newStatusFor uberStatus row.2) (rdStatus row.2) then []
          else [RIDE_STATUS_UPDATE row.1 (Some (rdAppointmentId row.2))
                  (rdStatus row.2) (newStatusFor uberStatus row.2)]
      end
  end.

(** The announcement the reminder job owes for a ride of its snapshot:
    one event when the patient of the ride can be reached. *)
Definition reminderEvents (d : DB) (row : string * Ride) : list Jobs.JobEvent :=
  match patientOfRide d row.2 with
  | Some patient =>
      if truthy (contactPhone patient)
      then [Jobs.RIDE_REMINDER_SENT row.1 (rdAppointmentId row.2)] else []
  | None => []
  end.

(** What a run of the offer sweep over the appointments [ids] may
    change: the message log grows by at most one row per appointment,
    an appointment row changes by having its offer flag set, and every
    new event announces an offer whose flag is then set. *)
Definition offersOnly (ids : list string) (w w' : World) : Prop :=
  patients (db w') = patients (db w) /\ clinics (db w') = clinics (db w) /\
  rides (db w') = rides (db w) /\ aiRiskCache (db w') = aiRiskCache (db w) /\
  noShowHistory (db w') = noShowHistory (db w) /\
  mockRides w' = mockRides w /\
  (forall id,
     appointments (db w') !! id = appointments (db w) !! id \/
     (id ∈ ids /\
      appointments (db w') !! id
      = setRideOfferSent <$> appointments (db w) !! id)) /\
  (exists evs,
     events w' = events w ++ evs /\
     Forall (fun e => exists id ph,
               e = RIDE_OFFER_SENT id ph /\ id ∈ ids /\
               appointments (db w') !! id
               = setRideOfferSent <$> appointments (db w) !! id) evs) /\
  (length (smsMessages (db w')) <= length (smsMessages (db w)) + length ids)%nat.

End MoreProps.

(** * Further example data *)

Module MoreFixtures.
Import AIRiskScore.

(** The reply [{}]: every field is missing. *)
Definition emptyReply : AIResult :=
  {| rawAdjustedScore := None; rawAdjustment := None; rawConfidence := None;
     rawReasoning := None; rawRecommendations := None;
     rawOptimalContactTime := None; rawRiskFactors := None |}.

Definition weekLater (now : Z) : Z := now + 7 * 24 * AIRiskScore.msPerHour.

End MoreFixtures.

(** * Properties *)

(** ** Arithmetic helpers *)

Lemma Math_round_nearest q :
  (inject_Z (Math_round q) - (1 # 2) <= q < inject_Z (Math_round q) + (1 # 2))%Q.
Proof.
  unfold Math_round.
  pose proof (Qfloor_le (q + (1 # 2))) as Hlo.
  pose proof (Qlt_floor (q + (1 # 2))) as Hhi.
  rewrite inject_Z_plus in Hhi. change (inject_Z 1) with 1%Q in Hhi.
  split; lra.
Qed.

Lemma Qle_bool_false x y : Qle_bool x y = false <-> (y < x)%Q.
Proof.
  split; intros H.
  - apply Qnot_le_lt. intros Hle. apply Qle_bool_iff in Hle. congruence.
  - destruct (Qle_bool x y) eqn:E; [|done]. apply Qle_bool_iff in E. lra.
Qed.

(** ** JavaScript numbers *)

Ltac qlra :=
  unfold Qdiv in *; change (/ 2)%Q with (1 # 2)%Q in *; lra.

Lemma pow2_pos z : (0 < 2 ^ z)%Q.
Proof. by apply Qpower_0_lt. Qed.

Lemma pow2_succ z : (2 ^ (z + 1) == 2 * 2 ^ z)%Q.
Proof. rewrite Qpower_plus by done. change (2 ^ 1)%Q with 2%Q. ring. Qed.

Lemma pow2_pred z : (2 ^ (z - 1) == 2 ^ z / 2)%Q.
Proof. rewrite Qpower_minus by done. change (2 ^ 1)%Q with 2%Q. reflexivity. Qed.

Lemma pow2_Z z : 0 <= z -> (inject_Z (2 ^ z) == 2 ^ z)%Q.
Proof. intros H. by rewrite Zpower_Qpower. Qed.

Lemma binade_bounds n d :
  0 < n -> 0 < d ->
  (2 ^ (Z.log2 n - Z.log2 d) / 2 < inject_Z n / inject_Z d
   < 2 * 2 ^ (Z.log2 n - Z.log2 d))%Q.
Proof.
  intros Hn Hd.
  destruct (Z.log2_spec n Hn) as [Hn1 Hn2].
  destruct (Z.log2_spec d Hd) as [Hd1 Hd2].
  pose proof (Z.log2_nonneg n) as Hln. pose proof (Z.log2_nonneg d) as Hld.
  set (ln := Z.log2 n) in *. set (ld := Z.log2 d) in *.
  rewrite <- Z.add_1_r in Hn2, Hd2.
  rewrite Zle_Qle in Hn1, Hd1. rewrite Zlt_Qlt in Hn2, Hd2.
  pose proof (pow2_Z ln Hln) as E1. pose proof (pow2_Z (ln + 1) ltac:(lia)) as E2.
  pose proof (pow2_Z ld Hld) as E3. pose proof (pow2_Z (ld + 1) ltac:(lia)) as E4.
  pose proof (pow2_succ ln) as E5. pose proof (pow2_succ ld) as E6.
  assert (Hk : (2 ^ (ln - ld) == 2 ^ ln / 2 ^ ld)%Q) by by rewrite Qpower_minus.
  pose proof (pow2_pos ln) as Pn. pose proof (pow2_pos ld) as Pd.
  assert (Hdq : (0 < inject_Z d)%Q)
    by (change 0%Q with (inject_Z 0); by rewrite <- Zlt_Qlt).
  set (K := (2 ^ (ln - ld))%Q) in *.
  set (P1 := (2 ^ (ln + 1))%Q) in *. set (D1 := (2 ^ (ld + 1))%Q) in *.
  set (P := (2 ^ ln)%Q) in *. set (D := (2 ^ ld)%Q) in *.
  set (ZP := inject_Z (2 ^ ln)) in *. set (ZP1 := inject_Z (2 ^ (ln + 1))) in *.
  set (ZD := inject_Z (2 ^ ld)) in *. set (ZD1 := inject_Z (2 ^ (ld + 1))) in *.
  set (N := inject_Z n) in *. set (M := inject_Z d) in *.
  clearbody K P1 D1 P D ZP ZP1 ZD ZD1 N M.
  clear Hn Hd ln ld Hln Hld.
  assert (Hup : (N / M < 2 * (P / D))%Q).
  { apply Qlt_shift_div_r; [done|].
    assert (2 * (P / D) * M == 2 * P * (M / D))%Q as E by (field; lra).
    assert (1 <= M / D)%Q as HMD by (apply Qle_shift_div_l; lra).
    set (X := (M / D)%Q) in *. set (Y := (2 * (P / D) * M)%Q) in *.
    clearbody X Y. nra. }
  assert (Hlow : (P / D / 2 < N / M)%Q).
  { apply Qlt_shift_div_l; [done|].
    assert (P / D / 2 * M == P * (M / D / 2))%Q as E by (field; lra).
    assert (M / D / 2 < 1)%Q as HMD.
    { apply Qlt_shift_div_r; [lra|]. apply Qlt_shift_div_r; lra. }
    set (X := (M / D / 2)%Q) in *. set (Y := (P / D / 2 * M)%Q) in *.
    clearbody X Y. nra. }
  set (X := (N / M)%Q) in *. set (Y := (P / D)%Q) in *. clearbody X Y.
  clear -Hup Hlow Hk. split; qlra.
Qed.

Lemma ilog2_spec a : (0 < a)%Q -> (2 ^ ilog2 a <= a < 2 ^ (ilog2 a + 1))%Q.
Proof.
  intros Ha. unfold ilog2.
  assert (Hn : 0 < Qnum a) by (destruct a as [[|p|p] q]; done).
  assert (Ea : (a == inject_Z (Qnum a) / inject_Z (Z.pos (Qden a)))%Q).
  { destruct a as [p q]. cbn [Qnum Qden]. rewrite (Qmake_Qdiv p q). reflexivity. }
  pose proof (binade_bounds (Qnum a) (Z.pos (Qden a)) Hn eq_refl) as [Hlow Hup].
  set (k := Z.log2 (Qnum a) - Z.log2 (Z.pos (Qden a))) in *.
  pose proof (pow2_succ k) as E7. pose proof (pow2_pred k) as E8.
  set (X := (inject_Z (Qnum a) / inject_Z (Z.pos (Qden a)))%Q) in *.
  clearbody X.
  destruct (Qle_bool (2 ^ k) a) eqn:E.
  - apply Qle_bool_iff in E.
    set (K := (2 ^ k)%Q) in *. set (K1 := (2 ^ (k + 1))%Q) in *.
    clearbody K K1. split; qlra.
  - apply Qle_bool_false in E.
    replace (k - 1 + 1) with k by lia.
    set (K := (2 ^ k)%Q) in *. set (K' := (2 ^ (k - 1))%Q) in *.
    clearbody K K'. split; qlra.
Qed.

(** The binade is monotone: below [2^k] the exponent is below [k]. *)
Lemma ilog2_lt a k : (0 < a)%Q -> (a < 2 ^ k)%Q -> ilog2 a < k.
Proof.
  intros Ha Hk. destruct (ilog2_spec a Ha) as [Hlo _].
  apply (Qpower_lt_compat_l_inv 2); [|done].
  eapply Qle_lt_trans; eassumption.
Qed.

Lemma ilog2_ge a k : (0 < a)%Q -> (2 ^ k <= a)%Q -> k <= ilog2 a.
Proof.
  intros Ha Hk. destruct (ilog2_spec a Ha) as [_ Hhi].
  assert (k < ilog2 a + 1); [|lia].
  apply (Qpower_lt_compat_l_inv 2); [|done].
  eapply Qle_lt_trans; eassumption.
Qed.

Lemma Qabs_nonneg_eq x : (0 <= x)%Q -> Qabs x = x.
Proof.
  destruct x as [n d]. unfold Qle, Qabs. cbn. intros H.
  f_equal. apply Z.abs_eq. lia.
Qed.

Lemma roundHalfEven_near y :
  (Qabs (inject_Z (roundHalfEven y) - y) <= 1 # 2)%Q.
Proof.
  unfold roundHalfEven.
  pose proof (Qfloor_le y) as Hlo. pose proof (Qlt_floor y) as Hhi.
  rewrite inject_Z_plus in Hhi. change (inject_Z 1) with 1%Q in Hhi.
  set (f := Qfloor y) in *.
  destruct (Qcompare_spec (y - inject_Z f) (1 # 2)) as [E|E|E].
  - destruct (Z.even f).
    + apply Qabs_Qle_condition. split; lra.
    + rewrite inject_Z_plus. change (inject_Z 1) with 1%Q.
      apply Qabs_Qle_condition. split; lra.
  - apply Qabs_Qle_condition. split; lra.
  - rewrite inject_Z_plus. change (inject_Z 1) with 1%Q.
    apply Qabs_Qle_condition. split; lra.
Qed.

Lemma roundHalfEven_integer y m : (y == inject_Z m)%Q -> roundHalfEven y = m.
Proof.
  intros E. unfold roundHalfEven.
  assert (Hf : Qfloor y = m) by (rewrite (Qfloor_comp _ _ E); apply Qfloor_Z).
  rewrite Hf.
  destruct (Qcompare_spec (y - inject_Z m) (1 # 2)) as [E'|E'|E']; [lra|done|lra].
Qed.

(** Rounding a positive rational below 256 to a double moves it by at
    most [2^-46]. *)
Lemma roundDouble_near x :
  (0 <= x < 256)%Q ->
  exists r, roundDouble x = Num r /\ (Qabs (r - x) <= 2 ^ (-46))%Q /\ (0 <= r)%Q.
Proof.
  intros [H0 H256]. unfold roundDouble.
  destruct (Qeq_bool x 0) eqn:E0.
  { apply Qeq_bool_iff in E0. exists 0%Q. split; [done|]. split; [|lra].
    rewrite E0. vm_compute. discriminate. }
  apply Qeq_bool_neq in E0.
  assert (Hpos : (0 < x)%Q) by lra.
  rewrite (Qabs_nonneg_eq x) by lra.
  assert (Hx0 : Qle_bool 0 x = true) by by apply Qle_bool_iff.
  rewrite Hx0.
  set (e := Z.max (ilog2 x) (-1022)).
  assert (He : e <= 7).
  { unfold e. assert (ilog2 x < 8); [|lia].
    apply ilog2_lt; [done|].
    change (2 ^ 8)%Q with 256%Q. done. }
  pose proof (pow2_pos (e - 52)) as Hulp.
  assert (Hsmall : (2 ^ (e - 52) <= 2 ^ (-45))%Q)
    by (apply Qpower_le_compat_l; [lia|done]).
  pose proof (roundHalfEven_near (x / 2 ^ (e - 52))) as Hnear.
  set (ulp := (2 ^ (e - 52))%Q) in *.
  set (m := inject_Z (roundHalfEven (x / ulp))) in *.
  assert (Hm0 : (0 <= m)%Q).
  { unfold m. change 0%Q with (inject_Z 0). rewrite <- Zle_Qle.
    unfold roundHalfEven.
    assert (0 <= Qfloor (x / ulp)).
    { change 0 with (Qfloor 0). apply Qfloor_resp_le.
      apply Qle_shift_div_l; [done|]. lra. }
    destruct (_ ?= _)%Q; [destruct (Z.even _)| |]; lia. }
  assert (Herr : (Qabs (m * ulp - x) <= 2 ^ (-46))%Q).
  { assert (m * ulp - x == (m - x / ulp) * ulp)%Q as -> by (field; lra).
    rewrite Qabs_Qmult, (Qabs_pos ulp) by lra.
    assert (2 ^ (-46) == (1 # 2) * 2 ^ (-45))%Q as -> by reflexivity.
    set (A := Qabs (m - x / ulp)) in *. set (B := (2 ^ (-45))%Q) in *.
    assert (0 <= A)%Q by apply Qabs_nonneg.
    clearbody A B ulp. nra. }
  assert (Hr : (m * ulp < 2 ^ 1024)%Q).
  { apply Qabs_Qle_condition in Herr as [_ Hup].
    assert (2 ^ (-46) <= 1)%Q by (vm_compute; discriminate).
    assert (257 <= 2 ^ 1024)%Q.
    { apply Qle_trans with (2 ^ 9)%Q; [vm_compute; discriminate|].
      apply Qpower_le_compat_l; [lia|done]. }
    set (B := (2 ^ (-46))%Q) in *. set (C := (2 ^ 1024)%Q) in *.
    set (R := (m * ulp)%Q) in *. clearbody B C R. lra. }
  apply Qle_bool_false in Hr. rewrite Hr.
  eexists. split; [reflexivity|]. split; [exact Herr|].
  clearbody m ulp. nra.
Qed.

(** A rational with at most 53 significant bits, within the exponent
    range, is a double: rounding returns it. *)
Lemma roundDouble_exact x M j :
  (x == inject_Z M * 2 ^ j)%Q -> 0 < M < 2 ^ 53 -> -1074 <= j <= 971 ->
  exists r, roundDouble x = Num r /\ (r == x)%Q.
Proof.
  intros Ex [HM0 HM] [Hj0 Hj1].
  pose proof (pow2_pos j) as Pj.
  assert (HMq : (0 < inject_Z M)%Q)
    by (change 0%Q with (inject_Z 0); by rewrite <- Zlt_Qlt).
  assert (Hpos : (0 < x)%Q).
  { rewrite Ex. set (A := inject_Z M) in *. set (B := (2 ^ j)%Q) in *.
    clearbody A B. nra. }
  unfold roundDouble.
  assert (Qeq_bool x 0 = false) as ->.
  { apply not_true_iff_false. intros E. apply Qeq_bool_iff in E. lra. }
  rewrite (Qabs_nonneg_eq x) by lra.
  assert (Qle_bool 0 x = true) as -> by (apply Qle_bool_iff; lra).
  assert (Hlt : (x < 2 ^ (53 + j))%Q).
  { rewrite Ex, Qpower_plus by done.
    assert (inject_Z M < 2 ^ 53)%Q.
    { rewrite <- (pow2_Z 53) by lia. by rewrite <- Zlt_Qlt. }
    set (A := inject_Z M) in *. set (B := (2 ^ j)%Q) in *.
    set (C := (2 ^ 53)%Q) in *. clearbody A B C. nra. }
  pose proof (ilog2_lt x (53 + j) Hpos Hlt) as He0.
  set (e := Z.max (ilog2 x) (-1022)).
  assert (He : e <= 52 + j) by (unfold e; lia).
  set (k := 52 + j - e).
  assert (Hk : 0 <= k) by (unfold k; lia).
  pose proof (pow2_pos (e - 52)) as Hulp.
  assert (Hq : (x / 2 ^ (e - 52) == inject_Z (M * 2 ^ k))%Q).
  { rewrite inject_Z_mult, (pow2_Z k Hk), Ex.
    assert (2 ^ j == 2 ^ k * 2 ^ (e - 52))%Q as ->.
    { rewrite <- Qpower_plus by done. f_equiv. unfold k. lia. }
    field. lra. }
  rewrite (roundHalfEven_integer _ _ Hq).
  assert (Hr : (inject_Z (M * 2 ^ k) * 2 ^ (e - 52) == x)%Q).
  { rewrite <- Hq. field. lra. }
  assert (Hov : (x < 2 ^ 1024)%Q).
  { eapply Qlt_le_trans; [exact Hlt|]. apply Qpower_le_compat_l; [lia|done]. }
  assert (Qle_bool (2 ^ 1024) (inject_Z (M * 2 ^ k) * 2 ^ (e - 52)) = false) as ->.
  { apply Qle_bool_false. by rewrite Hr. }
  eexists. split; [reflexivity|exact Hr].
Qed.

(** Adding two whole numbers whose sum is below [2^53] and halving
    the result are exact. *)
Lemma halved_sum_exact a b :
  0 <= a + b < 2 ^ 53 ->
  exists r,
    JS_div (JS_add (Num (inject_Z a)) (Num (inject_Z b))) 2 = Num r /\
    (r == inject_Z (a + b) / 2)%Q.
Proof.
  intros [H0 H1]. cbn [JS_add].
  destruct (Z.eq_dec (a + b) 0) as [E|E].
  { assert (inject_Z a + inject_Z b == 0)%Q as E'.
    { rewrite <- inject_Z_plus, E. reflexivity. }
    unfold roundDouble at 1. apply Qeq_bool_iff in E'. rewrite E'.
    cbn [JS_div]. exists 0%Q. split; [reflexivity|]. rewrite E. reflexivity. }
  destruct (roundDouble_exact (inject_Z a + inject_Z b) (a + b) 0)
    as (r & -> & Hr); [|lia|lia|].
  { rewrite inject_Z_plus. change (2 ^ 0)%Q with 1%Q. ring. }
  cbn [JS_div].
  destruct (roundDouble_exact (r / 2) (a + b) (-1))
    as (r2 & -> & Hr2); [|lia|lia|].
  { rewrite Hr, inject_Z_plus. change (2 ^ (-1))%Q with (1 # 2)%Q. field. }
  exists r2. split; [reflexivity|]. rewrite Hr2, Hr, inject_Z_plus. reflexivity.
Qed.

(** Adding two numbers of [0, 128) and halving the result moves the
    mean by at most [2^-46 + 2^-47]. *)
Lemma halved_sum_near a b :
  (0 <= a < 128)%Q -> (0 <= b < 128)%Q ->
  exists r,
    JS_div (JS_add (Num a) (Num b)) 2 = Num r /\
    (Qabs (r - (a + b) / 2) <= 2 ^ (-45))%Q.
Proof.
  intros Ha Hb. cbn [JS_add].
  destruct (roundDouble_near (a + b)) as (s & -> & Hs & Hs0); [split; lra|].
  cbn [JS_div].
  assert (Hs256 : (s < 256)%Q \/ (256 <= s)%Q) by (destruct (Qlt_le_dec s 256); auto).
  assert (H46 : (2 ^ (-46) == 1 # 70368744177664)%Q) by reflexivity.
  assert (H45 : (2 ^ (-45) == 1 # 35184372088832)%Q) by reflexivity.
  apply Qabs_Qle_condition in Hs as [Hs1 Hs2].
  destruct (roundDouble_near (s / 2)) as (r & -> & Hr & _).
  { split; [apply Qle_shift_div_l; lra|]. apply Qlt_shift_div_r; [lra|].
    set (B := (2 ^ (-46))%Q) in *. clearbody B. lra. }
  exists r. split; [reflexivity|].
  apply Qabs_Qle_condition in Hr as [Hr1 Hr2].
  apply Qabs_Qle_condition.
  set (B := (2 ^ (-46))%Q) in *. set (C := (2 ^ (-45))%Q) in *. clearbody B C.
  split; qlra.
Qed.

Lemma JSle_Num a b : (Num a <= Num b)%JS <-> (a <= b)%Q.
Proof. unfold JSle. cbn. apply Qle_bool_iff. Qed.

Lemma JSlt_Num a b : (Num a < Num b)%JS <-> (a < b)%Q.
Proof.
  unfold JSlt. cbn. rewrite negb_true_iff. apply Qle_bool_false.
Qed.

Lemma JS_le_NaN_r x : JS_le x NaN = false.
Proof. by destruct x. Qed.

(** Between numbers that are not NaN, [<] is the negation of [>=]. *)
Lemma JS_lt_not_le x y : x <> NaN -> y <> NaN -> JS_lt x y = negb (JS_le y x).
Proof. destruct x, y; cbn; try done. Qed.

(** [Math.max(lo, Math.min(hi, x))] is NaN for NaN and inside the
    bounds otherwise. *)
Lemma clamp_NaN lo hi : clamp lo hi NaN = NaN.
Proof. reflexivity. Qed.


(** An integer between integer bounds is returned as it is. *)
Lemma clamp_integer (lo hi z : Z) :
  lo <= z <= hi ->
  clamp (inject_Z lo) (inject_Z hi) (Num (inject_Z z)) = Num (inject_Z z).
Proof.
  intros [H1 H2]. unfold clamp, Math_max, Math_min. cbn [JS_le].
  destruct (Qle_bool (inject_Z hi) (inject_Z z)) eqn:E1.
  - apply Qle_bool_iff in E1. rewrite <- Zle_Qle in E1.
    assert (z = hi) as -> by lia.
    assert (Qle_bool (inject_Z lo) (inject_Z hi) = true) as ->; [|done].
    apply Qle_bool_iff. rewrite <- Zle_Qle. lia.
  - assert (Qle_bool (inject_Z lo) (inject_Z z) = true) as ->; [|done].
    apply Qle_bool_iff. by rewrite <- Zle_Qle.
Qed.

Lemma clamp_inside lo hi q : (lo <= q <= hi)%Q -> exists q', clamp lo hi (Num q) = Num q' /\ (q' == q)%Q.
Proof.
  intros [H1 H2]. unfold clamp, Math_max, Math_min. cbn.
  destruct (Qle_bool hi q) eqn:E1; cbn.
  - apply Qle_bool_iff in E1.
    assert (Qle_bool lo hi = true) as -> by (apply Qle_bool_iff; lra).
    exists hi. split; [done|]. lra.
  - assert (Qle_bool lo q = true) as -> by by apply Qle_bool_iff.
    by exists q.
Qed.

Lemma truthy_Some s : truthy (Some s) = true <-> s <> "".
Proof. unfold truthy. destruct (String.eqb_spec s ""); naive_solver. Qed.

(** ** Rule-based risk score *)

Section RiskScoreFacts.
Import RiskScore.

Lemma getHousingPoints_nonneg s : 0 <= getHousingPoints s.
Proof. unfold getHousingPoints. repeat case_match; lia. Qed.

Lemma getDistancePoints_pos d : 0 < getDistancePoints d.
Proof. unfold getDistancePoints. repeat case_match; lia. Qed.

Lemma getPhonePoints_nonneg p : 0 <= getPhonePoints p.
Proof. unfold getPhonePoints. case_match; lia. Qed.

Lemma getNoShowCount_nonneg h c p : 0 <= getNoShowCount h c p.
Proof. unfold getNoShowCount. lia. Qed.

Lemma addFactor_total name pts acc :
  0 <= pts -> (addFactor name pts acc).2 = acc.2 + pts.
Proof.
  intros Hp. unfold addFactor. destruct (0 <? pts) eqn:E; simpl; [done|].
  apply Z.ltb_ge in E. lia.
Qed.

Lemma score_is_capped_sum history cutoff p :
  score (calculateRiskScore history cutoff p) =
  Z.min (getHousingPoints (housingStatus p)
         + getDistancePoints (distanceFromClinic p)
         + getPhonePoints (phoneNumber p)
         + getNoShowPoints (getNoShowCount history cutoff (patientId p))) 100.
Proof.
  unfold calculateRiskScore. cbn [score].
  rewrite !addFactor_total; cbn [snd].
  - f_equal.
  - apply getHousingPoints_nonneg.
  - pose proof (getDistancePoints_pos (distanceFromClinic p)). lia.
  - apply getPhonePoints_nonneg.
  - unfold getNoShowPoints.
    pose proof (getNoShowCount_nonneg history cutoff (patientId p)). lia.
Qed.

Lemma getRiskCategory_spec s :
  (getRiskCategory s = LOW <-> s <= 30) /\
  (getRiskCategory s = MEDIUM <-> 31 <= s <= 60) /\
  (getRiskCategory s = HIGH <-> 61 <= s).
Proof.
  unfold getRiskCategory.
  destruct (s <=? 30) eqn:E1; [apply Z.leb_le in E1 | apply Z.leb_gt in E1];
  [| destruct (s <=? 60) eqn:E2; [apply Z.leb_le in E2 | apply Z.leb_gt in E2]];
  repeat split; intros; try discriminate; try lia; reflexivity.
Qed.

(** The count grows by one with each row of the patient at or after the
    cut-off and with no other row. *)
Lemma getNoShowCount_cons history cutoff pid h :
  getNoShowCount (h :: history) cutoff pid
  = getNoShowCount history cutoff pid
    + (if decide (nsPatientId h = pid /\ cutoff <= occurredAt h) then 1 else 0).
Proof.
  unfold getNoShowCount. rewrite filter_cons.
  destruct (decide _); cbn [length]; lia.
Qed.

(** C1. The score is the sum, capped at 100, of four independent
    contributions: housing (HOUSED 0, UNSTABLY_HOUSED 25, HOMELESS 40),
    distance (unknown 20, above 5 gives 30, 2 to 5 gives 20, below 2
    gives 10), contact channel (25 when absent, 0 when present) and 15
    per no-show in the window, that factor capped at 60. The number of
    no-shows is the number of history rows that carry the patient's id
    and are dated at or after the cut-off (the clock moved back six
    months): an empty history counts 0, such a row adds one, a row of
    another patient or dated before the cut-off adds nothing. The
    category is LOW iff the score is at most 30, MEDIUM iff 31..60,
    HIGH iff at least 61. A homeless patient more than 5 away, without
    a phone and with at least 4 no-shows scores exactly 100 and is
    HIGH. *)
Theorem risk_score_is_capped_sum_of_factors history cutoff p :
  let r := calculateRiskScore history cutoff p in
  let count := fun rows => getNoShowCount rows cutoff (patientId p) in
  let n := count history in
  exists h d c s : Z,
    score r = Z.min (h + d + c + s) 100 /\
    (housingStatus p = HOUSED -> h = 0) /\
    (housingStatus p = UNSTABLY_HOUSED -> h = 25) /\
    (housingStatus p = HOMELESS -> h = 40) /\
    (distanceFromClinic p = None -> d = 20) /\
    (forall x, distanceFromClinic p = Some x ->
       ((5 < x)%Q -> d = 30) /\ ((2 <= x <= 5)%Q -> d = 20) /\
       ((x < 2)%Q -> d = 10)) /\
    (phoneNumber p = None -> c = 25) /\
    (forall ph, phoneNumber p = Some ph -> ph <> "" -> c = 0) /\
    s = Z.min (15 * n) 60 /\
    count [] = 0 /\
    (forall row rows,
       nsPatientId row = patientId p -> cutoff <= occurredAt row ->
       count (row :: rows) = count rows + 1) /\
    (forall row rows,
       nsPatientId row <> patientId p \/ occurredAt row < cutoff ->
       count (row :: rows) = count rows) /\
    (category r = LOW <-> score r <= 30) /\
    (category r = MEDIUM <-> 31 <= score r <= 60) /\
    (category r = HIGH <-> 61 <= score r) /\
    (housingStatus p = HOMELESS ->
     (exists x, distanceFromClinic p = Some x /\ (5 < x)%Q) ->
     phoneNumber p = None -> 4 <= n ->
     score r = 100 /\ category r = HIGH).
Proof.
  intros r count n.
  exists (getHousingPoints (housingStatus p)),
         (getDistancePoints (distanceFromClinic p)),
         (getPhonePoints (phoneNumber p)),
         (getNoShowPoints n).
  assert (Hscore := score_is_capped_sum history cutoff p).
  fold (count history) in Hscore. fold r n in Hscore.
  assert (Hcat : category r = getRiskCategory (score r)) by reflexivity.
  destruct (getRiskCategory_spec (score r)) as (HL & HM & HH).
  assert (Hdist : forall x, distanceFromClinic p = Some x ->
       ((5 < x)%Q -> getDistancePoints (distanceFromClinic p) = 30) /\
       ((2 <= x <= 5)%Q -> getDistancePoints (distanceFromClinic p) = 20) /\
       ((x < 2)%Q -> getDistancePoints (distanceFromClinic p) = 10)).
  { intros x ->. unfold getDistancePoints.
    destruct (Qle_bool x 5) eqn:E5;
      [apply Qle_bool_iff in E5 | apply Qle_bool_false in E5];
      (destruct (Qle_bool 2 x) eqn:E2;
        [apply Qle_bool_iff in E2 | apply Qle_bool_false in E2]);
      cbn; repeat split; intros; try reflexivity; exfalso; lra. }
  split; [exact Hscore|].
  split; [intros ->; reflexivity|].
  split; [intros ->; reflexivity|].
  split; [intros ->; reflexivity|].
  split; [intros ->; reflexivity|].
  split; [exact Hdist|].
  split; [intros ->; reflexivity|].
  split.
  { intros ph -> Hne. unfold getPhonePoints.
    apply truthy_Some in Hne. rewrite Hne. reflexivity. }
  split; [unfold getNoShowPoints; f_equal; lia|].
  split; [reflexivity|].
  split.
  { intros row rows Hid Hat. unfold count.
    rewrite getNoShowCount_cons, decide_True by done. reflexivity. }
  split.
  { intros row rows Hout. unfold count.
    rewrite getNoShowCount_cons, decide_False
      by (intros [? ?]; destruct Hout; [congruence | lia]).
    lia. }
  rewrite Hcat.
  split; [exact HL|]. split; [exact HM|]. split; [exact HH|].
  intros Hh (x & Hx & H5) Hph Hn.
  assert (score r = 100) as Hs.
  { destruct (Hdist x Hx) as (Hd & _).
    rewrite Hscore, Hh, Hph, (Hd H5). unfold getNoShowPoints. cbn. lia. }
  split; [exact Hs|]. apply HH. lia.
Qed.

(** Two evaluations. Maria (homeless, 4.2 away, with a phone) has in
    the table two no-shows of her own inside the window, one of her
    own before the cut-off and the four of James: two rows count,
    the score is 40 + 20 + 0 + 30 = 90. James, in the worst case with
    his four no-shows in the window, sums to 155 and is capped at
    100. *)
Lemma risk_score_is_capped_sum_of_factors_witness :
  let cutoff := Fixtures.halfYear Fixtures.t0 in
  let r := calculateRiskScore Fixtures.mixedHistory cutoff Fixtures.maria in
  let r' := calculateRiskScore Fixtures.mixedHistory cutoff Fixtures.james in
  getNoShowCount Fixtures.mixedHistory cutoff "p1" = 2 /\
  score r = 90 /\ category r = HIGH /\
  getNoShowCount Fixtures.mixedHistory cutoff "p2" = 4 /\
  score r' = 100 /\ category r' = HIGH.
Proof.
  intros cutoff r r'.
  destruct (risk_score_is_capped_sum_of_factors Fixtures.mixedHistory
              cutoff Fixtures.maria)
    as (h & d & c & s & Hsum & _ & _ & Hh & _ & Hd & _ & Hc & Hs & H0 & Hin
        & Hout & _ & _ & Hhigh & _).
  destruct (risk_score_is_capped_sum_of_factors Fixtures.mixedHistory
              cutoff Fixtures.james)
    as (h' & d' & c' & s' & _ & _ & _ & _ & _ & _ & _ & _ & _ & H0' & Hin'
        & Hout' & _ & _ & _ & Hworst).
  cbn zeta in *. fold r in Hsum, Hhigh. fold r' in Hworst.
  assert (Hn : getNoShowCount Fixtures.mixedHistory cutoff "p1" = 2).
  { unfold Fixtures.mixedHistory, Fixtures.fourNoShows. cbn [map app].
    change (patientId Fixtures.maria) with "p1" in *.
    rewrite Hin by (first [reflexivity | unfold cutoff; vm_compute; discriminate]).
    rewrite Hout by (right; unfold cutoff; vm_compute; reflexivity).
    rewrite Hin by (first [reflexivity | unfold cutoff; vm_compute; discriminate]).
    rewrite !Hout by (left; cbn; discriminate).
    rewrite H0. reflexivity. }
  assert (Hn' : getNoShowCount Fixtures.mixedHistory cutoff "p2" = 4).
  { unfold Fixtures.mixedHistory, Fixtures.fourNoShows. cbn [map app].
    change (patientId Fixtures.james) with "p2" in *.
    rewrite !Hout' by (left; cbn; discriminate).
    rewrite !Hin' by (first [reflexivity | unfold cutoff; vm_compute; discriminate]).
    rewrite H0'. reflexivity. }
  assert (Hr : score r = 90).
  { rewrite Hsum, (Hh eq_refl), (Hc _ eq_refl) by discriminate.
    destruct (Hd _ eq_refl) as (_ & Hd20 & _).
    rewrite Hd20 by (split; vm_compute; discriminate).
    rewrite Hs.
    change (patientId Fixtures.maria) with "p1". rewrite Hn. reflexivity. }
  split; [exact Hn|]. split; [exact Hr|].
  split; [apply Hhigh; rewrite Hr; lia|].
  split; [exact Hn'|].
  apply Hworst.
  - reflexivity.
  - exists (150 # 1)%Q. split; [reflexivity | reflexivity].
  - reflexivity.
  - change (patientId Fixtures.james) with "p2". rewrite Hn'. lia.
Defined.

End RiskScoreFacts.

(** ** Confidence-weighted blending *)

Section Blend.
Import RiskScore AIRiskScore.

Lemma final_category_thresholds (f : JSNumber) :
  let c := if JS_le f 30 then LOW else if JS_le f 60 then MEDIUM else HIGH in
  (c = LOW <-> (f <= 30)%JS) /\
  (c = MEDIUM <-> (30 < f <= 60)%JS) /\
  (c = HIGH <-> (60 < f)%JS \/ f = NaN).
Proof.
  cbv zeta. unfold JSle, JSlt.
  destruct f as [q| | |]; cbn.
  - change (inject_Z 30) with 30%Q. change (inject_Z 60) with 60%Q.
    destruct (Qle_bool q 30) eqn:E1; destruct (Qle_bool q 60) eqn:E2; cbn.
    + split_and!; split; try done; try (intros [? ?]; done); intros [?|?]; done.
    + exfalso. apply Qle_bool_iff in E1. apply Qle_bool_false in E2. lra.
    + split_and!; split; try done; intros [?|?]; done.
    + split_and!; split; try done; try (intros [? ?]; done). by left.
  - split_and!; split; try done; try (intros [? ?]; done). by left.
  - split_and!; split; try done; try (intros [? ?]; done); intros [?|?]; done.
  - split_and!; split; try done; try (intros [? ?]; done). by right.
Qed.

(** On an integer score the blended category is the base engine's. *)
Lemma final_category_integer (z : Z) :
  (if JS_le (Num (inject_Z z)) 30 then LOW
   else if JS_le (Num (inject_Z z)) 60 then MEDIUM else HIGH) = getRiskCategory z.
Proof.
  unfold getRiskCategory. cbn [JS_le].
  assert (H : forall k, Qle_bool (inject_Z z) (inject_Z k) = (z <=? k)).
  { intros k. destruct (z <=? k) eqn:E.
    - apply Qle_bool_iff. rewrite <- Zle_Qle. lia.
    - apply Qle_bool_false. rewrite <- Zlt_Qlt. lia. }
  rewrite !H. reflexivity.
Qed.

Lemma Math_round_half_up n : Math_round (inject_Z n / 2) = (n + 1) / 2.
Proof.
  unfold Math_round.
  assert (inject_Z n / 2 + (1 # 2) == (n + 1) # 2)%Q as E.
  { rewrite (Qmake_Qdiv (n + 1) 2), inject_Z_plus.
    change (inject_Z (Z.pos 2)) with 2%Q. change (inject_Z 1) with 1%Q.
    field. }
  rewrite (Qfloor_comp _ _ E). reflexivity.
Qed.

(** C2, amended. With confidence at least 80 the final score is the
    adjusted score; from 50 up to (not including) 80 it is
    [Math.round] of the mean of base and adjusted score as computed in
    double arithmetic; below 50, or when the confidence is NaN, it is
    the base score. When the adjusted score is a whole number the
    rounded mean is exactly the nearest integer of the mean, halves
    up; for any adjusted score in 0..100 it is an integer within
    1/2 + 2^-45 of the mean. The category is recomputed from the final
    score, which may be fractional: LOW up to 30, MEDIUM above 30 and
    up to 60, HIGH above 60 (and for NaN); on a whole number that is
    the category of the base engine. With base 50 and adjusted 70:
    confidence 85 gives 70, 60 gives 60, 30 gives 50. *)
Theorem combineScores_blends_by_confidence base ai :
  let r := combineScores base ai in
  let b := score base in
  ((80 <= confidence ai)%JS -> finalScore r = adjustedScore ai) /\
  ((50 <= confidence ai < 80)%JS ->
     finalScore r = JS_round (JS_div (JS_add b (adjustedScore ai)) 2) /\
     (forall z : Z, adjustedScore ai = Num (inject_Z z) ->
        0 <= b + z < 2 ^ 53 ->
        finalScore r = Num (inject_Z ((b + z + 1) / 2))) /\
     (forall q : Q, adjustedScore ai = Num q ->
        0 <= b <= 100 -> (0 <= q <= 100)%Q ->
        exists n : Z, finalScore r = Num (inject_Z n) /\
          (Qabs (inject_Z n - (inject_Z b + q) / 2)
           <= (1 # 2) + 2 ^ (-45))%Q)) /\
  ((confidence ai < 50)%JS \/ confidence ai = NaN ->
     finalScore r = Num (inject_Z b)) /\
  (finalCategory r = LOW <-> (finalScore r <= 30)%JS) /\
  (finalCategory r = MEDIUM <-> (30 < finalScore r <= 60)%JS) /\
  (finalCategory r = HIGH <-> (60 < finalScore r)%JS \/ finalScore r = NaN) /\
  (forall z, finalScore r = Num (inject_Z z) ->
     finalCategory r = getRiskCategory z) /\
  (score base = 50 -> adjustedScore ai = 70%Q ->
     (confidence ai = 85%Q -> finalScore r = 70%Q) /\
     (confidence ai = 60%Q -> finalScore r = 60%Q) /\
     (confidence ai = 30%Q -> finalScore r = 50%Q)).
Proof.
  intros r b.
  assert (Hcat : finalCategory r =
                 if JS_le (finalScore r) 30 then LOW
                 else if JS_le (finalScore r) 60 then MEDIUM else HIGH)
    by reflexivity.
  assert (Hfin : finalScore r =
     if JS_le 80 (confidence ai) then adjustedScore ai
     else if JS_le 50 (confidence ai) then
       JS_round (JS_div (JS_add b (adjustedScore ai)) 2)
     else Num (inject_Z b)) by reflexivity.
  destruct (final_category_thresholds (finalScore r)) as (HL & HM & HH).
  cbv zeta in HL, HM, HH. rewrite <- Hcat in HL, HM, HH.
  split.
  { intros H. rewrite Hfin. unfold JSle in H. by rewrite H. }
  split.
  { intros [H1 H2].
    assert (Hmid : finalScore r
                   = JS_round (JS_div (JS_add b (adjustedScore ai)) 2)).
    { rewrite Hfin. unfold JSle, JSlt in H1, H2. rewrite H1.
      destruct (confidence ai) as [c| | |]; try done. cbn in *.
      apply negb_true_iff in H2. rewrite H2. reflexivity. }
    split; [exact Hmid|]. split.
    - intros z Hz Hrange. rewrite Hmid, Hz.
      destruct (halved_sum_exact b z Hrange) as (m & -> & Hm).
      cbn [JS_round]. do 2 f_equal.
      unfold Math_round. rewrite <- Math_round_half_up. unfold Math_round.
      apply Qfloor_comp. by rewrite Hm.
    - intros q Hq Hb Hq01. rewrite Hmid, Hq.
      destruct (halved_sum_near (inject_Z b) q) as (m & -> & Hm).
      { change 0%Q with (inject_Z 0). change 128%Q with (inject_Z 128).
        rewrite <- Zle_Qle, <- Zlt_Qlt. lia. }
      { lra. }
      cbn [JS_round]. eexists. split; [reflexivity|].
      pose proof (Math_round_nearest m) as [Hn1 Hn2].
      apply Qabs_Qle_condition in Hm as [Hm1 Hm2].
      apply Qabs_Qle_condition.
      set (N := inject_Z (Math_round m)) in *.
      set (E := (2 ^ (-45))%Q) in *. set (B := inject_Z b) in *.
      clearbody N E B. split; qlra. }
  split.
  { intros H. rewrite Hfin.
    assert (JS_le 80 (confidence ai) = false /\ JS_le 50 (confidence ai) = false)
      as [-> ->]; [|reflexivity].
    clear Hcat Hfin HL HM HH.
    destruct H as [H| ->]; [|done]. unfold JSlt in H.
    destruct (confidence ai) as [c| | |]; try done. cbn in H |- *.
    change (inject_Z 50) with 50%Q in *. change (inject_Z 80) with 80%Q.
    apply negb_true_iff, Qle_bool_false in H.
    split; apply Qle_bool_false; lra. }
  split; [exact HL|]. split; [exact HM|]. split; [exact HH|].
  split.
  { intros z Hz. rewrite Hcat, Hz. apply final_category_integer. }
  intros Hb Ha. rewrite Hfin. subst b. rewrite Hb, Ha.
  repeat split; intros ->; vm_compute; reflexivity.
Qed.

(** C2, as stated, fails in two ways. With base score 60 and confidence
    79, the adjusted score 61 - 2^-47 (a double) has the mean
    60.5 - 2^-48 with base, whose nearest integer is 60 (MEDIUM); the
    sum 121 - 2^-47 is not a double and is rounded to 121 before it is
    halved, so the final score is 61 and the category HIGH. With
    confidence 85 and the adjusted score 60.5, the final score is 60.5
    and the category is HIGH, although 60.5 is below 61. *)
Lemma blended_score_is_not_always_the_rounded_mean :
  let base := {| score := 60; category := MEDIUM; factors := [] |} in
  let q := ((61 * 2 ^ 47 - 1) # 2 ^ 47)%Q in
  let payload := fun (adjusted conf : Q) =>
    {| adjustedScore := adjusted; adjustment := 0%Q; confidence := conf;
       reasoning := ""; recommendations := []; optimalContactTime := "";
       riskFactors := [] |} in
  let r := combineScores base (payload q 79%Q) in
  let r' := combineScores base (payload (121 # 2)%Q 85%Q) in
  (exists q', roundDouble q = Num q' /\ (q' == q)%Q) /\
  (50 <= confidence (payload q 79%Q) < 80)%JS /\
  finalScore r = 61%Q /\ finalCategory r = HIGH /\
  Math_round ((inject_Z (score base) + q) / 2) = 60 /\
  getRiskCategory 60 = MEDIUM /\
  (80 <= confidence (payload (121 # 2)%Q 85%Q))%JS /\
  finalScore r' = (121 # 2)%Q /\ finalCategory r' = HIGH /\
  ((121 # 2) < 61)%Q.
Proof.
  cbn zeta. split_and!; try (vm_compute; reflexivity).
  eexists. split; [vm_compute; reflexivity|]. vm_compute. reflexivity.
Qed.

End Blend.

(** ** The validated adjustment payload *)

Section Payload.
Import RiskScore Store AIRiskScore Props.










(** A field that is not a number escapes the clamp: an adjusted score
    given as a text that is no numeric literal (ToNumber: NaN) is
    returned as NaN, which is inside no bounds. *)
Lemma non_numeric_field_is_returned_as_NaN :
  let base := {| score := 50; category := MEDIUM; factors := [] |} in
  let raw := {| rawAdjustedScore := Some (JSTruthy NaN);
                rawAdjustment := None; rawConfidence := None;
                rawReasoning := None; rawRecommendations := None;
                rawOptimalContactTime := None; rawRiskFactors := None |} in
  exists a, getAIAssessment (TextContent (Some raw)) base = inr a /\
    adjustedScore a = NaN /\ ~ (0 <= adjustedScore a <= 100)%JS /\
    ~ payloadInBounds a.
Proof.
  eexists. split; [reflexivity|]. cbn.
  split; [reflexivity|]. split; [by intros [? ?]|].
  by intros [[? ?] _].
Qed.

Section Layer.
Variable claude : DB -> Patient -> string -> RiskScoreResult -> ClaudeReply.
Variable sixMonthsBefore : Z -> Z.
Variable cfg : Config.

End Layer.



End Payload.

(** ** Intent resolution *)

Section Intent.
Import ClaudeService.

Lemma rules_yes :
  ruleBasedParsing "yes" = response CONFIRM_RIDE (95 # 100) None None "yes".
Proof. vm_compute. reflexivity. Qed.

Lemma rules_no_my_friend :
  ruleBasedParsing "no my friend is taking me" =
  response UNKNOWN (30 # 100) None None "no my friend is taking me".
Proof. vm_compute. reflexivity. Qed.

Lemma rules_my_friend :
  ruleBasedParsing "my friend is taking me" =
  response DECLINE_RIDE (95 # 100) None None "my friend is taking me".
Proof. vm_compute. reflexivity. Qed.

(** A message that normalises to one of the confirmation phrases is a
    confirmation, whatever its case, outer spaces and punctuation. *)
Lemma confirmation_phrases_confirm message phrase :
  In phrase ["yes"; "yeah"; "yep"; "yup"; "ok"; "okay"; "sure"; "sounds good";
             "please"; "yes please"; "y"; "i need a ride"; "i want a ride";
             "book it"; "lets do it"; "definitely"; "absolutely"] ->
  Regex.collapseSpaces (Regex.stripPunctuation
    (Regex.trim (Regex.toLowerCase message))) = phrase ->
  ruleBasedParsing message = response CONFIRM_RIDE (95 # 100) None None message.
Proof.
  intros Hin Hclean. unfold ruleBasedParsing. rewrite Hclean.
  cbn in Hin.
  repeat (destruct Hin as [<- | Hin]; [vm_compute; reflexivity|]).
  destruct Hin.
Qed.

Lemma short_circuit isTestMode classify message context :
  (9 # 10 <= confidence (ruleBasedParsing message))%Q ->
  parsePatientResponse isTestMode classify message context =
  (ruleBasedParsing message, []).
Proof.
  intros H. unfold parsePatientResponse.
  apply Qle_bool_iff in H. rewrite H. reflexivity.
Qed.

(** C4, as stated, fails on its second input: without an inference
    provider the resolver answers UNKNOWN with confidence 0.3 to
    "no my friend is taking me". *)
Lemma no_my_friend_unknown_without_provider :
  let r := (parsePatientResponse true Fixtures.noIntentProvider
              "no my friend is taking me" None).1 in
  intent r = UNKNOWN /\ confidence r = 30 # 100 /\
  ~ (intent r = DECLINE_RIDE /\ (9 # 10 <= confidence r)%Q).
Proof.
  cbv zeta. unfold parsePatientResponse. rewrite rules_no_my_friend. cbn.
  split; [reflexivity|]. split; [reflexivity|].
  intros [H _]. discriminate H.
Qed.

(** C4, amended. "yes" resolves to CONFIRM_RIDE with confidence 0.95 and
    no call to the provider, and so does every message whose rule-based
    confidence is at least 0.9. "no my friend is taking me" is not
    decided by the rules (UNKNOWN, 0.3): in test mode that is the
    answer, otherwise the provider is asked exactly once and its intent
    and confidence are returned (the rule-based answer if the call
    fails). "my friend is taking me" is declined by the rules with
    confidence 0.95. *)
Theorem intent_resolution_tiers :
  let msg := "no my friend is taking me" in
  (forall isTestMode classify context,
     parsePatientResponse isTestMode classify "yes" context =
     (response CONFIRM_RIDE (95 # 100) None None "yes", [])) /\
  (forall isTestMode classify message context,
     (9 # 10 <= confidence (ruleBasedParsing message))%Q ->
     parsePatientResponse isTestMode classify message context =
     (ruleBasedParsing message, [])) /\
  ruleBasedParsing msg = response UNKNOWN (30 # 100) None None msg /\
  (forall classify context,
     parsePatientResponse true classify msg context =
     (response UNKNOWN (30 # 100) None None msg, [])) /\
  (forall classify context,
     (parsePatientResponse false classify msg context).2 = [msg] /\
     (forall j, classify msg context = IntentText (Some j) ->
        intent (parsePatientResponse false classify msg context).1 = jsonIntent j /\
        confidence (parsePatientResponse false classify msg context).1
          = jsonConfidence j) /\
     (classify msg context = IntentApiThrows ->
        (parsePatientResponse false classify msg context).1
        = response UNKNOWN (30 # 100) None None msg)) /\
  (forall isTestMode classify context,
     parsePatientResponse isTestMode classify "my friend is taking me" context =
     (response DECLINE_RIDE (95 # 100) None None "my friend is taking me", [])).
Proof.
  cbv zeta.
  split.
  { intros. rewrite short_circuit; rewrite rules_yes; [reflexivity|].
    cbn. unfold Qle; cbn; lia. }
  split; [intros; by apply short_circuit|].
  split; [exact rules_no_my_friend|].
  split.
  { intros. unfold parsePatientResponse. rewrite rules_no_my_friend. reflexivity. }
  split.
  { intros classify context. unfold parsePatientResponse, parseWithClaude.
    rewrite rules_no_my_friend. cbn.
    destruct (classify _ context) as [| |[j|]]; cbn.
    all: repeat split; intros; try discriminate; try reflexivity.
    all: match goal with
         | H : IntentText _ = IntentText _ |- _ => injection H as <-
         end; reflexivity. }
  intros. rewrite short_circuit; rewrite rules_my_friend; [reflexivity|].
  cbn. unfold Qle; cbn; lia.
Qed.

End Intent.

(** ** Frame properties shared by the sweeps and the routes *)

Lemma lookupStatus_In m k v : Scheduler.lookupStatus m k = Some v -> In (k, v) m.
Proof.
  induction m as [|[k' v'] m IH]; cbn; [discriminate|].
  destruct (String.eqb_spec k k') as [-> | Hne].
  - intros H; injection H as ->. by left.
  - intros H. right. by apply IH.
Qed.

Lemma orEmpty_or_else s : TwilioService.orEmpty (or_else (Some s) None) = s.
Proof.
  unfold or_else, truthy. destruct (String.eqb_spec s ""); subst; reflexivity.
Qed.

Section Frames.
Import Store TwilioService.
Variable isTestMode : bool.
Variable transport : Z -> string -> string -> string + string.
Variable showTime : Z -> string.

(** Sending a message touches the message log only. *)
Lemma sendSMS_frame now to body aid d :
  let d' := (sendSMS isTestMode transport showTime now to body aid d).2 in
  rides d' = rides d /\ appointments d' = appointments d /\
  patients d' = patients d /\ clinics d' = clinics d /\
  aiRiskCache d' = aiRiskCache d /\ noShowHistory d' = noShowHistory d.
Proof.
  unfold sendSMS. cbn.
  destruct isTestMode; [done|]. destruct (transport now to body); done.
Qed.
End Frames.

(** ** Ride cancellation *)

Section Cancel.
Import Store UberHealth Scheduler Routes Props.

Lemma cancelRide_refused mock u :
  providerRefuses mock u ->
  (cancelRide u mock).1.1 = false /\ (cancelRide u mock).2 = mock.
Proof.
  unfold providerRefuses, cancelRide. destruct (mock !! u) as [r|]; [|done].
  intros [-> | ->]; done.
Qed.

Lemma cancelRide_accepted mock u r :
  mock !! u = Some r -> status r <> "completed" -> status r <> "in_progress" ->
  cancelRide u mock = ((true, "Ride cancelled successfully"),
                       <[u := withStatus "cancelled" r]> mock).
Proof.
  intros E H1 H2. unfold cancelRide. rewrite E.
  destruct (String.eqb_spec (status r) "completed"); [done|].
  destruct (String.eqb_spec (status r) "in_progress"); [done|]. reflexivity.
Qed.

(** C5, as stated, fails in both directions, because the route never
    reads the status of the ride record: a SCHEDULED ride whose provider
    id the provider does not know (the rides the demo mode books) is not
    cancelled, and a COMPLETED ride that carries no provider id is. *)
Lemma cancel_ignores_ride_record_status :
  cancel "r1" Fixtures.demoRideWorld =
    (respond 400 false (Some "CANCEL_FAILED"), Fixtures.demoRideWorld) /\
  (cancel "r1" Fixtures.completedRideWorld).1 = respond 200 true None /\
  rdStatus <$> rides (db (cancel "r1" Fixtures.completedRideWorld).2) !! "r1"
    = Some CANCELLED /\
  events (cancel "r1" Fixtures.completedRideWorld).2
    = [RIDE_STATUS_UPDATE "r1" None COMPLETED CANCELLED].
Proof. vm_compute. repeat split; reflexivity. Qed.

(** C5, amended. The guard of the cancel operation is the provider's
    record of the ride, not the status of the ride record. When the
    ride carries a provider id and the provider does not know the ride
    or has it completed or in progress, the route answers with the
    error CANCEL_FAILED and changes nothing. In every other case (any
    other provider status, or no provider id) the ride record becomes
    CANCELLED, the provider's record becomes cancelled and exactly one
    RIDE_STATUS_UPDATE notification is emitted. When the ride record
    mirrors the provider's status this is the claim: COMPLETED and
    IN_PROGRESS rides are refused and left unchanged, SCHEDULED and
    DRIVER_ASSIGNED rides are cancelled with a notification. *)
Theorem cancel_guarded_by_provider id ride w :
  rides (db w) !! id = Some ride ->
  (forall u, uberRideId ride = Some u -> u <> "" ->
     providerRefuses (mockRides w) u ->
     cancel id w = (respond 400 false (Some "CANCEL_FAILED"), w)) /\
  (forall u r, uberRideId ride = Some u -> u <> "" -> mockRides w !! u = Some r ->
     status r <> "completed" -> status r <> "in_progress" ->
     cancel id w =
       (respond 200 true None,
        cancelledWorld id ride
          (withMock (insert u (withStatus "cancelled" r)) w))) /\
  (uberRideId ride = None \/ uberRideId ride = Some "" ->
     cancel id w = (respond 200 true None, cancelledWorld id ride w)) /\
  ((cancel id w).1 = respond 200 true None ->
     rides (db (cancel id w).2) !! id = Some (setRideStatus CANCELLED ride) /\
     events (cancel id w).2 =
       events w ++ [RIDE_STATUS_UPDATE id None (rdStatus ride) CANCELLED]) /\
  (forall u r, uberRideId ride = Some u -> u <> "" -> mockRides w !! u = Some r ->
     lookupStatus statusMap (status r) = Some (rdStatus ride) ->
     (rdStatus ride = COMPLETED \/ rdStatus ride = IN_PROGRESS ->
        cancel id w = (respond 400 false (Some "CANCEL_FAILED"), w)) /\
     (rdStatus ride = SCHEDULED \/ rdStatus ride = DRIVER_ASSIGNED ->
        (cancel id w).1 = respond 200 true None /\
        rides (db (cancel id w).2) !! id = Some (setRideStatus CANCELLED ride) /\
        events (cancel id w).2 =
          events w ++ [RIDE_STATUS_UPDATE id None (rdStatus ride) CANCELLED])).
Proof.
  intros Hride.
  assert (Hrefuse : forall u, uberRideId ride = Some u -> u <> "" ->
     providerRefuses (mockRides w) u ->
     cancel id w = (respond 400 false (Some "CANCEL_FAILED"), w)).
  { intros u Hu Hne Href. unfold cancel. rewrite Hride, Hu.
    unfold or_else. apply truthy_Some in Hne. rewrite Hne.
    destruct (cancelRide_refused _ _ Href) as [H1 H2].
    destruct (cancelRide u (mockRides w)) as [[b m] mock'] eqn:E. cbn in *. subst.
    cbn. destruct w; reflexivity. }
  assert (Haccept : forall u r, uberRideId ride = Some u -> u <> "" ->
     mockRides w !! u = Some r ->
     status r <> "completed" -> status r <> "in_progress" ->
     cancel id w =
       (respond 200 true None,
        cancelledWorld id ride
          (withMock (insert u (withStatus "cancelled" r)) w))).
  { intros u r Hu Hne Hr H1 H2. unfold cancel. rewrite Hride, Hu.
    unfold or_else. apply truthy_Some in Hne. rewrite Hne.
    rewrite (cancelRide_accepted _ _ _ Hr H1 H2). reflexivity. }
  assert (Hnone : uberRideId ride = None \/ uberRideId ride = Some "" ->
     cancel id w = (respond 200 true None, cancelledWorld id ride w)).
  { intros [Hu | Hu]; unfold cancel; rewrite Hride, Hu; reflexivity. }
  assert (Hcancelled : forall w0, rides (db w0) = rides (db w) ->
     events w0 = events w ->
     rides (db (cancelledWorld id ride w0)) !! id
       = Some (setRideStatus CANCELLED ride) /\
     events (cancelledWorld id ride w0) =
       events w ++ [RIDE_STATUS_UPDATE id None (rdStatus ride) CANCELLED]).
  { intros w0 Hr He. unfold cancelledWorld. cbn. rewrite Hr, He.
    rewrite lookup_alter_eq, Hride. done. }
  split; [exact Hrefuse|]. split; [exact Haccept|]. split; [exact Hnone|].
  split.
  { intros Hok.
    destruct (uberRideId ride) as [u|] eqn:Hu;
      [| rewrite Hnone by auto; by apply Hcancelled].
    destruct (String.eqb_spec u "") as [-> | Hne];
      [rewrite Hnone by auto; by apply Hcancelled|].
    destruct (mockRides w !! u) as [r|] eqn:Hr.
    2:{ rewrite (Hrefuse u) in Hok; [discriminate | done | done |].
        unfold providerRefuses. by rewrite Hr. }
    destruct (String.eqb_spec (status r) "completed") as [H1|H1].
    { rewrite (Hrefuse u) in Hok; [discriminate | done | done |].
      unfold providerRefuses. rewrite Hr. by left. }
    destruct (String.eqb_spec (status r) "in_progress") as [H2|H2].
    { rewrite (Hrefuse u) in Hok; [discriminate | done | done |].
      unfold providerRefuses. rewrite Hr. by right. }
    rewrite (Haccept u r) by done. cbn [snd]. by apply Hcancelled. }
  intros u r Hu Hne Hr Hmirror.
  apply lookupStatus_In in Hmirror. unfold statusMap in Hmirror.
  split.
  - intros Hst. apply (Hrefuse u); [done..|].
    unfold providerRefuses. rewrite Hr.
    cbn in Hmirror.
    destruct Hmirror as [H|[H|[H|[H|[H|[H|[H|[]]]]]]]]; injection H as Hs Hv;
      rewrite <- Hv in Hst; destruct Hst as [Hst|Hst]; try discriminate Hst;
      auto.
  - intros Hst.
    assert (status r <> "completed" /\ status r <> "in_progress") as [H1 H2].
    { cbn in Hmirror.
      destruct Hmirror as [H|[H|[H|[H|[H|[H|[H|[]]]]]]]]; injection H as Hs Hv;
        rewrite <- Hv in Hst; destruct Hst as [Hst|Hst]; try discriminate Hst;
        rewrite <- Hs; split; discriminate. }
    rewrite (Haccept u r) by done. cbn [fst snd].
    split; [reflexivity|]. by apply Hcancelled.
Qed.

(** A scheduled ride in step with the provider is cancelled. *)
Lemma cancel_guarded_by_provider_witness :
  rides (db Fixtures.syncedRideWorld) !! "r1"
    = Some (Fixtures.ride SCHEDULED (Some "UBER_1")) /\
  (cancel "r1" Fixtures.syncedRideWorld).1 = respond 200 true None.
Proof.
  assert (H : rides (db Fixtures.syncedRideWorld) !! "r1"
              = Some (Fixtures.ride SCHEDULED (Some "UBER_1")))
    by (vm_compute; reflexivity).
  split; [exact H|].
  destruct (cancel_guarded_by_provider "r1" _ Fixtures.syncedRideWorld H)
    as (_ & _ & _ & _ & Hm).
  assert (H1 : uberRideId (Fixtures.ride SCHEDULED (Some "UBER_1")) = Some "UBER_1")
    by reflexivity.
  assert (H2 : "UBER_1" <> "") by discriminate.
  assert (H3 : mockRides Fixtures.syncedRideWorld !! "UBER_1"
               = Some (Fixtures.uberRide "UBER_1" "scheduled"))
    by (vm_compute; reflexivity).
  assert (H4 : lookupStatus statusMap
                 (status (Fixtures.uberRide "UBER_1" "scheduled"))
               = Some (rdStatus (Fixtures.ride SCHEDULED (Some "UBER_1"))))
    by reflexivity.
  destruct (Hm _ _ H1 H2 H3 H4) as [_ Hok].
  apply Hok. left. reflexivity.
Defined.

End Cancel.

(** ** The status-sync sweep *)

Section Sync.
Import RiskScore Store TwilioService UberHealth Scheduler Props.
Variable isTestMode : bool.
Variable transport : Z -> string -> string -> string + string.
Variable showTime : Z -> string.

Local Abbreviation step := (updateRideStatus isTestMode transport showTime).
Local Abbreviation sweep := (updateRideStatuses isTestMode transport showTime).

Lemma step_quiet p now w id ride :
  quietRow p ride ->
  events (step p now w (id, ride)) = events w /\
  smsMessages (db (step p now w (id, ride))) = smsMessages (db w).
Proof.
  unfold quietRow, updateRideStatus.
  destruct (or_else (uberRideId ride) None) as [u|]; [|done].
  destruct (p u) as [us|]; [|done].
  intros ->. rewrite String.eqb_refl. done.
Qed.

Lemma step_rides p now w id ride :
  rides (db w) !! id = Some ride ->
  rides (db (step p now w (id, ride))) = <[id := rideAfter p ride]> (rides (db w)).
Proof.
  intros Hr. unfold updateRideStatus, rideAfter.
  destruct (or_else (uberRideId ride) None) as [u|]; [|by rewrite insert_id].
  destruct (p u) as [us|]; [|by rewrite insert_id].
  set (ns := newStatusFor us ride).
  assert (Halter : alter (syncedRide ride ns us) id (rides (db w))
                   = <[id := syncedRide ride ns us ride]> (rides (db w))).
  { apply map_eq; intros k. rewrite lookup_alter, lookup_insert.
    case_decide; subst; [by rewrite Hr | done]. }
  destruct (negb (String.eqb ns (rdStatus ride))); [|exact Halter].
  destruct (String.eqb (status us) "arrived"); [|exact Halter].
  lazymatch goal with
  | |- context [patientOfRide ?d ride] => destruct (patientOfRide d ride) as [pt|]
  end; [|exact Halter].
  destruct (contactPhone pt) as [ph|]; [|exact Halter].
  destruct (truthy (Some ph)); [|exact Halter].
  cbn [db withDB emit]. unfold sendDriverArriving.
  lazymatch goal with
  | |- context [sendSMS _ _ _ ?n ?t ?b ?a ?d] =>
      destruct (sendSMS_frame isTestMode transport showTime n t b a d) as (-> & _)
  end.
  exact Halter.
Qed.

(** After the loop every row is either the stepped image of a row of the
    snapshot or an untouched row outside it. *)
Lemma sweep_rides p now l : forall w,
  NoDup (l.*1) ->
  (forall id r, (id, r) ∈ l -> rides (db w) !! id = Some r) ->
  forall id r', rides (db (foldl (step p now) w l)) !! id = Some r' ->
    (exists r, (id, r) ∈ l /\ r' = rideAfter p r) \/
    ((id ∉ l.*1) /\ rides (db w) !! id = Some r').
Proof.
  induction l as [|[id0 r0] l IH]; intros w Hnd Hl id r' Hfin.
  { right. split; [apply not_elem_of_nil | exact Hfin]. }
  cbn in Hnd. apply NoDup_cons in Hnd as [Hid0 Hnd].
  assert (H0 : rides (db w) !! id0 = Some r0) by (apply Hl; left).
  pose proof (step_rides p now w id0 r0 H0) as Hstep.
  cbn [foldl] in Hfin.
  destruct (IH (step p now w (id0, r0)) Hnd) with (id := id) (r' := r')
    as [(r & Hin & ->) | [Hnot Hlook]]; [| exact Hfin | |].
  - intros id1 r1 Hin. rewrite Hstep, lookup_insert_ne.
    + apply Hl. by right.
    + intros <-. apply Hid0. apply list_elem_of_fmap. by exists (id0, r1).
  - left. exists r. split; [by right | done].
  - rewrite Hstep, lookup_insert in Hlook. case_decide as Heq.
    + subst. injection Hlook as <-. left. exists r0. split; [by left | done].
    + right. split; [|done]. cbn. rewrite not_elem_of_cons.
      split; [congruence | done].
Qed.

Lemma mapped_status_truthy s v :
  lookupStatus statusMap s = Some v -> truthy (Some v) = true.
Proof.
  intros H. apply lookupStatus_In in H. cbn in H.
  destruct H as [H|[H|[H|[H|[H|[H|[H|[]]]]]]]]; injection H as _ <-; reflexivity.
Qed.

(** Mapping the same provider status again gives the same status. *)
Lemma newStatusFor_fixed us1 us2 ride cur :
  status us2 = status us1 ->
  newStatusFor us2 (syncedRide ride (newStatusFor us1 ride) us1 cur)
  = newStatusFor us1 ride.
Proof.
  intros Hs. unfold newStatusFor. rewrite Hs. cbn [rdStatus syncedRide].
  destruct (lookupStatus statusMap (status us1)) as [v|] eqn:E.
  - apply mapped_status_truthy in E. unfold or_else. rewrite E. reflexivity.
  - reflexivity.
Qed.

Lemma quiet_after p1 p2 ride :
  (forall u, status <$> p1 u = status <$> p2 u) ->
  quietRow p2 (rideAfter p1 ride).
Proof.
  intros Hp. unfold rideAfter, quietRow.
  destruct (or_else (uberRideId ride) None) as [u|] eqn:Eu.
  2:{ rewrite Eu. done. }
  specialize (Hp u).
  destruct (p1 u) as [us1|] eqn:E1.
  - cbn [uberRideId syncedRide]. rewrite Eu.
    destruct (p2 u) as [us2|]; [|done]. cbn in Hp. injection Hp as Hp.
    cbn [rdStatus syncedRide]. by apply newStatusFor_fixed.
  - rewrite Eu. destruct (p2 u); [discriminate | done].
Qed.

Lemma sweep_quiet p now l : forall w,
  Forall (fun row => quietRow p row.2) l ->
  events (foldl (step p now) w l) = events w /\
  smsMessages (db (foldl (step p now) w l)) = smsMessages (db w).
Proof.
  induction l as [|[id r] l IH]; intros w Hq; [done|].
  apply Forall_cons in Hq as [Hq Hl]. cbn [foldl].
  destruct (IH (step p now w (id, r)) Hl) as [-> ->].
  by apply step_quiet.
Qed.

Lemma activeRides_spec d id r :
  (id, r) ∈ activeRides d <-> rides d !! id = Some r /\ isActiveRide r = true.
Proof.
  unfold activeRides. rewrite list_elem_of_In, filter_In, <- list_elem_of_In.
  rewrite elem_of_map_to_list. cbn. done.
Qed.

Lemma activeRides_NoDup d : NoDup ((activeRides d).*1).
Proof.
  unfold activeRides.
  assert (H : forall l : list (string * Ride), NoDup (l.*1) ->
            NoDup ((List.filter (fun kr => isActiveRide kr.2) l).*1)).
  { induction l as [|x l IH]; cbn; [done|]. intros Hnd.
    apply NoDup_cons in Hnd as [Hx Hnd].
    destruct (isActiveRide x.2); cbn; [|by apply IH].
    apply NoDup_cons. split; [|by apply IH].
    intros Hin. apply Hx. apply list_elem_of_fmap in Hin as (y & -> & Hy).
    apply list_elem_of_fmap. exists y. split; [done|].
    apply list_elem_of_In in Hy. apply filter_In in Hy as [Hy _].
    by apply list_elem_of_In. }
  apply H, NoDup_fst_map_to_list.
Qed.

(** C6. A step of the status-sync sweep whose provider answer maps to
    the status the ride already has emits no notification; and when the
    provider reports, for every ride, the same status in two
    consecutive runs of the sweep, the second run emits no
    notification and sends no message. *)
Theorem status_sync_twice_is_silent :
  (forall p now w id ride,
     quietRow p ride -> events (step p now w (id, ride)) = events w) /\
  (forall p1 p2 now1 now2 w,
     (forall u, status <$> p1 u = status <$> p2 u) ->
     let w1 := sweep p1 now1 w in
     let w2 := sweep p2 now2 w1 in
     events w2 = events w1 /\ smsMessages (db w2) = smsMessages (db w1)).
Proof.
  split; [intros; by apply step_quiet|].
  intros p1 p2 now1 now2 w Hp w1 w2.
  apply (sweep_quiet p2 now2 (activeRides (db w1)) w1).
  apply Forall_forall. intros [id r'] Hin. cbn.
  apply activeRides_spec in Hin as [Hlook Hact].
  unfold w1, updateRideStatuses in Hlook.
  apply sweep_rides in Hlook as [(r & Hr & ->) | [Hnot Hold]].
  - by apply quiet_after.
  - exfalso. apply Hnot. apply list_elem_of_fmap. exists (id, r'). split; [done|].
    by apply activeRides_spec.
  - apply activeRides_NoDup.
  - intros id1 r1 H1. by apply activeRides_spec in H1 as [? _].
Qed.

(** Once a ride is DRIVER_ASSIGNED, the provider's 'arrived' maps to the
    status the ride already has. *)
Lemma arrival_quiet_once_assigned p ride u us :
  rdStatus ride = DRIVER_ASSIGNED ->
  or_else (uberRideId ride) None = Some u ->
  p u = Some us -> status us = "arrived" ->
  quietRow p ride.
Proof.
  intros Hst Hu Hp Hs. unfold quietRow. rewrite Hu, Hp.
  unfold newStatusFor. rewrite Hs, Hst. reflexivity.
Qed.

End Sync.

Section SyncWitness.
Import RiskScore Store TwilioService UberHealth Scheduler Props.

(** Two runs over a provider that keeps reporting 'arrived'. *)
Lemma status_sync_twice_is_silent_witness :
  let sync := updateRideStatuses true Fixtures.noTransport Fixtures.noFormat
                Fixtures.arrivedProvider in
  let w1 := sync Fixtures.t0 Fixtures.syncedRideWorld in
  events (sync (Fixtures.t0 + 300000) w1) = events w1 /\
  smsMessages (db (sync (Fixtures.t0 + 300000) w1)) = smsMessages (db w1).
Proof.
  destruct (status_sync_twice_is_silent true Fixtures.noTransport Fixtures.noFormat)
    as [_ H].
  apply (H Fixtures.arrivedProvider Fixtures.arrivedProvider).
  intros u. reflexivity.
Defined.

End SyncWitness.

Section Arrival.
Import RiskScore Store TwilioService UberHealth Scheduler Props.

(** C7 (defect). The provider's 'arrived' is mapped to DRIVER_ASSIGNED
    and the notice is sent only when the mapped status differs from the
    ride's. For a ride that an earlier sweep made DRIVER_ASSIGNED, with
    a patient reachable by phone, the sweep that observes 'arrived'
    sends no message and emits no event; the same observation for a
    ride still SCHEDULED sends the notice. *)
Theorem arrival_after_assignment_sends_no_notice :
  let sync := updateRideStatuses true Fixtures.noTransport Fixtures.noFormat
                Fixtures.arrivedProvider Fixtures.t0 in
  contactPhone Fixtures.maria = Some "+15551234567" /\
  rdStatus <$> rides (db Fixtures.assignedRideWorld) !! "r1" = Some DRIVER_ASSIGNED /\
  status <$> Fixtures.arrivedProvider "UBER_1" = Some "arrived" /\
  smsMessages (db (sync Fixtures.assignedRideWorld)) = [] /\
  events (sync Fixtures.assignedRideWorld) = [] /\
  (* the same report for a ride still SCHEDULED does send the notice *)
  rdStatus <$> rides (db Fixtures.syncedRideWorld) !! "r1" = Some SCHEDULED /\
  map (fun m => (smsPhoneNumber m, direction m))
      (smsMessages (db (sync Fixtures.syncedRideWorld)))
    = [("+15551234567", OUTBOUND)] /\
  events (sync Fixtures.syncedRideWorld)
    = [RIDE_STATUS_UPDATE "r1" (Some "a1") SCHEDULED DRIVER_ASSIGNED].
Proof. vm_compute. repeat split; reflexivity. Qed.

End Arrival.

(** ** Ride offers *)

Section Offers.
Import RiskScore Store TwilioService UberHealth Scheduler Routes Props.

Lemma outboundFor_updateSMS a i sid st d :
  length (outboundFor a (updateSMS i sid st d)) = length (outboundFor a d).
Proof.
  unfold outboundFor, updateSMS. cbn.
  induction (smsMessages d) as [|m l IH]; cbn; [done|].
  destruct (Nat.eqb (smsId m) i); cbn;
    destruct (String.eqb (direction m) OUTBOUND
              && String.eqb (smsAppointmentId m) a); cbn; by rewrite IH.
Qed.

(** Every send logs one more outbound message for the appointment,
    whatever the transport does. *)
Lemma sendSMS_logs_outbound isTestMode transport showTime now to body a d :
  length (outboundFor a
    (sendSMS isTestMode transport showTime now to body (Some a) d).2)
  = S (length (outboundFor a d)).
Proof.
  unfold sendSMS. rewrite orEmpty_or_else.
  destruct (createSMS now a to body OUTBOUND SENT None d) as [rec d1] eqn:Ec.
  assert (Hc : length (outboundFor a d1) = S (length (outboundFor a d))).
  { unfold createSMS in Ec. injection Ec as _ <-.
    unfold outboundFor. cbn. by rewrite !String.eqb_refl. }
  destruct isTestMode; [|destruct (transport now to body)];
    cbn [snd]; rewrite outboundFor_updateSMS; exact Hc.
Qed.

(** The sweep only considers appointments whose flag is unset. *)
Lemma offerCandidates_unflagged now d id a :
  (id, a) ∈ offerCandidates now d -> rideOfferSent a = false.
Proof.
  unfold offerCandidates. rewrite list_elem_of_In, filter_In.
  intros [_ H]. unfold dueForOffer in H. cbn in H.
  apply andb_prop in H as [_ H]. by apply negb_true_iff in H.
Qed.

Section Route.
Variable isTestMode : bool.
Variable transport : Z -> string -> string -> string + string.
Variable formatDate : Z -> string.
Variable formatTime : Z -> string.
Variable showTime : Z -> string.

Local Abbreviation offer :=
  (offerRide isTestMode transport formatDate formatTime showTime).

(** The route sends whatever the flag says. *)
Lemma offerRide_ignores_flag now id w a p c ph :
  appointments (db w) !! id = Some a ->
  patients (db w) !! apPatientId a = Some p ->
  clinics (db w) !! apClinicId a = Some c ->
  phoneNumber p = Some ph -> ph <> "" ->
  length (outboundFor id (db (offer now id w).2))
  = S (length (outboundFor id (db w))).
Proof.
  intros Ha Hp Hc Hph Hne. unfold offerRide. rewrite Ha, Hp, Hc, Hph.
  apply truthy_Some in Hne. rewrite Hne. cbn [negb andb].
  rewrite Hne. cbn [negb].
  unfold sendRideOffer. rewrite Hph.
  replace (or_else None (Some ph)) with (Some ph) by reflexivity.
  rewrite Hne. cbn [negb].
  lazymatch goal with
  | |- context [sendSMS _ _ _ ?n ?t ?b (Some id) ?d] =>
      pose proof (sendSMS_logs_outbound isTestMode transport showTime n t b id d) as Hlog;
      destruct (sendSMS isTestMode transport showTime n t b (Some id) d) as [res d'] eqn:E
  end.
  cbn [snd] in Hlog.
  destruct (success res); cbn; exact Hlog.
Qed.
End Route.

(** C3 (defect). The offer route does not read the offer-sent flag.
    Called twice in a row for the same appointment (test transport,
    patient with a phone), both calls succeed, the flag is set after
    the first, and two outbound offers are logged and announced. The
    sweep, which filters on the flag, sends one offer when run twice. *)
Theorem offer_route_sends_twice :
  let offer := offerRide true Fixtures.noTransport Fixtures.noFormat
                 Fixtures.noFormat Fixtures.noFormat in
  let sweep := sendRideOffers true Fixtures.noTransport Fixtures.noFormat
                 Fixtures.noFormat Fixtures.noFormat in
  let w0 := Fixtures.world Fixtures.baseDB in
  let w1 := (offer Fixtures.t0 "a1" w0).2 in
  let w2 := (offer (Fixtures.t0 + 1000) "a1" w1).2 in
  ok (offer Fixtures.t0 "a1" w0).1 = true /\
  rideOfferSent <$> appointments (db w1) !! "a1" = Some true /\
  ok (offer (Fixtures.t0 + 1000) "a1" w1).1 = true /\
  length (outboundFor "a1" (db w2)) = 2%nat /\
  events w2 = [RIDE_OFFER_SENT "a1" "+15551234567";
               RIDE_OFFER_SENT "a1" "+15551234567"] /\
  (* the sweep, run twice, sends once *)
  length (outboundFor "a1" (db (sweep Fixtures.t0 (sweep Fixtures.t0 w0)))) = 1%nat.
Proof. vm_compute. repeat split; reflexivity. Qed.

End Offers.

(** ** The assessment cache *)

Section Cache.
Import RiskScore Store AIRiskScore TwilioService UberHealth Scheduler Routes Props.

Lemma cacheAssessment_expires_in_24h now id a d :
  exists row, aiRiskCache (cacheAssessment now id a d) !! id = Some row /\
    expiresAt row = now + 24 * 60 * 60 * 1000 /\
    aiScore row = adjustedScore a /\ cacheConfidence row = confidence a.
Proof.
  eexists. unfold cacheAssessment. cbn. rewrite lookup_insert_eq.
  split; [reflexivity|]. cbn. done.
Qed.

Lemma getCachedAssessment_fresh d now id row :
  aiRiskCache d !! id = Some row ->
  (now <= expiresAt row ->
     exists a, getCachedAssessment d now id = Some a /\
       adjustedScore a = aiScore row /\ confidence a = cacheConfidence row) /\
  (expiresAt row < now -> getCachedAssessment d now id = None).
Proof.
  intros H. unfold getCachedAssessment. rewrite H. split; intros Ht.
  - assert ((expiresAt row <? now) = false) as -> by (apply Z.ltb_ge; lia).
    eexists; split; [reflexivity|]. done.
  - assert ((expiresAt row <? now) = true) as -> by (apply Z.ltb_lt; lia). done.
Qed.

Section Layer.
Variable claude : DB -> Patient -> string -> RiskScoreResult -> ClaudeReply.
Variable sixMonthsBefore : Z -> Z.

Local Abbreviation enhanced :=
  (calculateAIEnhancedRiskScore claude sixMonthsBefore Fixtures.aiOn).

(** A cached assessment is returned without asking the provider; the
    provider is asked, once, only on a miss. *)
Lemma cache_consulted_first now patient id d :
  match getCachedAssessment d now id with
  | Some cached =>
      enhanced now patient id d =
      (combineScores
         (calculateRiskScore (noShowHistory d) (sixMonthsBefore now) patient)
         cached, d, [])
  | None => (enhanced now patient id d).2 = [id]
  end.
Proof.
  unfold calculateAIEnhancedRiskScore. cbn.
  destruct (getCachedAssessment d now id); [reflexivity|].
  destruct (getAIAssessment _ _); reflexivity.
Qed.
End Layer.

Section Handlers.
Variable isTestMode : bool.
Variable transport : Z -> string -> string -> string + string.
Variable formatDate : Z -> string.
Variable formatTime : Z -> string.
Variable showTime : Z -> string.
Variable toISOString : Z -> string.
Variable claudeTestMode : bool.
Variable classify : string -> option ClaudeService.Context
                    -> ClaudeService.IntentReply.
Variable phrase : string -> string -> string -> option string -> option string
                  -> option (option string).
Variable newUberRideId : World -> string.
Variable newRideId : World -> string.
Variable estimateCost : Clinic -> Q.

(** The inbound webhook never touches the assessment cache. *)
Lemma webhook_keeps_cache now from body sid w :
  aiRiskCache (db (webhook isTestMode transport formatDate formatTime showTime
                     toISOString claudeTestMode classify phrase newUberRideId
                     newRideId estimateCost now from body sid w).1)
  = aiRiskCache (db w).
Proof.
  unfold webhook, handleIncomingSMS.
  destruct (or_else (smsAppointmentId <$> recentOutbound (db w) from) None)
    as [aid|]; unfold createSMS; cbv beta iota zeta; [|reflexivity].
  cbn [withDB db].
  lazymatch goal with
  | |- context [appointments ?d !! aid] => destruct (appointments d !! aid) as [a|]
  end; [|reflexivity].
  lazymatch goal with
  | |- context [patients ?d !! ?k] => destruct (patients d !! k) as [p|]
  end; [|reflexivity].
  lazymatch goal with
  | |- context [clinics ?d !! ?k] => destruct (clinics d !! k) as [c|]
  end; [|reflexivity].
  destruct (ClaudeService.parsePatientResponse _ _ _ _) as [parsed calls].
  repeat lazymatch goal with
  | |- context [String.eqb ?a ?b] => destruct (String.eqb a b)
  | |- context [rideOfAppointment ?d ?k] => destruct (rideOfAppointment d k)
  | |- context [ClaudeService.generateResponse ?a ?b ?c ?d ?e ?f ?g] =>
      destruct (ClaudeService.generateResponse a b c d e f g)
  end.
  all: cbn [bookRide withMock withDB emit db fst snd].
  all: lazymatch goal with
  | |- context [truthy ?x] => destruct (truthy x)
  end.
  all: cbn [bookRide withMock withDB emit db fst snd].
  all: try lazymatch goal with
  | |- context [sendSMS _ _ _ ?n ?t ?b ?a ?d] =>
      destruct (sendSMS_frame isTestMode transport showTime n t b a d)
        as (_ & _ & _ & _ & -> & _)
  end.
  all: reflexivity.
Qed.
End Handlers.

(** C8 (defect). An assessment is cached for appointment a1 and an
    offer has gone out. The inbound webhook then records a reply for
    a1, and the cache row is still there: the next assessment is
    answered from the cache, without a call to the provider. (The
    24-hour expiry and the cache-first lookup hold, see
    [cacheAssessment_expires_in_24h] and [cache_consulted_first].) *)
Theorem inbound_message_leaves_cache :
  let w := Fixtures.world Fixtures.offeredDB in
  let w' := (webhook true Fixtures.noTransport Fixtures.noFormat Fixtures.noFormat
               Fixtures.noFormat Fixtures.noFormat true Fixtures.noIntentProvider
               Fixtures.noPhrase Fixtures.someId Fixtures.someId Fixtures.noCost
               (Fixtures.t0 + 1000) "+15551234567" "my ride fell through" "SM2" w).1 in
  let r := calculateAIEnhancedRiskScore Fixtures.claudeReplies Fixtures.halfYear
             Fixtures.aiOn (Fixtures.t0 + 2000) Fixtures.maria "a1" (db w') in
  aiRiskCache (db w) !! "a1" = Some Fixtures.cachedRow /\
  (fun m => (direction m, smsAppointmentId m, smsMessage m))
    <$> smsMessages (db w') !! 1%nat
    = Some (INBOUND, "a1", "my ride fell through") /\
  aiRiskCache (db w') !! "a1" = Some Fixtures.cachedRow /\
  r.2 = [] /\
  adjustedScore <$> aiAssessment r.1.1 = Some (Num 70).
Proof. vm_compute. repeat split; reflexivity. Qed.

End Cache.

(** ** Inbound messages *)

Section Inbound.
Import RiskScore Store TwilioService UberHealth Scheduler Routes Props.

Lemma latest_spec l : forall best m,
  latest best l = Some m ->
  (m ∈ l \/ best = Some m) /\
  (forall m', m' ∈ l -> createdAt m' <= createdAt m) /\
  (forall b, best = Some b -> createdAt b <= createdAt m).
Proof.
  induction l as [|x l IH]; intros best m H; cbn in H.
  { subst. split; [by right|]. split.
    - intros m' Hm'. by apply elem_of_nil in Hm'.
    - intros b Hb. injection Hb as ->. lia. }
  apply IH in H as (Hin & Hmax & Hbest).
  destruct best as [b|].
  - destruct (createdAt b <? createdAt x) eqn:E.
    + apply Z.ltb_lt in E. specialize (Hbest x eq_refl).
      split; [destruct Hin as [?|Hx]; [left; by right | injection Hx as <-; left; by left]|].
      split.
      * intros m' Hm'. apply elem_of_cons in Hm' as [-> | Hm']; [done | by apply Hmax].
      * intros b' Hb'. injection Hb' as <-. lia.
    + apply Z.ltb_ge in E. specialize (Hbest b eq_refl).
      split; [destruct Hin as [?|Hx]; [left; by right | by right]|].
      split.
      * intros m' Hm'. apply elem_of_cons in Hm' as [-> | Hm']; [lia | by apply Hmax].
      * intros b' Hb'. injection Hb' as <-. done.
  - specialize (Hbest x eq_refl).
    split; [destruct Hin as [?|Hx]; [left; by right | injection Hx as <-; left; by left]|].
    split.
    + intros m' Hm'. apply elem_of_cons in Hm' as [-> | Hm']; [done | by apply Hmax].
    + intros b' Hb'. discriminate.
Qed.

Lemma latest_None l best : latest best l = None -> best = None /\ l = [].
Proof.
  revert best. induction l as [|x l IH]; intros best H; cbn in H; [done|].
  apply IH in H as [H _]. destruct best as [b|]; [|discriminate].
  destruct (createdAt b <? createdAt x); discriminate.
Qed.

Lemma isOutboundTo_spec from m :
  isOutboundTo from m = true
  <-> smsPhoneNumber m = from /\ direction m = OUTBOUND.
Proof.
  unfold isOutboundTo. rewrite andb_true_iff, !String.eqb_eq. reflexivity.
Qed.

Lemma recentOutbound_spec d from :
  match recentOutbound d from with
  | Some m =>
      m ∈ smsMessages d /\ isOutboundTo from m = true /\
      (forall m', m' ∈ smsMessages d -> isOutboundTo from m' = true ->
         createdAt m' <= createdAt m)
  | None => forall m, m ∈ smsMessages d -> isOutboundTo from m = false
  end.
Proof.
  unfold recentOutbound.
  destruct (latest None _) as [m|] eqn:E.
  - apply latest_spec in E as ([Hin|?] & Hmax & _); [|discriminate].
    apply list_elem_of_In, filter_In in Hin as [Hin Hout].
    split; [by apply list_elem_of_In|]. split; [done|].
    intros m' Hm' Hout'. apply Hmax.
    apply list_elem_of_In, filter_In. split; [by apply list_elem_of_In | done].
  - apply latest_None in E as [_ E]. intros m Hm.
    destruct (isOutboundTo from m) eqn:Hout; [|done].
    assert (In m (List.filter (isOutboundTo from) (smsMessages d))) as Hin
      by (apply filter_In; split; [by apply list_elem_of_In | done]).
    rewrite E in Hin. destruct Hin.
Qed.

Section Handlers.
Variable isTestMode : bool.
Variable transport : Z -> string -> string -> string + string.
Variable formatDate : Z -> string.
Variable formatTime : Z -> string.
Variable showTime : Z -> string.
Variable toISOString : Z -> string.
Variable claudeTestMode : bool.
Variable classify : string -> option ClaudeService.Context
                    -> ClaudeService.IntentReply.
Variable phrase : string -> string -> string -> option string -> option string
                  -> option (option string).
Variable newUberRideId : World -> string.
Variable newRideId : World -> string.
Variable estimateCost : Clinic -> Q.

Local Abbreviation webhook' :=
  (webhook isTestMode transport formatDate formatTime showTime toISOString
     claudeTestMode classify phrase newUberRideId newRideId estimateCost).

(** C10. An inbound message is stored with the appointment id of the
    most recent outbound message to the sender's number: a row of the
    log whose phone number is the sender's and whose direction is
    OUTBOUND, with the greatest creation time among these rows. That
    id is what the handler returns ([null] when it is empty). When the
    log holds no outbound row for the number, the inbound row is
    stored with an empty appointment id and the webhook does nothing
    else: no provider call, no event, no booking, no reply. *)
Theorem inbound_associates_with_latest_outbound :
  (forall now from body sid d,
     let r := handleIncomingSMS now from body sid d in
     exists row,
       smsMessages r.2 = row :: smsMessages d /\
       direction row = INBOUND /\ smsPhoneNumber row = from /\
       smsMessage row = body /\
       ((exists m, m ∈ smsMessages d /\
           smsPhoneNumber m = from /\ direction m = OUTBOUND /\
           (forall m', m' ∈ smsMessages d ->
              smsPhoneNumber m' = from -> direction m' = OUTBOUND ->
              createdAt m' <= createdAt m) /\
           smsAppointmentId row = smsAppointmentId m /\
           r.1 = if decide (smsAppointmentId m = "") then None
                 else Some (smsAppointmentId m))
        \/ ((forall m, m ∈ smsMessages d ->
               ~ (smsPhoneNumber m = from /\ direction m = OUTBOUND)) /\
            smsAppointmentId row = "" /\ r.1 = None))) /\
  (forall now from body sid w,
     (forall m, m ∈ smsMessages (db w) ->
        ~ (smsPhoneNumber m = from /\ direction m = OUTBOUND)) ->
     webhook' now from body sid w =
     (withDB (fun d => (createSMS now "" from body INBOUND RECEIVED (Some sid) d).2) w,
      [])).
Proof.
  split.
  - intros now from body sid d r. subst r. unfold handleIncomingSMS.
    pose proof (recentOutbound_spec d from) as Hrec.
    destruct (recentOutbound d from) as [m|]; cbn [fmap option_fmap option_map].
    + destruct Hrec as (Hin & Hout & Hmax).
      apply isOutboundTo_spec in Hout as [Hph Hdir].
      eexists. split; [reflexivity|]. cbn.
      split; [done|]. split; [done|]. split; [done|].
      left. exists m. split; [done|]. split; [done|]. split; [done|].
      split.
      { intros m' Hm' Hph' Hdir'. apply Hmax; [done|].
        by apply isOutboundTo_spec. }
      unfold or_else at 2 3. unfold truthy.
      destruct (String.eqb_spec (smsAppointmentId m) "") as [E|E]; cbn.
      * rewrite E. by rewrite decide_True.
      * rewrite decide_False by done. split; [|done].
        unfold or_else, truthy. by destruct (String.eqb_spec (smsAppointmentId m) "").
    + eexists. split; [reflexivity|]. cbn. repeat split; try done. right.
      split; [|done]. intros m Hm Hout. apply isOutboundTo_spec in Hout.
      by rewrite (Hrec m Hm) in Hout.
  - intros now from body sid w Hnone. unfold webhook, handleIncomingSMS.
    pose proof (recentOutbound_spec (db w) from) as Hrec.
    destruct (recentOutbound (db w) from) as [m|].
    + destruct Hrec as (Hin & Hout & _).
      apply isOutboundTo_spec in Hout. destruct (Hnone m Hin Hout).
    + reflexivity.
Qed.
End Handlers.

(** Two evaluations on the log of [Fixtures.threadDB], which holds
    for +15551234567 an offer for a1 and a later confirmation for a2,
    for +15559876543 a still later offer for a3, and an inbound row.
    A message from +15551234567 is filed under a2 and a2 is returned:
    the later row of the other number and the inbound row do not
    compete. A message from +15550000000, to which nothing was ever
    sent, is logged without appointment and the webhook stops there. *)
Lemma inbound_associates_with_latest_outbound_witness :
  (let r := handleIncomingSMS (Fixtures.t0 + 5000) "+15551234567" "yes" "SM8"
              Fixtures.threadDB in
   r.1 = Some "a2" /\
   exists row, smsMessages r.2 = row :: smsMessages Fixtures.threadDB /\
     smsAppointmentId row = "a2" /\ direction row = INBOUND) /\
  webhook true Fixtures.noTransport Fixtures.noFormat Fixtures.noFormat
    Fixtures.noFormat Fixtures.noFormat true Fixtures.noIntentProvider
    Fixtures.noPhrase Fixtures.someId Fixtures.someId Fixtures.noCost
    (Fixtures.t0 + 5000) "+15550000000" "hello" "SM9"
    (Fixtures.world Fixtures.threadDB)
  = (withDB (fun d => (createSMS (Fixtures.t0 + 5000) "" "+15550000000" "hello"
                         INBOUND RECEIVED (Some "SM9") d).2)
       (Fixtures.world Fixtures.threadDB), []).
Proof.
  destruct (inbound_associates_with_latest_outbound true Fixtures.noTransport
    Fixtures.noFormat Fixtures.noFormat Fixtures.noFormat Fixtures.noFormat true
    Fixtures.noIntentProvider Fixtures.noPhrase Fixtures.someId Fixtures.someId
    Fixtures.noCost) as [Hassoc Hnone].
  split.
  - destruct (Hassoc (Fixtures.t0 + 5000) "+15551234567" "yes" "SM8"
                Fixtures.threadDB)
      as (row & Hlog & Hdir & _ & _ & [(m & Hm & Hph & Hout & Hmax & Hid & Hret)
                                      | (Hno & _ & _)]).
    + assert (Hm2 : smsAppointmentId m = "a2").
      { pose proof (Hmax (Fixtures.message 2 "a2" "+15551234567" OUTBOUND
                            (Fixtures.t0 + 2000))) as Hlate.
        cbn [Fixtures.threadDB smsMessages] in Hm, Hlate.
        assert (Fixtures.t0 + 2000 <= createdAt m) as Hge.
        { apply Hlate; [|reflexivity|reflexivity].
          apply elem_of_cons; right. apply elem_of_cons; right.
          apply elem_of_cons; left. reflexivity. }
        repeat (apply elem_of_cons in Hm as [-> | Hm]);
          [discriminate Hout | discriminate Hph | reflexivity
          | cbn in Hge; unfold Fixtures.t0 in Hge; lia
          | by apply elem_of_nil in Hm]. }
      cbn zeta. rewrite Hret, Hm2. split; [reflexivity|].
      exists row. rewrite Hid, Hm2. done.
    + exfalso.
      apply (Hno (Fixtures.message 1 "a1" "+15551234567" OUTBOUND Fixtures.t0)).
      * cbn [Fixtures.threadDB smsMessages].
        do 3 (apply elem_of_cons; right). apply elem_of_cons; left. reflexivity.
      * split; reflexivity.
  - apply Hnone. intros m Hm [Hph _].
    cbn [Fixtures.world db Fixtures.threadDB smsMessages] in Hm.
    repeat (apply elem_of_cons in Hm as [-> | Hm]); try discriminate Hph.
    by apply elem_of_nil in Hm.
Defined.

End Inbound.


(** * Further properties *)

(** ** The itemised breakdown of the rule score *)

Section Breakdown.
Import RiskScore MoreProps.

Lemma sumPoints_app fs gs : sumPoints (fs ++ gs) = sumPoints fs + sumPoints gs.
Proof.
  induction fs as [|f fs IH]; [reflexivity|].
  change (sumPoints ((f :: fs) ++ gs)) with (points f + sumPoints (fs ++ gs)).
  change (sumPoints (f :: fs)) with (points f + sumPoints fs). lia.
Qed.

(** [addFactor] keeps the running total equal to the listed points, lists
    positive points only, and adds at most one entry. *)
Lemma addFactor_keeps name pts acc n :
  acc.2 = sumPoints acc.1 -> Forall (fun f => 0 < points f) acc.1 ->
  (length acc.1 <= n)%nat ->
  let acc' := addFactor name pts acc in
  acc'.2 = sumPoints acc'.1 /\ Forall (fun f => 0 < points f) acc'.1 /\
  (length acc'.1 <= S n)%nat.
Proof.
  intros Hs Hp Hl. unfold addFactor. destruct (0 <? pts) eqn:E; cbn.
  - apply Z.ltb_lt in E. rewrite sumPoints_app, Hs. cbn.
    split; [lia|]. split.
    + apply Forall_app. split; [done|]. by apply Forall_singleton.
    + rewrite length_app. cbn. lia.
  - split; [done|]. split; [done|]. lia.
Qed.

(** The distance factor always counts, so no score is below 10. *)
Lemma score_range history cutoff p :
  10 <= score (calculateRiskScore history cutoff p) <= 100.
Proof.
  rewrite score_is_capped_sum.
  pose proof (getHousingPoints_nonneg (housingStatus p)).
  pose proof (getPhonePoints_nonneg (phoneNumber p)).
  pose proof (getNoShowCount_nonneg history cutoff (patientId p)).
  assert (10 <= getDistancePoints (distanceFromClinic p))
    by (unfold getDistancePoints; repeat case_match; lia).
  unfold getNoShowPoints. lia.
Qed.

(** X1. The itemised breakdown explains the score: every rule score lies
    between 10 and 100, it is the sum of the points of the listed
    factors capped at 100, every listed factor carries positive points,
    at most four factors are listed, and the distance factor is always
    among them. *)
Theorem score_matches_breakdown history cutoff p :
  let r := calculateRiskScore history cutoff p in
  10 <= score r <= 100 /\
  score r = Z.min (sumPoints (factors r)) 100 /\
  Forall (fun f => 0 < points f) (factors r) /\
  (length (factors r) <= 4)%nat /\
  (exists f, f ∈ factors r /\ factor f = "Distance from Clinic").
Proof.
  intros r.
  pose proof (score_is_capped_sum history cutoff p) as Hscore. fold r in Hscore.
  pose proof (getHousingPoints_nonneg (housingStatus p)) as Hh.
  pose proof (getDistancePoints_pos (distanceFromClinic p)) as Hd.
  pose proof (getPhonePoints_nonneg (phoneNumber p)) as Hp.
  pose proof (getNoShowCount_nonneg history cutoff (patientId p)) as Hn.
  split; [apply score_range|].
  unfold r, calculateRiskScore. cbn [score factors].
  set (a0 := ([], 0) : list RiskFactor * Z).
  set (a1 := addFactor "Housing Status" _ a0).
  set (a2 := addFactor "Distance from Clinic" _ a1).
  set (a3 := addFactor "Phone Access" _ a2).
  set (a4 := addFactor "Previous No-Shows" _ a3).
  assert (H0 : a0.2 = sumPoints a0.1 /\ Forall (fun f => 0 < points f) a0.1
               /\ (length a0.1 <= 0)%nat) by (cbn; auto).
  destruct H0 as (S0 & P0 & L0).
  destruct (addFactor_keeps "Housing Status"
              (getHousingPoints (housingStatus p)) a0 0 S0 P0 L0) as (S1 & P1 & L1).
  fold a1 in S1, P1, L1.
  destruct (addFactor_keeps "Distance from Clinic"
              (getDistancePoints (distanceFromClinic p)) a1 1 S1 P1 L1)
    as (S2 & P2 & L2).
  fold a2 in S2, P2, L2.
  destruct (addFactor_keeps "Phone Access"
              (getPhonePoints (phoneNumber p)) a2 2 S2 P2 L2) as (S3 & P3 & L3).
  fold a3 in S3, P3, L3.
  destruct (addFactor_keeps "Previous No-Shows"
              (getNoShowPoints (getNoShowCount history cutoff (patientId p)))
              a3 3 S3 P3 L3) as (S4 & P4 & L4).
  fold a4 in S4, P4, L4.
  split; [by rewrite S4|]. split; [done|]. split; [done|].
  exists {| factor := "Distance from Clinic";
            points := getDistancePoints (distanceFromClinic p) |}.
  split; [|done].
  assert (Hin2 : {| factor := "Distance from Clinic";
                    points := getDistancePoints (distanceFromClinic p) |} ∈ a2.1).
  { unfold a2, addFactor. apply Z.ltb_lt in Hd. rewrite Hd. cbn.
    apply elem_of_app. right. by apply list_elem_of_singleton. }
  assert (Hmono : forall name pts acc x, x ∈ acc.1 -> x ∈ (addFactor name pts acc).1).
  { intros name pts acc x Hx. unfold addFactor. destruct (0 <? pts); cbn; [|done].
    apply elem_of_app. by left. }
  by apply Hmono, Hmono.
Qed.

Lemma getNoShowCount_app h h' c pid :
  getNoShowCount (h ++ h') c pid = getNoShowCount h c pid + getNoShowCount h' c pid.
Proof. unfold getNoShowCount. rewrite filter_app, length_app. lia. Qed.

(** X2. The rule score is monotone in the no-show history: recording
    further no-shows (of any patient, at any time) never lowers a
    patient's score, never takes a patient out of HIGH and never puts a
    patient into LOW. *)
Theorem more_no_shows_never_lower_the_score history extra cutoff p :
  let r := calculateRiskScore history cutoff p in
  let r' := calculateRiskScore (history ++ extra) cutoff p in
  score r <= score r' /\
  (category r = HIGH -> category r' = HIGH) /\
  (category r' = LOW -> category r = LOW).
Proof.
  intros r r'.
  assert (Hle : score r <= score r').
  { unfold r, r'. rewrite !score_is_capped_sum, getNoShowCount_app.
    pose proof (getNoShowCount_nonneg extra cutoff (patientId p)).
    unfold getNoShowPoints. lia. }
  split; [done|].
  destruct (getRiskCategory_spec (score r)) as (HL & _ & HH).
  destruct (getRiskCategory_spec (score r')) as (HL' & _ & HH').
  change (getRiskCategory (score r)) with (category r) in *.
  change (getRiskCategory (score r')) with (category r') in *.
  split; intros H.
  - apply HH'. apply HH in H. lia.
  - apply HL. apply HL' in H. lia.
Qed.
End Breakdown.

(** ** Degradation and caching of the adjustment *)

Section Degradation.
Import RiskScore Store AIRiskScore MoreProps.

(** A numeric field that is missing or the number zero. *)
Lemma num_or_falsy x d :
  (forall v, x = Some v -> exists q, v = JSNumberValue (Num q) /\ (q == 0)%Q) ->
  num_or x d = Num d.
Proof.
  intros H. unfold num_or. destruct x as [v|]; [|done].
  destruct (H v eq_refl) as (q & -> & Hq).
  apply Qeq_bool_iff in Hq. by rewrite Hq.
Qed.

Lemma Math_round_integer z : Math_round (inject_Z z) = z.
Proof.
  pose proof (Math_round_nearest (inject_Z z)) as [H1 H2].
  set (n := Math_round (inject_Z z)) in *.
  assert (inject_Z n - 1 < inject_Z z)%Q by lra.
  assert (inject_Z z < inject_Z n + 1)%Q by lra.
  change 1%Q with (inject_Z 1) in *.
  unfold Qminus in *. rewrite <- inject_Z_opp, <- inject_Z_plus in *.
  rewrite <- Zlt_Qlt in *. lia.
Qed.

(** X3. A reply of the inference provider whose adjusted score and
    confidence are missing or zero is read with the defaults
    [|| baseResult.score] and [|| 50]: the validated adjusted score is
    the rule score, the confidence is 50, and blending at that
    confidence returns the rule score and the rule category. *)
Theorem falsy_reply_fields_keep_the_base_score history cutoff p raw :
  let base := calculateRiskScore history cutoff p in
  (forall v, rawAdjustedScore raw = Some v ->
     exists q, v = JSNumberValue (Num q) /\ (q == 0)%Q) ->
  (forall v, rawConfidence raw = Some v ->
     exists q, v = JSNumberValue (Num q) /\ (q == 0)%Q) ->
  exists a, getAIAssessment (TextContent (Some raw)) base = inr a /\
    (adjustedScore a == inject_Z (score base))%JS /\
    confidence a = 50%Q /\
    (finalScore (combineScores base a) == inject_Z (score base))%JS /\
    finalCategory (combineScores base a) = category base.
Proof.
  intros base Hadj Hconf.
  destruct (score_range history cutoff p) as [Hlo Hhi].
  fold base in Hlo, Hhi.
  eexists. split; [reflexivity|]. cbn [adjustedScore confidence].
  rewrite (num_or_falsy _ _ Hadj), (num_or_falsy _ _ Hconf).
  assert (Hadj' : clamp 0 100 (Num (inject_Z (score base)))
                  = Num (inject_Z (score base))).
  { apply (clamp_integer 0 100). lia. }
  rewrite Hadj'.
  split; [cbn; reflexivity|]. split; [reflexivity|].
  set (a := {| adjustedScore := _ |}).
  assert (Hfin : finalScore (combineScores base a)
                 = Num (inject_Z (score base))).
  { change (finalScore (combineScores base a))
      with (JS_round (JS_div (JS_add (Num (inject_Z (score base)))
                                     (Num (inject_Z (score base)))) 2)).
    destruct (halved_sum_exact (score base) (score base)) as (m & -> & Hm); [lia|].
    cbn [JS_round]. do 2 f_equal.
    transitivity (Math_round (inject_Z (score base)));
      [|apply Math_round_integer].
    unfold Math_round. apply Qfloor_comp. rewrite Hm, inject_Z_plus. field. }
  split; [rewrite Hfin; cbn; reflexivity|].
  assert (Hcat : finalCategory (combineScores base a) =
                 if JS_le (finalScore (combineScores base a)) 30 then LOW
                 else if JS_le (finalScore (combineScores base a)) 60
                      then MEDIUM else HIGH) by reflexivity.
  rewrite Hcat, Hfin. apply final_category_integer.
Qed.

Lemma str_or_truthy x d : d <> "" -> truthy (Some (str_or x d)) = true.
Proof.
  intros Hd. unfold str_or, or_else.
  destruct (truthy x) eqn:E; [destruct x; [exact E | discriminate]|].
  unfold truthy. destruct (String.eqb_spec d ""); [contradiction | reflexivity].
Qed.

Lemma str_or_idem x d : d <> "" -> str_or (Some (str_or x d)) d = str_or x d.
Proof. intros Hd. unfold str_or at 1, or_else. by rewrite str_or_truthy. Qed.

Section Layer.
Variable claude : DB -> Patient -> string -> RiskScoreResult -> ClaudeReply.
Variable sixMonthsBefore : Z -> Z.

Local Abbreviation enhancedWith cfg :=
  (calculateAIEnhancedRiskScore claude sixMonthsBefore cfg).

(** X4. The adjustment layer degrades to the rule engine. The result
    always carries the rule score and the rule factors; a result that
    is not enhanced is exactly the rule result and leaves the store
    untouched; with the feature disabled or without a client the
    provider is not called; a provider failure (exception, non-text
    content, unparsable text) after a cache miss costs one call and is
    answered by the rule result. Whatever happens, the layer writes
    nothing but the cache row and the appointment row of the
    appointment it was asked about. *)
Theorem adjustment_failure_degrades_to_base cfg now patient id d :
  let base :=
    calculateRiskScore (noShowHistory d) (sixMonthsBefore now) patient in
  let '(r, d', calls) := enhancedWith cfg now patient id d in
  baseScore r = score base /\ baseFactors r = factors base /\
  (isAIEnhanced r = false -> r = fallback base /\ d' = d) /\
  (isEnabled cfg = false \/ hasClient cfg = false ->
     isAIEnhanced r = false /\ calls = []) /\
  (forall e, isEnabled cfg = true -> hasClient cfg = true ->
     getCachedAssessment d now id = None ->
     getAIAssessment (claude d patient id base) base = inl e ->
     isAIEnhanced r = false /\ calls = [id]) /\
  patients d' = patients d /\ clinics d' = clinics d /\ rides d' = rides d /\
  smsMessages d' = smsMessages d /\ noShowHistory d' = noShowHistory d /\
  (forall id', id' <> id ->
     aiRiskCache d' !! id' = aiRiskCache d !! id' /\
     appointments d' !! id' = appointments d !! id').
Proof.
  intros base. unfold calculateAIEnhancedRiskScore. fold base.
  destruct (isEnabled cfg) eqn:Een; destruct (hasClient cfg) eqn:Ecl; cbn [negb orb].
  2-4: by (repeat split; intros; try done; try (destruct H; discriminate)).
  destruct (getCachedAssessment d now id) as [cached|] eqn:Ecache.
  { repeat split; intros; try done; try (destruct H; discriminate). }
  destruct (getAIAssessment (claude d patient id base) base) as [e|a] eqn:Eai.
  { repeat split; intros; try done; try (destruct H; discriminate). }
  repeat split; intros; try done; try (destruct H; discriminate).
  - cbn. by rewrite lookup_insert_ne.
  - cbn. by rewrite lookup_alter_ne.
Qed.

(** X5. Write-then-read of the assessment cache. After a miss that the
    provider answers, the provider has been called once; a second
    calculation for the same appointment at most 24 hours later calls
    nobody and is given the stored assessment back field for field
    (score, confidence, reasoning, recommendations, contact time, risk
    tags), except the adjustment, which the cache does not store and
    which is read back as 0; later than 24 hours the provider is called
    again. *)
Theorem fresh_assessment_is_served_from_cache
    cfg now now' patient patient' id d a :
  let base :=
    calculateRiskScore (noShowHistory d) (sixMonthsBefore now) patient in
  isEnabled cfg = true -> hasClient cfg = true ->
  getCachedAssessment d now id = None ->
  getAIAssessment (claude d patient id base) base = inr a ->
  let first := enhancedWith cfg now patient id d in
  let second := enhancedWith cfg now' patient' id first.1.2 in
  first.2 = [id] /\
  (now' <= now + 24 * 60 * 60 * 1000 ->
     second.2 = [] /\
     exists a', aiAssessment second.1.1 = Some a' /\
       adjustedScore a' = adjustedScore a /\ confidence a' = confidence a /\
       reasoning a' = reasoning a /\ recommendations a' = recommendations a /\
       optimalContactTime a' = optimalContactTime a /\
       riskFactors a' = riskFactors a /\ adjustment a' = 0%Q) /\
  (now + 24 * 60 * 60 * 1000 < now' -> second.2 = [id]).
Proof.
  intros base Hen Hcl Hmiss Hai first second.
  assert (Hfirst : first = (combineScores base a,
            updateAppointmentWithAI id a (cacheAssessment now id a d), [id])).
  { unfold first, calculateAIEnhancedRiskScore. rewrite Hen, Hcl.
    cbn [negb orb]. fold base. by rewrite Hmiss, Hai. }
  split; [by rewrite Hfirst|].
  assert (Hopt : str_or (Some (optimalContactTime a)) "Morning"
                 = optimalContactTime a).
  { destruct (claude d patient id base) as [| |[raw|]]; cbn in Hai; try discriminate.
    injection Hai as <-. cbn [optimalContactTime]. apply str_or_idem. discriminate. }
  unfold second. rewrite Hfirst. cbn [fst snd].
  unfold calculateAIEnhancedRiskScore. rewrite Hen, Hcl.
  cbn [negb orb].
  unfold getCachedAssessment.
  cbn [updateAppointmentWithAI cacheAssessment set_appointments set_aiRiskCache
       aiRiskCache].
  rewrite lookup_insert_eq. cbn [expiresAt].
  split; intros Ht.
  - assert ((now + 24 * msPerHour <? now') = false) as ->
      by (apply Z.ltb_ge; unfold msPerHour; lia).
    split; [reflexivity|]. eexists. split; [reflexivity|].
    cbn. by rewrite Hopt.
  - assert ((now + 24 * msPerHour <? now') = true) as ->
      by (apply Z.ltb_lt; unfold msPerHour; lia).
    cbn. repeat case_match; reflexivity.
Qed.
End Layer.

Lemma sendRideOffer_frame isTestMode transport formatDate formatTime showTime
    now id a p c cw d :
  let d' := (TwilioService.sendRideOffer isTestMode transport formatDate formatTime
               showTime now id a p c cw d).2 in
  rides d' = rides d /\ appointments d' = appointments d /\
  patients d' = patients d /\ clinics d' = clinics d /\
  aiRiskCache d' = aiRiskCache d /\ noShowHistory d' = noShowHistory d.
Proof.
  unfold TwilioService.sendRideOffer.
  destruct (or_else cw (phoneNumber p)) as [ph|]; [|done].
  destruct (negb (truthy (Some ph))); [done|].
  apply sendSMS_frame.
Qed.

(** X6. The offer route invalidates the cached assessment exactly when
    the offer was sent: after a successful answer the cache has no row
    for the appointment (so the next assessment is a miss at any time),
    and after any unsuccessful answer the cache is as it was. *)
Theorem successful_offer_drops_the_cached_assessment
    isTestMode transport formatDate formatTime showTime now id w :
  let '(resp, w') :=
    Routes.offerRide isTestMode transport formatDate formatTime showTime now id w in
  (Routes.ok resp = true ->
     aiRiskCache (db w') = delete id (aiRiskCache (db w)) /\
     forall now', getCachedAssessment (db w') now' id = None) /\
  (Routes.ok resp = false -> aiRiskCache (db w') = aiRiskCache (db w)).
Proof.
  unfold Routes.offerRide.
  destruct (appointments (db w) !! id) as [a|]; [|by split].
  destruct (patients (db w) !! apPatientId a) as [p|]; [|by split].
  destruct (clinics (db w) !! apClinicId a) as [c|]; [|by split].
  set (via := negb (truthy (phoneNumber p)) && (0 <? length (caseWorkers p))%nat).
  set (target := if via then _ else _).
  destruct (negb (truthy target)); [by split|].
  lazymatch goal with
  | |- context [TwilioService.sendRideOffer ?a1 ?a2 ?a3 ?a4 ?a5 ?a6 ?a7 ?a8 ?a9 ?a10 ?a11 ?a12] =>
      pose proof (sendRideOffer_frame a1 a2 a3 a4 a5 a6 a7 a8 a9 a10 a11 a12)
        as (_ & _ & _ & _ & Hc & _);
      destruct (TwilioService.sendRideOffer a1 a2 a3 a4 a5 a6 a7 a8 a9 a10 a11 a12)
        as [res d'] eqn:E
  end.
  cbn [snd] in Hc.
  destruct (TwilioService.success res); cbn.
  - split; [intros _ | intros H; discriminate].
    rewrite Hc. split; [done|]. intros now'.
    unfold getCachedAssessment. cbn. by rewrite Hc, lookup_delete_eq.
  - split; [intros H; discriminate | intros _; exact Hc].
Qed.
End Degradation.

Section DegradationWitnesses.
Import RiskScore Store AIRiskScore MoreProps.

Lemma falsy_reply_fields_keep_the_base_score_witness :
  exists a,
    getAIAssessment (TextContent (Some MoreFixtures.emptyReply))
      (calculateRiskScore [] 0 Fixtures.maria) = inr a /\
    confidence a = 50%Q.
Proof.
  destruct (falsy_reply_fields_keep_the_base_score [] 0 Fixtures.maria
              MoreFixtures.emptyReply)
    as (a & Ha & _ & Hc & _).
  - intros q H. discriminate H.
  - intros q H. discriminate H.
  - exists a. split; [exact Ha|exact Hc].
Defined.

Lemma fresh_assessment_is_served_from_cache_witness :
  (calculateAIEnhancedRiskScore Fixtures.claudeReplies Fixtures.halfYear
     Fixtures.aiOn (Fixtures.t0 + 1000) Fixtures.maria "a1"
     (calculateAIEnhancedRiskScore Fixtures.claudeReplies Fixtures.halfYear
        Fixtures.aiOn Fixtures.t0 Fixtures.maria "a1" Fixtures.baseDB).1.2).2
  = [].
Proof.
  assert (Hai : exists a,
    getAIAssessment
      (Fixtures.claudeReplies Fixtures.baseDB Fixtures.maria "a1"
         (calculateRiskScore (noShowHistory Fixtures.baseDB)
            (Fixtures.halfYear Fixtures.t0) Fixtures.maria))
      (calculateRiskScore (noShowHistory Fixtures.baseDB)
         (Fixtures.halfYear Fixtures.t0) Fixtures.maria) = inr a)
    by (eexists; reflexivity).
  destruct Hai as [a Hai].
  assert (Hle : Fixtures.t0 + 1000 <= Fixtures.t0 + 24 * 60 * 60 * 1000)
    by (unfold Fixtures.t0; lia).
  exact (proj1 (proj1 (proj2
    (fresh_assessment_is_served_from_cache Fixtures.claudeReplies
       Fixtures.halfYear Fixtures.aiOn Fixtures.t0 (Fixtures.t0 + 1000)
       Fixtures.maria Fixtures.maria "a1" Fixtures.baseDB a
       eq_refl eq_refl eq_refl Hai)) Hle)).
Defined.

End DegradationWitnesses.

(** ** The two tiers of the intent resolver *)

Section Tiers.
Import Regex ClaudeService MoreProps.

Lemma run_lit_app {R} l : forall t c (k : chars -> option chars -> option R),
  run (lit_chars false l) (l ++ t) c k = k t c.
Proof.
  induction l as [|a l IH]; intros t c k; [done|].
  cbn. rewrite Ascii.eqb_refl. apply IH.
Qed.

Lemma run_lit_inv {R} l : forall s c (k : chars -> option chars -> option R) x,
  run (lit_chars false l) s c k = Some x ->
  exists t, s = l ++ t /\ k t c = Some x.
Proof.
  induction l as [|a l IH]; intros s c k x H.
  - exists s. done.
  - cbn in H. destruct s as [|b s]; [done|].
    destruct (Ascii.eqb b a) eqn:E; [|done].
    apply Ascii.eqb_eq in E. subst b.
    destruct (IH _ _ _ _ H) as (t & -> & Hk). by exists t.
Qed.

(** [/^p$/.test(s)] for a literal [p] is equality with [p]. *)
Lemma test_whole_lit p s : test (whole (lit p)) s = true <-> s = p.
Proof.
  unfold test, exec, match_here, whole, lit. cbn.
  split.
  - destruct (run _ _ _ _) eqn:E; [|done]. intros _.
    apply run_lit_inv in E as (t & Hs & Hk).
    destruct t; [|done]. rewrite app_nil_r in Hs.
    rewrite <- (string_of_list_ascii_of_string s),
            <- (string_of_list_ascii_of_string p). by rewrite Hs.
  - intros ->.
    rewrite <- (app_nil_r (list_ascii_of_string p)) at 2.
    by rewrite run_lit_app.
Qed.

Lemma confirmPatterns_phrases :
  confirmPatterns = map (fun s => whole (lit s)) confirmPhrases.
Proof. reflexivity. Qed.

Lemma anyMatch_confirm s : anyMatch confirmPatterns s = true <-> In s confirmPhrases.
Proof.
  rewrite confirmPatterns_phrases. unfold anyMatch.
  rewrite existsb_exists. split.
  - intros (p & Hp & Ht). apply in_map_iff in Hp as (q & <- & Hq).
    apply test_whole_lit in Ht. by subst.
  - intros H. exists (whole (lit s)). split.
    + apply in_map_iff. by exists s.
    + by apply test_whole_lit.
Qed.

Lemma rawMessage_rules message : rawMessage (ruleBasedParsing message) = message.
Proof. unfold ruleBasedParsing. repeat case_match; reflexivity. Qed.

(** A listed phrase is settled by the rules, in every mode. *)
Lemma listed_phrase_short_circuits message :
  In (cleaned message) confirmPhrases ->
  ruleBasedParsing message
  = response CONFIRM_RIDE (95 # 100) None None message /\
  forall isTestMode classify context,
    parsePatientResponse isTestMode classify message context
    = (response CONFIRM_RIDE (95 # 100) None None message, []).
Proof.
  intros H. apply anyMatch_confirm in H. unfold cleaned in H.
  assert (Hr : ruleBasedParsing message
               = response CONFIRM_RIDE (95 # 100) None None message).
  { unfold ruleBasedParsing. by rewrite H. }
  split; [exact Hr|]. intros isTestMode classify context.
  unfold parsePatientResponse. by rewrite Hr.
Qed.

(** The cleaning steps keep a message inside the ASCII range. *)
Lemma isAscii_forall s :
  isAscii s = true
  <-> forall a, In a (list_ascii_of_string s) -> (nat_of_ascii a < 128)%nat.
Proof.
  unfold isAscii. rewrite forallb_forall.
  split; intros H a Ha; specialize (H a Ha); by apply Nat.ltb_lt.
Qed.

Lemma lower_ascii a : (nat_of_ascii a < 128)%nat -> (nat_of_ascii (lower a) < 128)%nat.
Proof.
  intros H. unfold lower, code.
  destruct (Nat.leb 65 (nat_of_ascii a) && Nat.leb (nat_of_ascii a) 90) eqn:E; [|done].
  apply andb_true_iff in E as [_ E]. apply Nat.leb_le in E.
  rewrite nat_ascii_embedding; lia.
Qed.

Lemma trimStart_In l a : In a (trimStart l) -> In a l.
Proof.
  induction l as [|b l IH]; [done|]. cbn.
  destruct (is_space b); [intros H; right; by apply IH | done].
Qed.

Lemma collapse_In l : forall b a, In a (collapse b l) -> In a l \/ a = " "%char.
Proof.
  induction l as [|x l IH]; intros b a H; [done|]. cbn in H.
  destruct (is_space x).
  - destruct b.
    + destruct (IH _ _ H); [left; by right | by right].
    + destruct H as [<-|H]; [by right|].
      destruct (IH _ _ H); [left; by right | by right].
  - destruct H as [<-|H]; [left; by left|].
    destruct (IH _ _ H); [left; by right | by right].
Qed.

Lemma cleaned_ascii message : isAscii message = true -> isAscii (cleaned message) = true.
Proof.
  rewrite !isAscii_forall. intros H a Ha.
  unfold cleaned, collapseSpaces, stripPunctuation, trim, toLowerCase in Ha.
  rewrite !list_ascii_of_string_of_list_ascii in Ha.
  apply collapse_In in Ha as [Ha | ->]; [|by apply Nat.ltb_lt].
  apply filter_In in Ha as [Ha _].
  apply in_rev, trimStart_In, in_rev, trimStart_In in Ha.
  apply in_map_iff in Ha as (b & <- & Hb). apply lower_ascii. by apply H.
Qed.

(** X7. For a message of the ASCII range, the rule tier answers
    CONFIRM_RIDE with confidence 0.95 exactly when the message,
    lower-cased, trimmed, stripped of [!?.] and with runs of white
    space collapsed, is one of the listed confirmation phrases; for
    those messages the resolver returns that answer in every mode
    without consulting the provider. The thumbs-up sign is not among
    the phrases (the file lists a mangled text instead), and a message
    that is the sign alone is not confirmed by the rules. *)
Theorem confirm_at_full_confidence_iff_listed_phrase message :
  isAscii message = true ->
  (intent (ruleBasedParsing message) = CONFIRM_RIDE /\
   confidence (ruleBasedParsing message) = 95 # 100
   <-> In (cleaned message)
         ["yes"; "yeah"; "yep"; "yup"; "ok"; "okay"; "sure"; "sounds good";
          "please"; "yes please"; "y"; "i need a ride"; "i want a ride";
          "book it"; "lets do it"; "definitely"; "absolutely"]) /\
  (In (cleaned message) confirmPhrases ->
   forall isTestMode classify context,
     parsePatientResponse isTestMode classify message context
     = (response CONFIRM_RIDE (95 # 100) None None message, [])) /\
  intent (ruleBasedParsing (bytes [240; 159; 145; 141]%nat)) = UNKNOWN.
Proof.
  intros Hascii.
  assert (Hlist : In (cleaned message) confirmPhrases
          <-> In (cleaned message)
                ["yes"; "yeah"; "yep"; "yup"; "ok"; "okay"; "sure"; "sounds good";
                 "please"; "yes please"; "y"; "i need a ride"; "i want a ride";
                 "book it"; "lets do it"; "definitely"; "absolutely"]).
  { pose proof (cleaned_ascii message Hascii) as Hc.
    unfold confirmPhrases. cbn [In]. split.
    - intros H. repeat (destruct H as [H|H]; [first
        [ rewrite <- H in Hc; vm_compute in Hc; discriminate Hc
        | tauto ]|]). destruct H.
    - intros H. tauto. }
  split; [split|split].
  - intros [Hi Hc]. apply Hlist.
    destruct (anyMatch confirmPatterns (cleaned message)) eqn:E.
    { by apply anyMatch_confirm. }
    exfalso. unfold cleaned in E. unfold ruleBasedParsing in Hi, Hc.
    rewrite E in Hi, Hc.
    repeat case_match; cbn in Hi, Hc; discriminate.
  - intros H. apply Hlist in H.
    by rewrite (proj1 (listed_phrase_short_circuits message H)).
  - intros H. apply (listed_phrase_short_circuits message H).
  - vm_compute. reflexivity.
Qed.

(** "  Yes!! " is confirmed by the rules. *)
Lemma confirm_at_full_confidence_iff_listed_phrase_witness :
  isAscii "  Yes!! " = true /\
  intent (ruleBasedParsing "  Yes!! ") = CONFIRM_RIDE /\
  confidence (ruleBasedParsing "  Yes!! ") = 95 # 100.
Proof.
  split; [reflexivity|].
  apply (proj1 (confirm_at_full_confidence_iff_listed_phrase "  Yes!! " eq_refl)).
  vm_compute. auto.
Defined.

(** X8. The resolver asks the inference provider at most once per
    message, and exactly when the client exists and the rule tier's
    confidence is below 0.9. Without a call the answer is the rule
    tier's; with a call, a parsed reply is passed through (intent,
    confidence and reasoning as the provider gave them, unvalidated)
    and every failure of the provider falls back to the rule tier's
    answer. The raw message is always echoed. *)
Theorem provider_is_asked_at_most_once isTestMode classify message context :
  let rules := ruleBasedParsing message in
  let r := (parsePatientResponse isTestMode classify message context).1 in
  let calls := (parsePatientResponse isTestMode classify message context).2 in
  (calls = [] \/ calls = [message]) /\
  (calls = [message] <->
     isTestMode = false /\ (confidence rules < 9 # 10)%Q) /\
  rawMessage r = message /\
  (calls = [] -> r = rules) /\
  (calls = [message] ->
     match classify message context with
     | IntentText (Some j) =>
         intent r = jsonIntent j /\ confidence r = jsonConfidence j /\
         reasoning r = jsonReasoning j
     | _ => r = rules
     end).
Proof.
  cbn zeta. unfold parsePatientResponse.
  destruct (Qle_bool (9 # 10) (confidence (ruleBasedParsing message))) eqn:E.
  - cbn. apply Qle_bool_iff in E.
    repeat split; try done; auto using rawMessage_rules.
    intros [_ H]. exfalso. revert H. by apply Qle_not_lt.
  - apply Qle_bool_false in E.
    destruct isTestMode; cbn.
    + repeat split; try done; auto using rawMessage_rules. by intros [? _].
    + unfold parseWithClaude.
      destruct (classify message context) as [| |[j|]]; cbn;
        repeat split; try done; auto using rawMessage_rules.
Qed.

End Tiers.

(** ** The message log *)

Section MessageLog.
Import RiskScore Store TwilioService Scheduler Routes Jobs MoreRoutes MoreProps.

Lemma updateSMS_rows id sid st d :
  smsMessages (updateSMS id sid st d)
  = map (fun m =>
      if Nat.eqb (smsId m) id
      then {| smsId := smsId m; smsAppointmentId := smsAppointmentId m;
              smsPhoneNumber := smsPhoneNumber m; smsMessage := smsMessage m;
              direction := direction m; smsStatus := st;
              twilioSid := match sid with Some s => Some s | None => twilioSid m end;
              createdAt := createdAt m |}
      else m) (smsMessages d).
Proof. reflexivity. Qed.

(** An update addressed to the id of the counter leaves the rows
    stored before untouched. *)
Lemma update_above_ids (f : SMSMessage -> SMSMessage) id l :
  (forall m, m ∈ l -> (smsId m < id)%nat) ->
  map (fun m => if Nat.eqb (smsId m) id then f m else m) l = l.
Proof.
  induction l as [|m l IH]; intros H; [done|]. cbn.
  rewrite IH by (intros; apply H; by right).
  assert (smsId m < id)%nat as Hlt by (apply H; by left).
  destruct (Nat.eqb_spec (smsId m) id); [lia|done].
Qed.

Lemma createSMS_fresh now a to body dir st sid d :
  smsIdsFresh d -> smsIdsFresh (createSMS now a to body dir st sid d).2.
Proof.
  intros H m Hm. cbn in *. apply elem_of_cons in Hm as [->|Hm]; cbn; [lia|].
  specialize (H m Hm). lia.
Qed.

Section Send.
Variable isTestMode : bool.
Variable transport : Z -> string -> string -> string + string.
Variable showTime : Z -> string.

Local Abbreviation send := (sendSMS isTestMode transport showTime).

(** What one send leaves in the log. *)
Lemma sendSMS_row now to body aid d :
  smsIdsFresh d ->
  let res := (send now to body aid d).1 in
  let d' := (send now to body aid d).2 in
  smsMessages d' =
    {| smsId := nextSmsId d;
       smsAppointmentId := orEmpty (or_else aid None);
       smsPhoneNumber := to; smsMessage := body; direction := OUTBOUND;
       smsStatus := if success res then DELIVERED else FAILED;
       twilioSid :=
         if isTestMode then Some ("TEST_" +:+ showTime now)
         else match transport now to body with
              | inr sid => Some sid
              | inl _ => None
              end;
       createdAt := now |} :: smsMessages d /\
  nextSmsId d' = S (nextSmsId d).
Proof.
  intros Hf. cbn zeta. unfold sendSMS.
  destruct (createSMS _ _ _ _ _ _ _ d) as [row d1] eqn:Hc.
  unfold createSMS in Hc. injection Hc as <- <-.
  assert (Hup : forall sid st,
    smsMessages (updateSMS (nextSmsId d) sid st
      {| patients := patients d; clinics := clinics d;
         appointments := appointments d; rides := rides d;
         smsMessages :=
           {| smsId := nextSmsId d;
              smsAppointmentId := orEmpty (or_else aid None);
              smsPhoneNumber := to; smsMessage := body; direction := OUTBOUND;
              smsStatus := SENT; twilioSid := None; createdAt := now |}
           :: smsMessages d;
         nextSmsId := S (nextSmsId d);
         noShowHistory := noShowHistory d; aiRiskCache := aiRiskCache d |})
    = {| smsId := nextSmsId d;
         smsAppointmentId := orEmpty (or_else aid None);
         smsPhoneNumber := to; smsMessage := body; direction := OUTBOUND;
         smsStatus := st; twilioSid := sid; createdAt := now |}
      :: smsMessages d).
  { intros sid st. rewrite updateSMS_rows. cbn [smsMessages map smsId].
    rewrite Nat.eqb_refl. rewrite update_above_ids by exact Hf.
    by destruct sid. }
  destruct isTestMode; [|destruct (transport now to body)];
    cbn [fst snd success smsId]; rewrite Hup; done.
Qed.

(** X9. Every send attempt leaves exactly one new outbound row at the
    head of the message log and changes no older row (message ids
    being drawn from the counter). The row carries the recipient, the
    text, the time and the appointment. In test mode it is DELIVERED
    and stamped with a TEST_ id; otherwise it is DELIVERED with the
    provider's message id when the transport returned one, and FAILED
    without an id when the transport threw. The send succeeds exactly
    in test mode or when the transport returns an id, and fails
    exactly when it reports an error. *)
Theorem every_send_attempt_is_logged now to body aid d :
  smsIdsFresh d ->
  let res := (sendSMS isTestMode transport showTime now to body aid d).1 in
  let d' := (sendSMS isTestMode transport showTime now to body aid d).2 in
  (exists row,
     smsMessages d' = row :: smsMessages d /\
     direction row = OUTBOUND /\ smsPhoneNumber row = to /\
     smsMessage row = body /\ createdAt row = now /\
     smsAppointmentId row = orEmpty (or_else aid None) /\
     (isTestMode = true ->
        twilioSid row = Some ("TEST_" +:+ showTime now) /\
        smsStatus row = DELIVERED) /\
     (forall sid, isTestMode = false -> transport now to body = inr sid ->
        twilioSid row = Some sid /\ smsStatus row = DELIVERED) /\
     (forall e, isTestMode = false -> transport now to body = inl e ->
        twilioSid row = None /\ smsStatus row = FAILED /\
        error res = Some e) /\
     smsStatus row = (if success res then DELIVERED else FAILED)) /\
  (success res = true <->
     isTestMode = true \/ exists sid, transport now to body = inr sid) /\
  (success res = false <-> exists e, error res = Some e) /\
  smsIdsFresh d'.
Proof.
  intros Hf. cbn zeta.
  destruct (sendSMS_row now to body aid d Hf) as [Hrows Hnext].
  assert (Hres : (sendSMS isTestMode transport showTime now to body aid d).1
    = if isTestMode then {| success := true; error := None |}
      else match transport now to body with
           | inr _ => {| success := true; error := None |}
           | inl e => {| success := false; error := Some e |}
           end).
  { unfold sendSMS. destruct (createSMS _ _ _ _ _ _ _ d) as [row d1].
    destruct isTestMode; [done|]. by destruct (transport now to body). }
  split; [|split; [|split]].
  - eexists. split; [exact Hrows|]. cbn [direction smsPhoneNumber smsMessage
      createdAt smsAppointmentId twilioSid smsStatus].
    split_and!; try done.
    + intros ->. rewrite Hres. done.
    + intros sid -> Ht. rewrite Hres, Ht. done.
    + intros e -> Ht. rewrite Hres, Ht. done.
  - rewrite Hres. destruct isTestMode; cbn; [by split; auto|].
    destruct (transport now to body); cbn.
    + split; [done|]. by intros [|[? ?]].
    + split; [|done]. intros _. right. by eexists.
  - rewrite Hres. destruct isTestMode; cbn; [by split; [|intros [? ?]]|].
    destruct (transport now to body); cbn.
    + split; [by eexists|done].
    + by split; [|intros [? ?]].
  - intros m Hm. rewrite Hrows in Hm. rewrite Hnext.
    apply elem_of_cons in Hm as [->|Hm]; cbn; [lia|].
    specialize (Hf m Hm). lia.
Qed.
End Send.

Lemma offeredDB_fresh : smsIdsFresh Fixtures.offeredDB.
Proof.
  intros m Hm. cbn in Hm. apply list_elem_of_singleton in Hm. subst. cbn. lia.
Qed.

Lemma every_send_attempt_is_logged_witness :
  smsIdsFresh Fixtures.offeredDB /\
  let d' := (sendSMS false Fixtures.noTransport Fixtures.noFormat Fixtures.t0
               "+15551234567" "hello" (Some "a1") Fixtures.offeredDB).2 in
  smsStatus <$> head (smsMessages d') = Some FAILED /\ smsIdsFresh d'.
Proof.
  split; [exact offeredDB_fresh|].
  pose proof (every_send_attempt_is_logged false Fixtures.noTransport
    Fixtures.noFormat Fixtures.t0 "+15551234567" "hello" (Some "a1")
    Fixtures.offeredDB offeredDB_fresh)
    as ((row & Hrows & _ & _ & _ & _ & _ & _ & _ & Hfail & _) & _ & _ & H).
  cbn zeta in *. split; [|exact H].
  rewrite Hrows. cbn [head fmap option_fmap option_map].
  by destruct (Hfail "transport down" eq_refl eq_refl) as (_ & -> & _).
Defined.

End MessageLog.

(** ** Delivery callbacks, manual sends and simulated replies *)

Section Callbacks.
Import RiskScore Store TwilioService Scheduler Routes Jobs MoreRoutes MoreProps.

Lemma hasSid_spec sid m : hasSid sid m = true <-> twilioSid m = Some sid.
Proof.
  unfold hasSid. destruct (twilioSid m) as [s|]; [|done].
  rewrite String.eqb_eq. split; congruence.
Qed.

Lemma hasSid_setSmsStatus sid st m : hasSid sid (setSmsStatus st m) = hasSid sid m.
Proof. reflexivity. Qed.

Lemma dbStatusOf_range st :
  dbStatusOf st ∈ ["DELIVERED"; "READ"; "SENT"; "FAILED"].
Proof. unfold dbStatusOf. repeat case_match; set_solver. Qed.

Local Abbreviation stamp sid st :=
  (fun m => if hasSid sid m then setSmsStatus (dbStatusOf st) m else m).

Lemma filter_hasSid_stamp sid st l :
  List.filter (hasSid sid) (map (stamp sid st) l)
  = map (setSmsStatus (dbStatusOf st)) (List.filter (hasSid sid) l).
Proof.
  induction l as [|m l IH]; [done|]. cbn [map List.filter].
  destruct (hasSid sid m) eqn:E.
  - rewrite hasSid_setSmsStatus, E. cbn [map]. by rewrite IH.
  - by rewrite E.
Qed.

Lemma stamp_stamp sid st1 st2 l :
  map (stamp sid st2) (map (stamp sid st1) l) = map (stamp sid st2) l.
Proof.
  rewrite map_map. apply map_ext. intros m.
  destruct (hasSid sid m) eqn:E; [|by rewrite E].
  by rewrite hasSid_setSmsStatus, E.
Qed.

(** X10. A delivery callback maps the provider's status to one of
    DELIVERED, READ, SENT and FAILED and stamps it on the rows that
    carry the callback's message id: those rows end with the mapped
    status whatever they had before, all other rows and every other
    column are untouched, and an event is emitted exactly when some row
    matched. The last callback wins: a later callback yields the same
    store and event as if the earlier one had not happened. *)
Theorem delivery_callback_restamps_matching_rows MessageSid st d :
  let d' := (statusWebhook MessageSid st d).1 in
  let evs := (statusWebhook MessageSid st d).2 in
  dbStatusOf st ∈ ["DELIVERED"; "READ"; "SENT"; "FAILED"] /\
  (forall m', m' ∈ smsMessages d' -> twilioSid m' = Some MessageSid ->
     smsStatus m' = dbStatusOf st) /\
  (forall m, m ∈ smsMessages d -> twilioSid m <> Some MessageSid ->
     m ∈ smsMessages d') /\
  map (fun m => (smsId m, smsAppointmentId m, smsPhoneNumber m, smsMessage m,
                 direction m, twilioSid m, createdAt m)) (smsMessages d')
  = map (fun m => (smsId m, smsAppointmentId m, smsPhoneNumber m, smsMessage m,
                   direction m, twilioSid m, createdAt m)) (smsMessages d) /\
  ((exists m, m ∈ smsMessages d /\ twilioSid m = Some MessageSid) ->
     exists i a, evs = [SMS_STATUS_UPDATE i a MessageSid (dbStatusOf st)]) /\
  ((forall m, m ∈ smsMessages d -> twilioSid m <> Some MessageSid) ->
     evs = [] /\ d' = d) /\
  (forall st2, statusWebhook MessageSid st2 d' = statusWebhook MessageSid st2 d) /\
  rides d' = rides d /\ appointments d' = appointments d /\
  nextSmsId d' = nextSmsId d /\ aiRiskCache d' = aiRiskCache d.
Proof.
  cbn zeta.
  assert (Hd : (statusWebhook MessageSid st d).1
               = set_smsMessages (map (stamp MessageSid st)) d).
  { unfold statusWebhook. by case_match. }
  rewrite Hd.
  split; [apply dbStatusOf_range|].
  split; [|split; [|split; [|split; [|split; [|split]]]]].
  - intros m' Hm' Hs. cbn in Hm'.
    apply list_elem_of_fmap in Hm' as (m & -> & _).
    destruct (hasSid MessageSid m) eqn:E; [done|].
    apply hasSid_spec in Hs. congruence.
  - intros m Hm Hs. cbn. apply list_elem_of_fmap. exists m. split; [|done].
    destruct (hasSid MessageSid m) eqn:E; [|done].
    apply hasSid_spec in E. congruence.
  - cbn. rewrite map_map. apply map_ext. intros m.
    by destruct (hasSid MessageSid m).
  - intros (m & Hm & Hs). unfold statusWebhook. cbn.
    rewrite filter_hasSid_stamp.
    destruct (List.filter (hasSid MessageSid) (smsMessages d)) as [|x l] eqn:E.
    + exfalso. apply hasSid_spec in Hs.
      assert (In m (List.filter (hasSid MessageSid) (smsMessages d))) as Hin.
      { apply filter_In. split; [by apply list_elem_of_In|done]. }
      by rewrite E in Hin.
    + cbn. by do 2 eexists.
  - intros Hno.
    assert (Hmap : map (stamp MessageSid st) (smsMessages d) = smsMessages d).
    { rewrite <- (map_id (smsMessages d)) at 2. apply map_ext_in.
      intros m Hm. destruct (hasSid MessageSid m) eqn:E; [|done].
      apply hasSid_spec in E. apply list_elem_of_In in Hm.
      by destruct (Hno m Hm). }
    unfold statusWebhook. cbn. rewrite Hmap.
    destruct (List.filter (hasSid MessageSid) (smsMessages d)) as [|x l] eqn:E.
    + split; [done|]. unfold set_smsMessages. rewrite Hmap. by destruct d.
    + exfalso. assert (In x (List.filter (hasSid MessageSid) (smsMessages d)))
        as Hin by (rewrite E; by left).
      apply filter_In in Hin as [Hin Hx]. apply hasSid_spec in Hx.
      apply list_elem_of_In in Hin. by destruct (Hno x Hin).
  - intros st2. unfold statusWebhook. cbn.
    rewrite !stamp_stamp. rewrite !filter_hasSid_stamp.
    unfold set_smsMessages. cbn. by rewrite stamp_stamp.
  - done.
Qed.

Section Manual.
Variable isTestMode : bool.
Variable transport : Z -> string -> string -> string + string.
Variable showTime : Z -> string.
Variable claudeTestMode : bool.
Variable classify : string -> option ClaudeService.Context
                    -> ClaudeService.IntentReply.

Local Abbreviation post := (sendRoute isTestMode transport showTime).
Local Abbreviation simulate :=
  (simulateReply showTime claudeTestMode classify).

Lemma or_else_None_spec a s : or_else a None = Some s <-> a = Some s /\ s <> "".
Proof.
  unfold or_else. destruct a as [x|]; cbn; [|by split; [|intros [? _]]].
  destruct (String.eqb_spec x ""); cbn.
  - split; [done|]. intros [[= ->] ?]. done.
  - split; [intros [= ->]; done|]. by intros [? _].
Qed.

Lemma or_else_None_idem a : or_else (or_else a None) None = or_else a None.
Proof. unfold or_else. destruct (truthy a) eqn:E; [by rewrite E|done]. Qed.

(** X11. The manual send route answers 400 MISSING_FIELDS, and logs
    nothing, exactly when the phone number or the message is missing
    or empty. Otherwise it answers 200 whatever the transport does:
    a transport failure only shows in the success flag and in the
    error code SMS_FAILED, and exactly one row is added to the log. *)
Theorem manual_send_answers_200_whatever_the_transport
    now phoneNumber message appointmentId d :
  let resp := (post now phoneNumber message appointmentId d).1 in
  let d' := (post now phoneNumber message appointmentId d).2 in
  (httpStatus resp = 400 <->
     ~ (exists p b, phoneNumber = Some p /\ p <> "" /\
                    message = Some b /\ b <> "")) /\
  (httpStatus resp = 400 ->
     resp = respond 400 false (Some "MISSING_FIELDS") /\ d' = d) /\
  (forall p b, phoneNumber = Some p -> p <> "" -> message = Some b -> b <> "" ->
     let res := (sendSMS isTestMode transport showTime now p b appointmentId d).1 in
     httpStatus resp = 200 /\ ok resp = success res /\
     (success res = true -> errorCode resp = None) /\
     (errorCode resp = Some "SMS_FAILED" \/ errorCode resp = None) /\
     d' = (sendSMS isTestMode transport showTime now p b appointmentId d).2 /\
     length (smsMessages d') = S (length (smsMessages d))).
Proof.
  cbn zeta. unfold sendRoute.
  destruct (or_else phoneNumber None) as [p|] eqn:Hp.
  2:{ cbn. split; [split; [|done]|split; [done|]].
      - intros _ (p & b & -> & Hne & _).
        assert (or_else (Some p) None = Some p) by by apply or_else_None_spec.
        congruence.
      - intros p b -> Hne.
        assert (or_else (Some p) None = Some p) by by apply or_else_None_spec.
        congruence. }
  destruct (or_else message None) as [b|] eqn:Hb.
  2:{ cbn. split; [split; [|done]|split; [done|]].
      - intros _ (p' & b & _ & _ & -> & Hne).
        assert (or_else (Some b) None = Some b) by by apply or_else_None_spec.
        congruence.
      - intros p' b _ _ -> Hne.
        assert (or_else (Some b) None = Some b) by by apply or_else_None_spec.
        congruence. }
  apply or_else_None_spec in Hp as [-> Hp], Hb as [-> Hb].
  destruct (sendSMS isTestMode transport showTime now p b appointmentId d)
    as [res d1] eqn:Hs. cbn [fst snd httpStatus respond ok errorCode].
  split; [split; [done|]|split; [done|]].
  - intros H. exfalso. apply H. by exists p, b.
  - intros p' b' [= <-] _ [= <-] _. rewrite Hs. cbn [fst snd].
    repeat split; try done.
    + intros Hok. unfold sendSMS in Hs.
      destruct (createSMS _ _ _ _ _ _ _ d) as [row d2].
      destruct isTestMode; [by injection Hs as <- <-|].
      destruct (transport now p b); injection Hs as <- <-; [done|].
      by cbn in *.
    + destruct (truthy (error res)); auto.
    + replace d1 with (sendSMS isTestMode transport showTime now p b
                         appointmentId d).2 by by rewrite Hs.
      clear Hs. unfold sendSMS. destruct (createSMS _ _ _ _ _ _ _ d) as [row d2] eqn:Hc.
      unfold createSMS in Hc. injection Hc as <- <-.
      destruct isTestMode; [|destruct (transport now p b)]; cbn;
        by rewrite length_map.
Qed.

(** X12. A simulated reply is logged and parsed, never acted on: the
    route never changes a ride, an appointment, the provider's rides or
    the assessment cache, whatever the message says. A failing answer
    leaves the world as it was; a successful one adds one inbound row
    from the contact phone (filed under the appointment of the latest
    outbound message to that phone, not under the requested one) and
    one SMS_RECEIVED event for the requested appointment with the
    parsed intent of the message (default YES, parsed without
    context). *)
Theorem simulated_reply_is_logged_but_never_acted_on now appointmentId message w :
  let resp := (simulate now appointmentId message w).1.1 in
  let w' := (simulate now appointmentId message w).1.2 in
  let calls := (simulate now appointmentId message w).2 in
  let body := match message with Some m => m | None => "YES" end in
  rides (db w') = rides (db w) /\ appointments (db w') = appointments (db w) /\
  mockRides w' = mockRides w /\ aiRiskCache (db w') = aiRiskCache (db w) /\
  (ok resp = false -> w' = w /\ calls = []) /\
  (ok resp = true ->
     exists aid phone a p row,
       appointmentId = Some aid /\ appointments (db w) !! aid = Some a /\
       patients (db w) !! apPatientId a = Some p /\
       contactPhone p = Some phone /\
       smsMessages (db w') = row :: smsMessages (db w) /\
       direction row = INBOUND /\ smsPhoneNumber row = phone /\
       smsMessage row = body /\
       smsAppointmentId row
         = orEmpty (or_else (smsAppointmentId <$> recentOutbound (db w) phone)
                            None) /\
       events w' = events w ++
         [SMS_RECEIVED aid phone body
            (ClaudeService.intent
               (ClaudeService.parsePatientResponse claudeTestMode classify
                  body None).1)
            (ClaudeService.confidence
               (ClaudeService.parsePatientResponse claudeTestMode classify
                  body None).1)] /\
       calls = (ClaudeService.parsePatientResponse claudeTestMode classify
                  body None).2).
Proof.
  cbn zeta. unfold simulateReply.
  destruct (or_else appointmentId None) as [aid|] eqn:Ha; [|by cbn].
  apply or_else_None_spec in Ha as [-> Ha].
  destruct (appointments (db w) !! aid) as [a|] eqn:Hap; [|by cbn].
  destruct (patients (db w) !! apPatientId a) as [p|] eqn:Hpa; [|by cbn].
  destruct (contactPhone p) as [phone|] eqn:Hph; [|by cbn].
  destruct (truthy (Some phone)) eqn:Ht; [|by cbn].
  destruct (ClaudeService.parsePatientResponse claudeTestMode classify
              (match message with Some m => m | None => "YES" end) None)
    as [parsed calls] eqn:Hparse.
  cbn. repeat split; try done.
  intros _. exists aid, phone, a, p. eexists.
  repeat split; try done.
  cbn. by rewrite or_else_None_idem.
Qed.
End Manual.

End Callbacks.

(** ** Ride offers: the route and the sweep *)

Section OfferPaths.
Import RiskScore Store AIRiskScore TwilioService Scheduler Routes MoreProps.
Variable isTestMode : bool.
Variable transport : Z -> string -> string -> string + string.
Variable formatDate : Z -> string.
Variable formatTime : Z -> string.
Variable showTime : Z -> string.

Local Abbreviation offer :=
  (offerRide isTestMode transport formatDate formatTime showTime).
Local Abbreviation offerStep :=
  (sendRideOfferTo isTestMode transport formatDate formatTime showTime).
Local Abbreviation offerSweep :=
  (sendRideOffers isTestMode transport formatDate formatTime showTime).
Local Abbreviation send := (sendSMS isTestMode transport showTime).

(** The recipient both paths compute is [patient.phoneNumber ||
    patient.caseWorkers[0]?.phoneNumber] whenever there is one. *)
Lemma target_is_contact p :
  let target :=
    if negb (truthy (phoneNumber p)) && (0 <? length (caseWorkers p))%nat
    then cwPhoneNumber <$> head (caseWorkers p) else phoneNumber p in
  truthy target = truthy (contactPhone p) /\
  (truthy target = true -> target = contactPhone p).
Proof.
  cbn zeta. unfold contactPhone, or_else.
  destruct (truthy (phoneNumber p)) eqn:Hp; cbn [negb andb].
  - by rewrite Hp.
  - destruct (caseWorkers p) as [|cw cws]; cbn; [by rewrite Hp|done].
Qed.

(** Both paths with a recipient: one send, then the bookkeeping. *)
Lemma offer_paths_general mode tr now id w a p c ph :
  patients (db w) !! apPatientId a = Some p ->
  clinics (db w) !! apClinicId a = Some c ->
  contactPhone p = Some ph -> ph <> "" ->
  exists body,
    let res := (sendSMS mode tr showTime now ph body (Some id) (db w)).1 in
    let w1 := withDB (fun _ =>
                (sendSMS mode tr showTime now ph body (Some id) (db w)).2) w in
    let flagged := withDB (set_appointments (alter setRideOfferSent id)) w1 in
    (appointments (db w) !! id = Some a ->
     offerRide mode tr formatDate formatTime showTime now id w =
       (if success res
        then (respond 200 true None,
              emit (RIDE_OFFER_SENT id ph) (withDB (invalidateCache id) flagged))
        else (respond 200 false
                (if truthy (error res) then Some "SMS_FAILED" else None),
              w1))) /\
    sendRideOfferTo mode tr formatDate formatTime showTime now w (id, a) =
      (if success res then emit (RIDE_OFFER_SENT id ph) flagged else w1).
Proof.
  intros Hp Hc Hph Hne.
  pose proof (target_is_contact p) as [Ht Heq]. cbn zeta in Ht, Heq.
  apply truthy_Some in Hne. rewrite Hph, Hne in Ht.
  specialize (Heq Ht). rewrite Hph in Heq.
  assert (Hcw : (if negb (truthy (phoneNumber p))
                    && (0 <? length (caseWorkers p))%nat
                 then Some ph else None)
                = (if negb (truthy (phoneNumber p)) then Some ph else None)).
  { destruct (truthy (phoneNumber p)) eqn:E; cbn [negb andb]; [done|].
    destruct (0 <? length (caseWorkers p))%nat eqn:E2; [done|].
    cbn [negb andb] in Heq. rewrite Heq in E. congruence. }
  set (cw := if negb (truthy (phoneNumber p)) then Some ph else None) in *.
  assert (Hor : or_else cw (phoneNumber p) = Some ph).
  { subst cw. destruct (truthy (phoneNumber p)) eqn:E; cbn [negb].
    - cbn [negb andb] in Heq. by rewrite Heq.
    - unfold or_else. by rewrite Hne. }
  assert (Hsend : exists body, forall d,
            sendRideOffer mode tr formatDate formatTime showTime
              now id a p (clinicName c) cw d
            = sendSMS mode tr showTime now ph body (Some id) d).
  { unfold sendRideOffer. rewrite Hor, Hne. cbn [negb]. eexists.
    intros d. reflexivity. }
  destruct Hsend as [body Hsend]. exists body. cbn zeta. split.
  - intros Ha. unfold offerRide. rewrite Ha, Hp, Hc, Heq, Hne. cbn [negb].
    rewrite Hcw, Hsend.
    destruct (sendSMS _ _ _ now ph body (Some id) (db w)) as [res d1].
    cbn [fst snd orEmpty]. by destruct (success res).
  - unfold sendRideOfferTo. rewrite Hp, Hc, Heq, Hne. cbn [negb].
    fold cw. rewrite Hsend.
    destruct (sendSMS _ _ _ now ph body (Some id) (db w)) as [res d1].
    cbn [fst snd orEmpty]. by destruct (success res).
Qed.

Lemma offer_paths_reachable now id w a p c ph :
  patients (db w) !! apPatientId a = Some p ->
  clinics (db w) !! apClinicId a = Some c ->
  contactPhone p = Some ph -> ph <> "" ->
  exists body,
    let res := (send now ph body (Some id) (db w)).1 in
    let w1 := withDB (fun _ => (send now ph body (Some id) (db w)).2) w in
    let flagged := withDB (set_appointments (alter setRideOfferSent id)) w1 in
    (appointments (db w) !! id = Some a ->
     offer now id w =
       (if success res
        then (respond 200 true None,
              emit (RIDE_OFFER_SENT id ph) (withDB (invalidateCache id) flagged))
        else (respond 200 false
                (if truthy (error res) then Some "SMS_FAILED" else None),
              w1))) /\
    offerStep now w (id, a) =
      (if success res then emit (RIDE_OFFER_SENT id ph) flagged else w1).
Proof. apply offer_paths_general. Qed.

(** X13. Error paths of the offer route. An unknown appointment is
    answered 404 and a patient who cannot be reached (no phone of their
    own and no caseworker phone) 400 NO_PHONE, both without any change
    to the world. With a recipient the answer is always 200; in test
    mode it succeeds; a success announces the offer to that recipient
    and sets the offer flag (the world is the one the route leaves
    when it answers). The answer is a failure only outside test
    mode, when the transport threw on the offer text: it then carries
    the code SMS_FAILED if the error has a non-empty message and no
    error code if the message is empty, and the appointments, the
    events and the cache are as they were, only the failed message
    being logged. *)
Theorem failed_offer_leaves_the_appointment_untouched now id w :
  let resp := (offerRide isTestMode transport formatDate formatTime showTime
                 now id w).1 in
  let w' := (offerRide isTestMode transport formatDate formatTime showTime
               now id w).2 in
  (appointments (db w) !! id = None ->
     resp = respond 404 false (Some "NOT_FOUND") /\ w' = w) /\
  (forall a p c,
     appointments (db w) !! id = Some a ->
     patients (db w) !! apPatientId a = Some p ->
     clinics (db w) !! apClinicId a = Some c ->
     (truthy (contactPhone p) = false ->
        resp = respond 400 false (Some "NO_PHONE") /\ w' = w) /\
     (truthy (contactPhone p) = true ->
        httpStatus resp = 200 /\
        (isTestMode = true -> ok resp = true) /\
        (ok resp = true ->
           events w' = events w ++
             [RIDE_OFFER_SENT id (orEmpty (contactPhone p))] /\
           rideOfferSent <$> appointments (db w') !! id = Some true) /\
        (ok resp = false ->
           isTestMode = false /\
           (exists body e,
              transport now (orEmpty (contactPhone p)) body = inl e /\
              (e <> "" -> resp = respond 200 false (Some "SMS_FAILED")) /\
              (e = "" -> resp = respond 200 false None)) /\
           appointments (db w') = appointments (db w) /\
           events w' = events w /\
           aiRiskCache (db w') = aiRiskCache (db w) /\
           length (smsMessages (db w')) = S (length (smsMessages (db w)))))).
Proof.
  cbn zeta. split.
  - intros Ha. unfold offerRide. by rewrite Ha.
  - intros a p c Ha Hp Hc. split.
    + intros Hno. unfold offerRide. rewrite Ha, Hp, Hc.
      destruct (target_is_contact p) as [Ht _]. cbn zeta in Ht.
      rewrite Hno in Ht. by rewrite Ht.
    + intros Hyes. destruct (contactPhone p) as [ph|] eqn:Hph; [|done].
      assert (ph <> "") as Hne by by apply truthy_Some.
      destruct (offer_paths_reachable now id w a p c ph Hp Hc Hph Hne)
        as (body & Hroute & _). cbn zeta in Hroute. rewrite (Hroute Ha).
      cbn [orEmpty]. clear Hroute.
      unfold sendSMS.
      destruct (createSMS _ _ _ _ _ _ _ (db w)) as [row d1] eqn:Ecr.
      unfold createSMS in Ecr. injection Ecr as <- <-.
      destruct isTestMode.
      { cbn. repeat split; try done. by rewrite lookup_alter_eq, Ha. }
      destruct (transport now ph body) as [e|sid] eqn:Etr; cbn.
      * split_and!; try done.
        intros _. split_and!; try done; [|by rewrite length_map].
        exists body, e. split; [done|].
        unfold truthy. destruct (String.eqb_spec e ""); split; intros; done.
      * repeat split; try done. by rewrite lookup_alter_eq, Ha.
Qed.


Lemma offerCandidates_spec now d id a :
  (id, a) ∈ offerCandidates now d
  <-> appointments d !! id = Some a /\ dueForOffer now a = true.
Proof.
  unfold offerCandidates. rewrite list_elem_of_In, filter_In.
  rewrite <- list_elem_of_In, elem_of_map_to_list. done.
Qed.

Lemma setRideOfferSent_twice (x : option Appointment) :
  setRideOfferSent <$> (setRideOfferSent <$> x) = setRideOfferSent <$> x.
Proof. by destruct x. Qed.

Lemma offersOnly_refl ids w : offersOnly ids w w.
Proof.
  repeat split; try done; [by left| |lia].
  exists []. by rewrite app_nil_r.
Qed.

Lemma offerStep_only now w id a : offersOnly [id] w (offerStep now w (id, a)).
Proof.
  destruct (patients (db w) !! apPatientId a) as [p|] eqn:Hp.
  2:{ unfold sendRideOfferTo. rewrite Hp. apply offersOnly_refl. }
  destruct (clinics (db w) !! apClinicId a) as [c|] eqn:Hc.
  2:{ unfold sendRideOfferTo. rewrite Hp, Hc. apply offersOnly_refl. }
  destruct (truthy (contactPhone p)) eqn:Ht.
  2:{ destruct (target_is_contact p) as [Ht' _]. cbn zeta in Ht'.
      rewrite Ht in Ht'. unfold sendRideOfferTo. rewrite Hp, Hc, Ht'.
      apply offersOnly_refl. }
  destruct (contactPhone p) as [ph|] eqn:Hph; [|done].
  assert (ph <> "") as Hne by by apply truthy_Some.
  destruct (offer_paths_reachable now id w a p c ph Hp Hc Hph Hne)
    as (body & _ & Hstep). cbn zeta in Hstep. rewrite Hstep.
  pose proof (sendSMS_frame isTestMode transport showTime now ph body
                (Some id) (db w)) as (Hr & Ha & Hpa & Hcl & Hcache & Hh).
  cbn zeta in *.
  assert (Hlen : length (smsMessages
                   (sendSMS isTestMode transport showTime now ph body
                      (Some id) (db w)).2)
                 = S (length (smsMessages (db w)))).
  { unfold sendSMS.
    destruct (createSMS _ _ _ _ _ _ _ (db w)) as [row d2] eqn:Ecr.
    unfold createSMS in Ecr. injection Ecr as <- <-.
    destruct isTestMode; [|destruct (transport now ph body)]; cbn;
      by rewrite length_map. }
  destruct (sendSMS _ _ _ now ph body (Some id) (db w)) as [res d1].
  cbn [fst snd] in *.
  destruct (success res); cbn.
  - unfold offersOnly. cbn. rewrite Ha.
    split; [done|]. split; [done|]. split; [done|]. split; [done|].
    split; [done|]. split; [done|]. split; [|split].
    + intros k. destruct (decide (k = id)) as [->|Hk].
      * right. split; [by apply list_elem_of_singleton|]. by rewrite lookup_alter_eq.
      * left. by rewrite lookup_alter_ne.
    + eexists. split; [done|]. constructor; [|constructor].
      exists id, ph. split; [done|]. split; [by apply list_elem_of_singleton|].
      by rewrite lookup_alter_eq.
    + lia.
  - unfold offersOnly. cbn. rewrite Ha.
    repeat split; try done; [by left| |lia].
    exists []. by rewrite app_nil_r.
Qed.

Lemma offersOnly_trans id ids w w1 w2 :
  offersOnly [id] w w1 -> offersOnly ids w1 w2 -> offersOnly (id :: ids) w w2.
Proof.
  intros (Hp1 & Hc1 & Hr1 & Hk1 & Hh1 & Hm1 & Ha1 & (evs1 & He1 & Hf1) & Hl1)
         (Hp2 & Hc2 & Hr2 & Hk2 & Hh2 & Hm2 & Ha2 & (evs2 & He2 & Hf2) & Hl2).
  assert (Hstay : forall k,
    appointments (db w1) !! k = setRideOfferSent <$> appointments (db w) !! k ->
    appointments (db w2) !! k = setRideOfferSent <$> appointments (db w) !! k).
  { intros k Hk. destruct (Ha2 k) as [E|[_ E]]; rewrite E, Hk; [done|].
    apply setRideOfferSent_twice. }
  unfold offersOnly.
  split; [congruence|]. split; [congruence|]. split; [congruence|].
  split; [congruence|]. split; [congruence|]. split; [congruence|].
  split; [|split].
  - intros k. destruct (Ha1 k) as [E1|[Hin1 E1]].
    + destruct (Ha2 k) as [E2|[Hin2 E2]].
      * left. congruence.
      * right. split; [by apply elem_of_cons; right|]. congruence.
    + right. apply list_elem_of_singleton in Hin1 as ->.
      split; [by apply elem_of_cons; left|]. by apply Hstay.
  - exists (evs1 ++ evs2). split.
    { rewrite He2, He1. by rewrite app_assoc. }
    apply Forall_app. split.
    + eapply Forall_impl; [exact Hf1|]. cbn.
      intros e (k & ph & -> & Hin & E). exists k, ph.
      apply list_elem_of_singleton in Hin as ->.
      split; [done|]. split; [by apply elem_of_cons; left|]. by apply Hstay.
    + eapply Forall_impl; [exact Hf2|]. cbn.
      intros e (k & ph & -> & Hin & E). exists k, ph.
      split; [done|]. split; [by apply elem_of_cons; right|].
      rewrite E. destruct (Ha1 k) as [E1|[_ E1]]; rewrite E1; [done|].
      apply setRideOfferSent_twice.
  - cbn in *. lia.
Qed.

Lemma offerFold_only now l : forall w,
  offersOnly (l.*1) w (foldl (offerStep now) w l).
Proof.
  induction l as [|[id a] l IH]; intros w; [apply offersOnly_refl|].
  cbn [foldl fmap list_fmap fst]. eapply offersOnly_trans; [|apply IH].
  apply offerStep_only.
Qed.

(** X15. A run of the offer sweep changes nothing but the message log
    and the offer flags of its candidates. Every offer it announces is
    for a candidate whose flag is set afterwards; whoever is a
    candidate after the run (at any time) was one before and was not
    announced in this run; and in test mode every candidate with a
    patient that can be reached is flagged after the run. *)
Theorem offer_sweep_only_flags_what_it_offered now w :
  let w' := offerSweep now w in
  let ids := (offerCandidates now (db w)).*1 in
  offersOnly ids w w' /\
  (forall id ph,
     RIDE_OFFER_SENT id ph ∈ drop (length (events w)) (events w') ->
     rideOfferSent <$> appointments (db w') !! id = Some true) /\
  (forall now' id a',
     (id, a') ∈ offerCandidates now' (db w') ->
     (id, a') ∈ offerCandidates now' (db w) /\
     forall ph, RIDE_OFFER_SENT id ph ∉ drop (length (events w)) (events w')) /\
  (isTestMode = true ->
   forall id a p c,
     (id, a) ∈ offerCandidates now (db w) ->
     patients (db w) !! apPatientId a = Some p ->
     clinics (db w) !! apClinicId a = Some c ->
     truthy (contactPhone p) = true ->
     rideOfferSent <$> appointments (db w') !! id = Some true).
Proof.
  cbn zeta. unfold sendRideOffers.
  pose proof (offerFold_only now (offerCandidates now (db w)) w) as Hrel.
  set (w' := foldl _ _ _) in *.
  assert (Hsome : forall id, id ∈ (offerCandidates now (db w)).*1 ->
                    is_Some (appointments (db w) !! id)).
  { intros id Hin. apply list_elem_of_fmap in Hin as ([k a] & -> & Hin).
    apply offerCandidates_spec in Hin as [Hin _]. by eexists. }
  assert (Hflag : forall id ph,
            RIDE_OFFER_SENT id ph ∈ drop (length (events w)) (events w') ->
            rideOfferSent <$> appointments (db w') !! id = Some true).
  { intros id ph Hin.
    destruct Hrel as (_ & _ & _ & _ & _ & _ & _ & (evs & He & Hf) & _).
    rewrite He, drop_app_length in Hin.
    rewrite Forall_forall in Hf.
    destruct (Hf _ Hin) as (k & ph' & [= <- <-] & Hk & E).
    rewrite E. destruct (Hsome id Hk) as [a ->]. done. }
  split; [exact Hrel|]. split; [exact Hflag|]. split.
  - intros now' id a' Hin. apply offerCandidates_spec in Hin as [Hin Hdue].
    assert (Hoff : rideOfferSent a' = false).
    { unfold dueForOffer in Hdue. apply andb_prop in Hdue as [_ H].
      by apply negb_true_iff in H. }
    split.
    + apply offerCandidates_spec. split; [|done].
      destruct Hrel as (_ & _ & _ & _ & _ & _ & Ha & _).
      destruct (Ha id) as [E|[_ E]]; [congruence|].
      rewrite Hin in E. destruct (appointments (db w) !! id) as [a|]; [|done].
      injection E as ->. done.
    + intros ph Hev. specialize (Hflag id ph Hev). rewrite Hin in Hflag.
      cbn in Hflag. congruence.
  - intros Htest id a p c Hin Hp Hc Ht.
    subst w'.
    assert (Hgen : forall l w0,
      (id, a) ∈ l -> patients (db w0) !! apPatientId a = Some p ->
      clinics (db w0) !! apClinicId a = Some c ->
      is_Some (appointments (db w0) !! id) ->
      rideOfferSent <$> appointments (db (foldl (offerStep now) w0 l)) !! id
      = Some true).
    { clear Hin Hp Hc Hrel Hsome Hflag.
      induction l as [|[k b] l IH]; intros w0 Hin0 Hp0 Hc0 Ha0; [by apply elem_of_nil in Hin0|].
      cbn [foldl].
      pose proof (offerStep_only now w0 k b)
        as (Hp1 & Hc1 & _ & _ & _ & _ & Ha1 & _).
      apply elem_of_cons in Hin0 as [[= <- <-]|Hin0].
      - destruct (contactPhone p) as [ph|] eqn:Hph; [|done].
        assert (ph <> "") as Hne by by apply truthy_Some.
        destruct (offer_paths_reachable now id w0 a p c ph Hp0 Hc0 Hph Hne)
          as (body & _ & Hstep). cbn zeta in Hstep.
        assert (Hok : success (sendSMS isTestMode transport showTime now ph
                                 body (Some id) (db w0)).1 = true).
        { unfold sendSMS. destruct (createSMS _ _ _ _ _ _ _ (db w0)).
          by rewrite Htest. }
        rewrite Hok in Hstep.
        pose proof (offerFold_only now l (offerStep now w0 (id, a)))
          as (_ & _ & _ & _ & _ & _ & Ha2 & _).
        destruct Ha0 as [a0 Ha0].
        assert (Hset : appointments (db (offerStep now w0 (id, a))) !! id
                       = Some (setRideOfferSent a0)).
        { rewrite Hstep. unfold emit, withDB. cbn [db].
          unfold set_appointments. cbn [appointments].
          pose proof (sendSMS_frame isTestMode transport showTime now ph body
                        (Some id) (db w0)) as (_ & Hsame & _).
          cbn zeta in Hsame. rewrite lookup_alter_eq, Hsame, Ha0. done. }
        destruct (Ha2 id) as [E|[_ E]]; rewrite E, Hset; done.
      - apply IH; [done|congruence|congruence|].
        destruct (Ha1 id) as [E|[_ E]]; rewrite E; [done|].
        by apply fmap_is_Some. }
    apply Hgen; try done.
    apply offerCandidates_spec in Hin as [Hin _]. by eexists.
Qed.

End OfferPaths.

Section OfferWitnesses.
Import RiskScore Store AIRiskScore TwilioService Scheduler Routes MoreProps.


End OfferWitnesses.

(** ** The status-sync sweep: what it stores and what it announces *)

Section SyncEffect.
Import RiskScore Store TwilioService UberHealth Scheduler Props MoreProps.
Variable isTestMode : bool.
Variable transport : Z -> string -> string -> string + string.
Variable showTime : Z -> string.

Local Abbreviation step := (updateRideStatus isTestMode transport showTime).
Local Abbreviation sweep := (updateRideStatuses isTestMode transport showTime).

Lemma step_frame p now w row :
  let w' := step p now w row in
  appointments (db w') = appointments (db w) /\
  patients (db w') = patients (db w) /\ clinics (db w') = clinics (db w) /\
  aiRiskCache (db w') = aiRiskCache (db w) /\
  noShowHistory (db w') = noShowHistory (db w).
Proof.
  destruct row as [id ride]. cbn zeta. unfold updateRideStatus.
  destruct (or_else (uberRideId ride) None) as [u|]; [|done].
  destruct (p u) as [us|]; [|done].
  destruct (negb _); [|done].
  destruct (String.eqb (status us) "arrived"); [|done].
  lazymatch goal with
  | |- context [patientOfRide ?d ride] => destruct (patientOfRide d ride) as [pt|]
  end; [|done].
  destruct (contactPhone pt) as [ph|]; [|done].
  destruct (truthy (Some ph)); [|done].
  cbn [db withDB emit withMock]. unfold sendDriverArriving.
  lazymatch goal with
  | |- context [sendSMS _ _ _ ?n ?t ?b ?a ?d] =>
      destruct (sendSMS_frame isTestMode transport showTime n t b a d)
        as (_ & -> & -> & -> & -> & ->)
  end.
  done.
Qed.

Lemma step_mock p now w row u :
  (asked p u row -> mockRides (step p now w row) !! u = p u) /\
  (~ asked p u row -> mockRides (step p now w row) !! u = mockRides w !! u).
Proof.
  destruct row as [id ride]. unfold asked, updateRideStatus. cbn [snd].
  destruct (or_else (uberRideId ride) None) as [u0|];
    [|split; [intros [? _]; done | done]].
  destruct (p u0) as [us|] eqn:Hp.
  2:{ split; [|done]. intros [[= ->] [x Hx]]. congruence. }
  assert (Hm : forall w1 : World,
    mockRides w1 = <[u0 := us]> (mockRides w) ->
    (Some u0 = Some u /\ is_Some (p u) -> mockRides w1 !! u = p u) /\
    (~ (Some u0 = Some u /\ is_Some (p u)) ->
     mockRides w1 !! u = mockRides w !! u)).
  { intros w1 ->. split.
    - intros [[= <-] _]. by rewrite lookup_insert_eq.
    - intros Hn. destruct (decide (u0 = u)) as [<-|Hne].
      + destruct Hn. split; [done|]. by rewrite Hp.
      + by rewrite lookup_insert_ne. }
  apply Hm.
  destruct (negb _); [|done].
  destruct (String.eqb (status us) "arrived"); [|done].
  lazymatch goal with
  | |- context [patientOfRide ?d ride] => destruct (patientOfRide d ride) as [pt|]
  end; [|done].
  destruct (contactPhone pt) as [ph|]; [|done].
  by destruct (truthy (Some ph)).
Qed.

Lemma step_events p now w row :
  events (step p now w row) = events w ++ syncEvents p row /\
  (length (smsMessages (db (step p now w row)))
   <= length (smsMessages (db w)) + length (syncEvents p row))%nat.
Proof.
  destruct row as [id ride]. unfold updateRideStatus, syncEvents. cbn [fst snd].
  destruct (or_else (uberRideId ride) None) as [u|];
    [|rewrite app_nil_r; cbn; split; [done|lia]].
  destruct (p u) as [us|]; [|rewrite app_nil_r; cbn; split; [done|lia]].
  destruct (String.eqb (newStatusFor us ride) (rdStatus ride)); cbn [negb].
  { rewrite app_nil_r. cbn. split; [done|lia]. }
  destruct (String.eqb (status us) "arrived"); [|cbn; split; [done|lia]].
  lazymatch goal with
  | |- context [patientOfRide ?d ride] => destruct (patientOfRide d ride) as [pt|]
  end; [|cbn; split; [done|lia]].
  destruct (contactPhone pt) as [ph|]; [|cbn; split; [done|lia]].
  destruct (truthy (Some ph)); [|cbn; split; [done|lia]].
  split; [done|].
  cbn [db withDB emit]. unfold sendDriverArriving, sendSMS.
  lazymatch goal with
  | |- context [createSMS ?a ?b ?c ?d ?e ?f ?g ?h] =>
      destruct (createSMS a b c d e f g h) as [row d1] eqn:Ecr
  end.
  unfold createSMS in Ecr. injection Ecr as <- <-.
  destruct isTestMode; [|destruct (transport _ _ _)]; cbn;
    rewrite length_map; cbn; lia.
Qed.

Lemma sweep_events p now l : forall w,
  events (foldl (step p now) w l) = events w ++ flat_map (syncEvents p) l /\
  (length (smsMessages (db (foldl (step p now) w l)))
   <= length (smsMessages (db w)) + length (flat_map (syncEvents p) l))%nat.
Proof.
  induction l as [|row l IH]; intros w.
  { cbn. rewrite app_nil_r. split; [done|lia]. }
  cbn [foldl flat_map].
  destruct (IH (step p now w row)) as [-> Hl].
  destruct (step_events p now w row) as [-> Hs].
  rewrite <- app_assoc. split; [done|]. rewrite length_app. lia.
Qed.

Lemma sweep_frame p now l : forall w,
  let w' := foldl (step p now) w l in
  appointments (db w') = appointments (db w) /\
  patients (db w') = patients (db w) /\ clinics (db w') = clinics (db w) /\
  aiRiskCache (db w') = aiRiskCache (db w) /\
  noShowHistory (db w') = noShowHistory (db w).
Proof.
  induction l as [|row l IH]; intros w; [done|].
  cbn [foldl]. cbn zeta.
  destruct (IH (step p now w row)) as (-> & -> & -> & -> & ->).
  apply step_frame.
Qed.

Lemma sweep_mock p now l u : forall w,
  ((exists row, row ∈ l /\ asked p u row) ->
     mockRides (foldl (step p now) w l) !! u = p u) /\
  ((forall row, row ∈ l -> ~ asked p u row) ->
     mockRides (foldl (step p now) w l) !! u = mockRides w !! u).
Proof.
  induction l as [|row l IH]; intros w.
  { split; [|done]. intros (row & Hin & _). by apply elem_of_nil in Hin. }
  cbn [foldl]. destruct (IH (step p now w row)) as [IH1 IH2].
  destruct (step_mock p now w row u) as [Hs1 Hs2].
  assert (Hdec : (exists row', row' ∈ l /\ asked p u row')
                 \/ (forall row', row' ∈ l -> ~ asked p u row')).
  { clear. induction l as [|x l IHl].
    - right. intros ? H. by apply elem_of_nil in H.
    - assert (Hx : asked p u x \/ ~ asked p u x).
      { unfold asked. destruct (or_else (uberRideId x.2) None) as [v|];
          [|right; intros [? _]; done].
        destruct (decide (v = u)) as [->|Hne];
          [|right; intros [[= ?] _]; done].
        destruct (p u); [left; split; [done|by eexists]
                        |right; intros [_ [? ?]]; done]. }
      destruct Hx as [Hx|Hx]; [left; exists x; split; [by left|done]|].
      destruct IHl as [(r & Hr & Ha)|IHl]; [left; exists r; split; [by right|done]|].
      right. intros r Hr. apply elem_of_cons in Hr as [->|Hr]; [done|by apply IHl]. }
  split.
  - intros (r & Hr & Ha). destruct Hdec as [Hl|Hl]; [by apply IH1|].
    rewrite (IH2 Hl). apply Hs1.
    apply elem_of_cons in Hr as [->|Hr]; [done|]. destruct (Hl r Hr Ha).
  - intros Hall. rewrite IH2 by (intros r Hr; apply Hall; by right).
    apply Hs2. apply Hall. by left.
Qed.

Lemma sweep_skips p now l : forall w id,
  NoDup (l.*1) ->
  (forall k r, (k, r) ∈ l -> rides (db w) !! k = Some r) ->
  id ∉ l.*1 ->
  rides (db (foldl (step p now) w l)) !! id = rides (db w) !! id.
Proof.
  induction l as [|[id0 r0] l IH]; intros w id Hnd Hl Hid; [done|].
  cbn in Hnd. apply NoDup_cons in Hnd as [Hid0 Hnd].
  cbn in Hid. apply not_elem_of_cons in Hid as [Hne Hid].
  assert (H0 : rides (db w) !! id0 = Some r0) by (apply Hl; left).
  pose proof (step_rides isTestMode transport showTime p now w id0 r0 H0) as Hstep.
  cbn [foldl]. rewrite IH; [|done| |done].
  - by rewrite Hstep, lookup_insert_ne.
  - intros k r Hin. rewrite Hstep, lookup_insert_ne.
    + apply Hl. by right.
    + intros <-. apply Hid0. apply list_elem_of_fmap. by exists (id0, r).
Qed.

Lemma sweep_steps p now l : forall w id r,
  NoDup (l.*1) ->
  (forall k r, (k, r) ∈ l -> rides (db w) !! k = Some r) ->
  (id, r) ∈ l ->
  rides (db (foldl (step p now) w l)) !! id = Some (rideAfter p r).
Proof.
  induction l as [|[id0 r0] l IH]; intros w id r Hnd Hl Hin.
  { by apply elem_of_nil in Hin. }
  cbn in Hnd. apply NoDup_cons in Hnd as [Hid0 Hnd].
  assert (H0 : rides (db w) !! id0 = Some r0) by (apply Hl; left).
  pose proof (step_rides isTestMode transport showTime p now w id0 r0 H0) as Hstep.
  assert (Hrest : forall k r', (k, r') ∈ l ->
            rides (db (step p now w (id0, r0))) !! k = Some r').
  { intros k r' Hk. rewrite Hstep, lookup_insert_ne.
    - apply Hl. by right.
    - intros <-. apply Hid0. apply list_elem_of_fmap. by exists (id0, r'). }
  cbn [foldl]. apply elem_of_cons in Hin as [[= -> ->]|Hin].
  - rewrite sweep_skips; [|done|done|done].
    by rewrite Hstep, lookup_insert_eq.
  - by apply IH.
Qed.

Lemma isActiveRide_spec r :
  isActiveRide r = true
  <-> rdStatus r = "SCHEDULED" \/ rdStatus r = "DRIVER_ASSIGNED"
      \/ rdStatus r = "IN_PROGRESS".
Proof.
  unfold isActiveRide. rewrite !orb_true_iff, !String.eqb_eq. tauto.
Qed.

(** X16. What the status-sync sweep stores. No ride is added or
    removed, and a ride keeps its appointment, provider id, pickup
    time, addresses and cost. A ride whose status is none of
    SCHEDULED, DRIVER_ASSIGNED and IN_PROGRESS (so every COMPLETED or
    CANCELLED ride), a ride without provider id and a ride unknown to
    the provider are left exactly as they are. A ride in one of the
    three statuses that the provider knows gets the status the
    provider's status stands for (scheduled: SCHEDULED;
    driver_assigned, en_route and arrived: DRIVER_ASSIGNED;
    in_progress: IN_PROGRESS; completed: COMPLETED; cancelled:
    CANCELLED; its own status for any other answer) and the provider's
    driver, and the provider's record of the ride is the answer it
    gave; the provider's records of rides it was not asked about are
    untouched. Appointments, patients and the assessment cache are
    not touched. *)
Theorem status_sync_stores_the_mapped_status p now w :
  let w' := updateRideStatuses isTestMode transport showTime p now w in
  (forall id, rides (db w) !! id = None -> rides (db w') !! id = None) /\
  (forall id r, rides (db w) !! id = Some r ->
     exists r',
       rides (db w') !! id = Some r' /\
       rdAppointmentId r' = rdAppointmentId r /\
       uberRideId r' = uberRideId r /\ pickupTime r' = pickupTime r /\
       pickupLocation r' = pickupLocation r /\
       dropoffLocation r' = dropoffLocation r /\
       estimatedCost r' = estimatedCost r /\
       (rdStatus r <> "SCHEDULED" -> rdStatus r <> "DRIVER_ASSIGNED" ->
        rdStatus r <> "IN_PROGRESS" -> r' = r) /\
       (rdStatus r = "COMPLETED" \/ rdStatus r = "CANCELLED" -> r' = r) /\
       (uberRideId r = None \/ uberRideId r = Some "" -> r' = r) /\
       (forall u, uberRideId r = Some u -> p u = None -> r' = r) /\
       (forall u us,
          rdStatus r = "SCHEDULED" \/ rdStatus r = "DRIVER_ASSIGNED"
          \/ rdStatus r = "IN_PROGRESS" ->
          uberRideId r = Some u -> u <> "" -> p u = Some us ->
          (status us = "scheduled" -> rdStatus r' = "SCHEDULED") /\
          (status us = "driver_assigned" \/ status us = "en_route"
           \/ status us = "arrived" -> rdStatus r' = "DRIVER_ASSIGNED") /\
          (status us = "in_progress" -> rdStatus r' = "IN_PROGRESS") /\
          (status us = "completed" -> rdStatus r' = "COMPLETED") /\
          (status us = "cancelled" -> rdStatus r' = "CANCELLED") /\
          (status us ∉ ["scheduled"; "driver_assigned"; "en_route"; "arrived";
                        "in_progress"; "completed"; "cancelled"] ->
             rdStatus r' = rdStatus r) /\
          (forall dr, driver us = Some dr ->
             vehicleInfo r' = Some (vehicle dr +:+ " (" +:+ license dr +:+ ")")) /\
          mockRides w' !! u = Some us)) /\
  (forall u,
     (forall id r us, rides (db w) !! id = Some r -> uberRideId r = Some u ->
        p u = Some us ->
        rdStatus r <> "SCHEDULED" /\ rdStatus r <> "DRIVER_ASSIGNED"
        /\ rdStatus r <> "IN_PROGRESS") ->
     mockRides w' !! u = mockRides w !! u) /\
  appointments (db w') = appointments (db w) /\
  patients (db w') = patients (db w) /\
  aiRiskCache (db w') = aiRiskCache (db w).
Proof.
  cbn zeta. unfold updateRideStatuses.
  pose proof (sweep_frame p now (activeRides (db w)) w)
    as (Ha & Hp & _ & Hc & _). cbn zeta in *.
  assert (Hl : forall k r, (k, r) ∈ activeRides (db w) ->
                 rides (db w) !! k = Some r).
  { intros k r Hin. by apply activeRides_spec in Hin as [? _]. }
  split; [|split; [|split; [|done]]].
  - intros id Hnone. rewrite sweep_skips; [done|apply activeRides_NoDup|done|].
    intros Hin. apply list_elem_of_fmap in Hin as ([k r] & Hk & Hin).
    cbn in Hk. subst k. apply Hl in Hin. congruence.
  - intros id r Hr.
    destruct (isActiveRide r) eqn:Hact.
    + assert (Hin : (id, r) ∈ activeRides (db w)) by by apply activeRides_spec.
      pose proof (proj1 (isActiveRide_spec r) Hact) as Hst.
      rewrite (sweep_steps p now _ w id r (activeRides_NoDup _) Hl Hin).
      eexists. split; [done|].
      unfold rideAfter.
      destruct (or_else (uberRideId r) None) as [u|] eqn:Hu.
      2:{ split_and!; try done.
          intros u us _ Hu' Hne _. exfalso. rewrite Hu' in Hu.
          unfold or_else in Hu. by rewrite (proj2 (truthy_Some u) Hne) in Hu. }
      assert (Hu' : uberRideId r = Some u /\ u <> "").
      { unfold or_else in Hu. destruct (truthy (uberRideId r)) eqn:Et; [|done].
        split; [done|]. rewrite Hu in Et. by apply truthy_Some. }
      destruct Hu' as [Hu' Hune].
      destruct (p u) as [us|] eqn:Hpu.
      2:{ split_and!; try done.
          intros u0 us0 _ H1 _ H2. assert (u0 = u) as -> by congruence.
          congruence. }
      assert (Hmap : forall v, lookupStatus statusMap (status us) = Some v ->
                newStatusFor us r = v).
      { intros v Hv. unfold newStatusFor. rewrite Hv.
        unfold or_else. by rewrite (mapped_status_truthy _ _ Hv). }
      split_and!; try done.
      * intros H1 H2 H3. exfalso. tauto.
      * intros [H|H]; exfalso; rewrite H in Hst;
          destruct Hst as [?|[?|?]]; discriminate.
      * intros [H|H]; congruence.
      * intros u0 H1 H2. assert (u0 = u) as -> by congruence. congruence.
      * intros u0 us0 _ H1 _ H2. assert (u0 = u) as -> by congruence.
        assert (us0 = us) as -> by congruence.
        cbn [rdStatus vehicleInfo syncedRide].
        split_and!.
        -- intros E. apply Hmap. by rewrite E.
        -- intros [E|[E|E]]; apply Hmap; by rewrite E.
        -- intros E. apply Hmap. by rewrite E.
        -- intros E. apply Hmap. by rewrite E.
        -- intros E. apply Hmap. by rewrite E.
        -- intros Hnot. unfold newStatusFor.
           assert (lookupStatus statusMap (status us) = None) as ->.
           { unfold statusMap; cbn [lookupStatus].
             repeat lazymatch goal with
             | |- context [String.eqb (status us) ?k] =>
                 destruct (String.eqb_spec (status us) k) as [E|_];
                 [exfalso; apply Hnot; rewrite E;
                  repeat first [apply list_elem_of_here | apply list_elem_of_further]|]
             end. done. }
           unfold or_else. cbn. by destruct (String.eqb (rdStatus r) "").
        -- intros dr Hdr. by rewrite Hdr.
        -- destruct (sweep_mock p now (activeRides (db w)) u w) as [Hm _].
           rewrite Hm; [done|]. exists (id, r). split; [done|].
           split; [exact Hu | by rewrite Hpu].
    + assert (Hst : ~ (rdStatus r = "SCHEDULED" \/ rdStatus r = "DRIVER_ASSIGNED"
                       \/ rdStatus r = "IN_PROGRESS")).
      { rewrite <- isActiveRide_spec. by rewrite Hact. }
      rewrite sweep_skips; [|apply activeRides_NoDup|done|].
      2:{ intros Hin. apply list_elem_of_fmap in Hin as ([k r0] & Hk & Hin).
          cbn in Hk. subst k.
          apply activeRides_spec in Hin as [Hk Hact0].
          rewrite Hr in Hk. injection Hk as <-. congruence. }
      exists r. split_and!; try done.
      all: intros; tauto.
  - intros u Hnot.
    destruct (sweep_mock p now (activeRides (db w)) u w) as [_ Hm].
    apply Hm. intros [id r] Hin [Hu [us Hpu]]. cbn [snd] in Hu.
    apply activeRides_spec in Hin as [Hr Hact].
    apply isActiveRide_spec in Hact.
    assert (Hu' : uberRideId r = Some u).
    { unfold or_else in Hu. by destruct (truthy (uberRideId r)). }
    destruct (Hnot id r us Hr Hu' Hpu) as (? & ? & ?).
    destruct Hact as [?|[?|?]]; done.
Qed.

(** X17. The status-sync sweep announces exactly the status changes:
    it emits one RIDE_STATUS_UPDATE for every active ride whose provider
    answer maps to another status than the ride has, with the old and
    the new status (which differ, the new one being the status stored
    afterwards), and no other event; it emits at most one event per
    active ride and sends at most one message per event. *)
Theorem status_sync_announces_exactly_the_changes p now w :
  let w' := sweep p now w in
  exists evs,
    events w' = events w ++ evs /\
    (forall e, e ∈ evs ->
       exists id r u us,
         e = RIDE_STATUS_UPDATE id (Some (rdAppointmentId r)) (rdStatus r)
               (newStatusFor us r) /\
         rides (db w) !! id = Some r /\ isActiveRide r = true /\
         uberRideId r = Some u /\ p u = Some us /\
         newStatusFor us r <> rdStatus r /\
         rdStatus <$> rides (db w') !! id = Some (newStatusFor us r)) /\
    (forall id r u us,
       rides (db w) !! id = Some r -> isActiveRide r = true ->
       uberRideId r = Some u -> u <> "" -> p u = Some us ->
       newStatusFor us r <> rdStatus r ->
       RIDE_STATUS_UPDATE id (Some (rdAppointmentId r)) (rdStatus r)
         (newStatusFor us r) ∈ evs) /\
    (length evs <= length (activeRides (db w)))%nat /\
    (length (smsMessages (db w'))
     <= length (smsMessages (db w)) + length evs)%nat.
Proof.
  cbn zeta. unfold updateRideStatuses.
  destruct (sweep_events p now (activeRides (db w)) w) as [He Hs].
  exists (flat_map (syncEvents p) (activeRides (db w))).
  assert (Hl : forall k r, (k, r) ∈ activeRides (db w) ->
                 rides (db w) !! k = Some r).
  { intros k r Hin. by apply activeRides_spec in Hin as [? _]. }
  split; [done|]. split; [|split; [|split; [|done]]].
  - intros e He'. apply list_elem_of_In, in_flat_map in He'
      as ([id r] & Hin & Hev).
    apply list_elem_of_In in Hin.
    pose proof Hin as Hin'. apply activeRides_spec in Hin' as [Hr Hact].
    unfold syncEvents in Hev. cbn [fst snd] in Hev.
    destruct (or_else (uberRideId r) None) as [u|] eqn:Hu; [|done].
    assert (Hu' : uberRideId r = Some u).
    { unfold or_else in Hu. by destruct (truthy (uberRideId r)). }
    destruct (p u) as [us|] eqn:Hpu; [|done].
    destruct (String.eqb_spec (newStatusFor us r) (rdStatus r)) as [|Hne];
      [done|].
    destruct Hev as [<-|[]].
    exists id, r, u, us. repeat split; try done.
    rewrite (sweep_steps p now _ w id r (activeRides_NoDup _) Hl Hin).
    unfold rideAfter. by rewrite Hu, Hpu.
  - intros id r u us Hr Hact Hu Hne Hpu Hch.
    apply list_elem_of_In, in_flat_map. exists (id, r). split.
    + apply list_elem_of_In. by apply activeRides_spec.
    + unfold syncEvents. cbn [fst snd]. rewrite Hu.
      assert (or_else (Some u) None = Some u) as ->.
      { unfold or_else. by rewrite (proj2 (truthy_Some u) Hne). }
      rewrite Hpu.
      destruct (String.eqb_spec (newStatusFor us r) (rdStatus r)); [done|].
      by left.
  - clear He Hs Hl. induction (activeRides (db w)) as [|row l IH]; [done|].
    cbn [flat_map]. rewrite length_app. cbn [length].
    assert (length (syncEvents p row) <= 1)%nat; [|lia].
    unfold syncEvents.
    destruct (or_else (uberRideId row.2) None) as [u|]; [|cbn; lia].
    destruct (p u) as [us|]; [|cbn; lia].
    destruct (String.eqb _ _); cbn; lia.
Qed.

End SyncEffect.

(** ** The inbound webhook: what a reply can and cannot change *)

Section Replies.
Import RiskScore Store TwilioService UberHealth Scheduler Routes MoreProps.
Variable isTestMode : bool.
Variable transport : Z -> string -> string -> string + string.
Variable formatDate : Z -> string.
Variable formatTime : Z -> string.
Variable showTime : Z -> string.
Variable toISOString : Z -> string.
Variable claudeTestMode : bool.
Variable classify : string -> option ClaudeService.Context
                    -> ClaudeService.IntentReply.
Variable phrase : string -> string -> string -> option string -> option string
                  -> option (option string).
Variable newUberRideId : World -> string.
Variable newRideId : World -> string.
Variable estimateCost : Clinic -> Q.

Local Abbreviation hook :=
  (webhook isTestMode transport formatDate formatTime showTime toISOString
     claudeTestMode classify phrase newUberRideId newRideId estimateCost).

Lemma sendSMS_length now to body aid d :
  length (smsMessages (sendSMS isTestMode transport showTime now to body aid d).2)
  = S (length (smsMessages d)) /\
  nextSmsId (sendSMS isTestMode transport showTime now to body aid d).2
  = S (nextSmsId d).
Proof.
  unfold sendSMS.
  destruct (createSMS _ _ _ _ _ _ _ d) as [row d2] eqn:Ecr.
  unfold createSMS in Ecr. injection Ecr as <- <-.
  destruct isTestMode; [|destruct (transport now to body)]; cbn;
    by rewrite length_map.
Qed.

Lemma generateResponse_calls msg date cname loc time :
  (length (ClaudeService.generateResponse claudeTestMode phrase msg date cname
             loc time).2 <= 1)%nat.
Proof.
  unfold ClaudeService.generateResponse. destruct claudeTestMode; cbn; lia.
Qed.

Lemma parsePatientResponse_calls msg ctx :
  (length (ClaudeService.parsePatientResponse claudeTestMode classify msg ctx).2
   <= 1)%nat.
Proof.
  unfold ClaudeService.parsePatientResponse.
  destruct (Qle_bool _ _); [cbn; lia|].
  destruct (negb claudeTestMode); [|cbn; lia].
  destruct (ClaudeService.parseWithClaude _ _ _); cbn; lia.
Qed.

(** X18. Whatever an inbound message says, the webhook leaves patients,
    clinics and the no-show history alone, and changes an appointment
    row in at most one of two ways: its status becomes CONFIRMED or its
    ride need becomes false. It logs the inbound message, sends at most
    one reply, and calls the inference provider at most twice (once to
    classify, once to phrase an answer). *)
Theorem reply_changes_an_appointment_in_two_ways_only now from body sid w :
  let w' := (hook now from body sid w).1 in
  let calls := (hook now from body sid w).2 in
  patients (db w') = patients (db w) /\ clinics (db w') = clinics (db w) /\
  noShowHistory (db w') = noShowHistory (db w) /\
  (forall k,
     appointments (db w') !! k = appointments (db w) !! k \/
     appointments (db w') !! k
       = setAppointmentStatus CONFIRMED <$> appointments (db w) !! k \/
     appointments (db w') !! k
       = setNeedsRide false <$> appointments (db w) !! k) /\
  (S (length (smsMessages (db w))) <= length (smsMessages (db w'))
   <= S (S (length (smsMessages (db w)))))%nat /\
  (length calls <= 2)%nat.
Proof.
  cbn zeta. unfold webhook, handleIncomingSMS.
  destruct (or_else (smsAppointmentId <$> recentOutbound (db w) from) None)
    as [aid|]; unfold createSMS; cbv beta iota zeta.
  2:{ cbn. split_and!; try done; try lia. by left. }
  cbn [withDB db].
  lazymatch goal with
  | |- context [appointments ?d !! aid] => destruct (appointments d !! aid) as [a|] eqn:Ha
  end; [|cbn; split_and!; try done; try lia; by left].
  lazymatch goal with
  | |- context [patients ?d !! ?k] => destruct (patients d !! k) as [p|]
  end; [|cbn; split_and!; try done; try lia; by left].
  lazymatch goal with
  | |- context [clinics ?d !! ?k] => destruct (clinics d !! k) as [c|]
  end; [|cbn; split_and!; try done; try lia; by left].
  lazymatch goal with
  | |- context [ClaudeService.parsePatientResponse ?a ?b ?c ?d] =>
      pose proof (parsePatientResponse_calls c d) as Hcalls;
      destruct (ClaudeService.parsePatientResponse a b c d) as [parsed calls]
  end.
  cbn [snd] in Hcalls.
  repeat lazymatch goal with
  | |- context [String.eqb ?a ?b] => destruct (String.eqb a b)
  | |- context [rideOfAppointment ?d ?k] => destruct (rideOfAppointment d k)
  | |- context [ClaudeService.generateResponse ?a ?b ?c ?d ?e ?f ?g] =>
      pose proof (generateResponse_calls c d e f g);
      destruct (ClaudeService.generateResponse a b c d e f g)
  end.
  all: cbn [bookRide withMock withDB emit db fst snd] in *.
  all: lazymatch goal with
  | |- context [truthy ?x] => destruct (truthy x)
  end.
  all: cbn [bookRide withMock withDB emit db fst snd].
  all: try lazymatch goal with
  | |- context [sendSMS _ _ _ ?n ?t ?b ?a ?d] =>
      destruct (sendSMS_frame isTestMode transport showTime n t b a d)
        as (_ & -> & -> & -> & _ & ->);
      destruct (sendSMS_length n t b a d) as [-> _]
  end.
  all: cbn [set_appointments set_rides appointments patients clinics
            noShowHistory smsMessages length].
  all: split_and!; try done; try lia; try rewrite length_app; try lia.
  all: intros k; first
    [ by left
    | destruct (decide (k = aid)) as [->|Hk];
      [rewrite lookup_alter_eq; auto | rewrite lookup_alter_ne by done; auto] ].
Qed.

Lemma rideOfAppointment_None d aid :
  rideOfAppointment d aid = None ->
  forall id r, rides d !! id = Some r -> rdAppointmentId r <> aid.
Proof.
  unfold rideOfAppointment. intros H id r Hr Heq.
  assert (In (id, r) (List.filter
            (fun kr : string * Ride => String.eqb (rdAppointmentId kr.2) aid)
            (map_to_list (rides d)))) as Hin.
  { apply filter_In. split.
    - apply list_elem_of_In. by apply elem_of_map_to_list.
    - cbn. by apply String.eqb_eq. }
  destruct (List.filter _ _); [done|discriminate].
Qed.

Lemma one_ride_insert (m : gmap string Ride) rid nr :
  (forall id1 id2 r1 r2, m !! id1 = Some r1 -> m !! id2 = Some r2 ->
     rdAppointmentId r1 = rdAppointmentId r2 -> id1 = id2) ->
  (forall id r, m !! id = Some r -> rdAppointmentId r <> rdAppointmentId nr) ->
  forall id1 id2 r1 r2,
    <[rid := nr]> m !! id1 = Some r1 -> <[rid := nr]> m !! id2 = Some r2 ->
    rdAppointmentId r1 = rdAppointmentId r2 -> id1 = id2.
Proof.
  intros Hone Hnone id1 id2 r1 r2 H1 H2 Heq.
  destruct (decide (id1 = rid)) as [->|N1];
    destruct (decide (id2 = rid)) as [->|N2]; [done| | |].
  - rewrite lookup_insert_eq in H1. rewrite lookup_insert_ne in H2 by done.
    injection H1 as <-. symmetry in Heq. by destruct (Hnone _ _ H2).
  - rewrite lookup_insert_eq in H2. rewrite lookup_insert_ne in H1 by done.
    injection H2 as <-. by destruct (Hnone _ _ H1).
  - rewrite lookup_insert_ne in H1, H2 by done. by eapply Hone.
Qed.

(** X19. The webhook keeps the rule that an appointment has at most
    one ride (ride ids being fresh). It never removes or alters a
    stored ride; a ride it adds is SCHEDULED, belongs to an appointment
    that had no ride, is picked up 45 minutes before the appointment
    and dropped at the appointment's clinic at the provider's cost
    estimate, is registered as scheduled with the provider, confirms
    the appointment and is announced by a RIDE_BOOKED event. *)
Theorem reply_books_at_most_one_ride_per_appointment now from body sid w :
  (forall w0, rides (db w0) = rides (db w) ->
     rides (db w0) !! newRideId w0 = None) ->
  oneRidePerAppointment (db w) ->
  let w' := (hook now from body sid w).1 in
  oneRidePerAppointment (db w') /\
  (forall id r, rides (db w) !! id = Some r -> rides (db w') !! id = Some r) /\
  (forall id r, rides (db w') !! id = Some r -> rides (db w) !! id = None ->
     rdStatus r = SCHEDULED /\
     rideOfAppointment (db w) (rdAppointmentId r) = None /\
     (exists a c,
        appointments (db w) !! rdAppointmentId r = Some a /\
        clinics (db w) !! apClinicId a = Some c /\
        pickupTime r = appointmentDate a - 45 * 60 * 1000 /\
        dropoffLocation r = clinicAddress c /\
        estimatedCost r = Some (estimateCost c)) /\
     (exists u, uberRideId r = Some u /\
        status <$> mockRides w' !! u = Some "scheduled") /\
     apStatus <$> appointments (db w') !! rdAppointmentId r = Some CONFIRMED /\
     RIDE_BOOKED id (rdAppointmentId r) (pickupTime r)
       (match estimatedCost r with Some q => q | None => 0%Q end)
       ∈ events w').
Proof.
  intros Hfresh Hone. cbn zeta. unfold webhook, handleIncomingSMS.
  destruct (or_else (smsAppointmentId <$> recentOutbound (db w) from) None)
    as [aid|]; unfold createSMS; cbv beta iota zeta.
  2:{ cbn. split_and!; try done. intros id r H1 H2. congruence. }
  cbn [withDB db].
  lazymatch goal with
  | |- context [appointments ?d !! aid] =>
      destruct (appointments d !! aid) as [a|] eqn:Ha
  end; [|cbn; split_and!; try done; intros id r H1 H2; congruence].
  lazymatch goal with
  | |- context [patients ?d !! ?k] => destruct (patients d !! k) as [p|]
  end; [|cbn; split_and!; try done; intros id r H1 H2; congruence].
  lazymatch goal with
  | |- context [clinics ?d !! ?k] => destruct (clinics d !! k) as [c|] eqn:Hc
  end; [|cbn; split_and!; try done; intros id r H1 H2; congruence].
  cbn [appointments clinics] in Ha, Hc.
  lazymatch goal with
  | |- context [ClaudeService.parsePatientResponse ?a ?b ?c ?d] =>
      destruct (ClaudeService.parsePatientResponse a b c d) as [parsed calls]
  end.
  lazymatch goal with
  | |- context [rideOfAppointment ?d ?k] =>
      change (rideOfAppointment d k) with (rideOfAppointment (db w) k);
      destruct (rideOfAppointment (db w) k) as [kr|] eqn:Hride
  end.
  all: repeat lazymatch goal with
  | |- context [String.eqb ?a ?b] => destruct (String.eqb a b)
  | |- context [ClaudeService.generateResponse ?a ?b ?c ?d ?e ?f ?g] =>
      destruct (ClaudeService.generateResponse a b c d e f g)
  end.
  all: cbn [bookRide withMock withDB emit db fst snd] in *.
  all: lazymatch goal with
  | |- context [truthy ?x] => destruct (truthy x)
  end.
  all: cbn [bookRide withMock withDB emit db fst snd mockRides events].
  all: try lazymatch goal with
  | |- context [sendSMS _ _ _ ?n ?t ?b ?a ?d] =>
      destruct (sendSMS_frame isTestMode transport showTime n t b a d)
        as (Hr & Hap & _);
      cbn zeta in Hr, Hap; unfold oneRidePerAppointment; rewrite ?Hr, ?Hap;
      clear Hr Hap
  end.
  all: unfold oneRidePerAppointment.
  all: cbn [set_appointments set_rides appointments rides].
  all: try (split_and!; [exact Hone|done|intros id r H1 H2; congruence]).
  all: lazymatch goal with
  | |- context [newRideId ?w0] =>
      pose proof (Hfresh w0 eq_refl) as Hnew;
      set (rid := newRideId w0) in *;
      cbn [db rides emit withDB withMock] in Hnew
  end.
  all: pose proof (rideOfAppointment_None _ _ Hride) as Hnone.
  all: split_and!.
  all: try (apply one_ride_insert; [exact Hone|exact Hnone]).
  all: try (intros id r Hr; destruct (decide (id = rid)) as [->|N];
    [congruence | by rewrite lookup_insert_ne]).
  all: intros id r Hr Hold; destruct (decide (id = rid)) as [->|N];
    [|rewrite lookup_insert_ne in Hr by done; congruence].
  all: rewrite lookup_insert_eq in Hr; injection Hr as <-; cbn.
  all: split_and!; try done.
  all: try (exists a, c; by rewrite Ha, Hc).
  all: try (eexists; split; [done|]; by rewrite lookup_insert_eq).
  all: try by rewrite lookup_alter_eq, Ha.
  all: apply elem_of_app; right; apply list_elem_of_singleton; done.
Qed.

(** X20. A reply of the ASCII range that is one of the listed
    confirmation phrases (once lower-cased, trimmed, stripped of [!?.]
    and with white space collapsed), from a number whose latest
    outbound message belongs to an appointment of the store, is
    handled without the inference provider and answered with one
    message. When the appointment has no ride, one ride is
    booked: SCHEDULED, 45 minutes before the appointment, from the
    patient's address (or the default pickup text) to the clinic,
    registered with the provider, the appointment CONFIRMED, and
    SMS_RECEIVED then RIDE_BOOKED emitted. When it has a ride, nothing
    is booked or changed and only SMS_RECEIVED is emitted. *)
Theorem listed_confirmation_books_the_ride_unless_booked
    now from body sid w aid a p c :
  or_else (smsAppointmentId <$> recentOutbound (db w) from) None = Some aid ->
  appointments (db w) !! aid = Some a ->
  patients (db w) !! apPatientId a = Some p ->
  clinics (db w) !! apClinicId a = Some c ->
  isAscii body = true ->
  In (cleaned body)
    ["yes"; "yeah"; "yep"; "yup"; "ok"; "okay"; "sure"; "sounds good";
     "please"; "yes please"; "y"; "i need a ride"; "i want a ride";
     "book it"; "lets do it"; "definitely"; "absolutely"] ->
  let w' := (hook now from body sid w).1 in
  (hook now from body sid w).2 = [] /\
  length (smsMessages (db w')) = S (S (length (smsMessages (db w)))) /\
  match rideOfAppointment (db w) aid with
  | None =>
      exists rid ride,
        rides (db w') = <[rid := ride]> (rides (db w)) /\
        rdAppointmentId ride = aid /\ rdStatus ride = SCHEDULED /\
        pickupTime ride = appointmentDate a - 45 * 60 * 1000 /\
        pickupLocation ride
          = orEmpty (or_else (address p)
                       (Some "Main entrance of your current location")) /\
        dropoffLocation ride = clinicAddress c /\
        (exists u, uberRideId ride = Some u /\
           status <$> mockRides w' !! u = Some "scheduled") /\
        apStatus <$> appointments (db w') !! aid = Some CONFIRMED /\
        events w' = events w ++
          [SMS_RECEIVED aid from body ClaudeService.CONFIRM_RIDE (95 # 100);
           RIDE_BOOKED rid aid (pickupTime ride) (estimateCost c)]
  | Some _ =>
      rides (db w') = rides (db w) /\ mockRides w' = mockRides w /\
      appointments (db w') = appointments (db w) /\
      events w' = events w ++
        [SMS_RECEIVED aid from body ClaudeService.CONFIRM_RIDE (95 # 100)]
  end.
Proof.
  intros Haid Ha Hp Hc _ Hphrase0. cbn zeta.
  assert (Hphrase : In (cleaned body) confirmPhrases).
  { unfold confirmPhrases. cbn [In] in *. tauto. }
  clear Hphrase0.
  unfold webhook, handleIncomingSMS. rewrite Haid.
  unfold createSMS; cbv beta iota zeta. cbn [withDB db appointments patients clinics].
  rewrite Ha, Hp, Hc.
  rewrite (proj2 (listed_phrase_short_circuits body Hphrase)).
  cbn [ClaudeService.intent ClaudeService.response
       ClaudeService.alternativePickupLocation ClaudeService.confidence].
  change (String.eqb ClaudeService.CONFIRM_RIDE ClaudeService.CONFIRM_RIDE)
    with true. cbv iota.
  lazymatch goal with
  | |- context [rideOfAppointment ?d ?k] =>
      change (rideOfAppointment d k) with (rideOfAppointment (db w) k);
      destruct (rideOfAppointment (db w) k) as [kr|] eqn:Hride
  end.
  all: cbn [bookRide withMock withDB emit db fst snd].
  all: lazymatch goal with
  | |- context [truthy ?x] =>
      assert (truthy x = true) as -> by reflexivity
  end.
  all: cbn [bookRide withMock withDB emit db fst snd mockRides events].
  all: lazymatch goal with
  | |- context [sendSMS _ _ _ ?n ?t ?b ?a ?d] =>
      destruct (sendSMS_frame isTestMode transport showTime n t b a d)
        as (Hr' & Hap' & _);
      destruct (sendSMS_length n t b a d) as [Hlen _];
      cbn zeta in Hr', Hap'; rewrite ?Hr', ?Hap', ?Hlen; clear Hr' Hap' Hlen
  end.
  all: cbn [set_appointments set_rides appointments rides smsMessages length].
  - split_and!; try done.
  - split_and!; try done.
    do 2 eexists. split_and!; try done.
    + eexists. split; [done|]. by rewrite lookup_insert_eq.
    + by rewrite lookup_alter_eq, Ha.
    + by rewrite <- app_assoc.
Qed.

End Replies.

Section ReplyWitnesses.
Import RiskScore Store TwilioService UberHealth Scheduler Routes MoreProps.

Local Abbreviation demoHook :=
  (webhook true Fixtures.noTransport Fixtures.noFormat Fixtures.noFormat
     Fixtures.noFormat Fixtures.noFormat true Fixtures.noIntentProvider
     Fixtures.noPhrase Fixtures.someId Fixtures.someId Fixtures.noCost).

Lemma reply_books_at_most_one_ride_per_appointment_witness :
  let w := Fixtures.world Fixtures.offeredDB in
  oneRidePerAppointment (db w) /\
  oneRidePerAppointment
    (db (demoHook (Fixtures.t0 + 1000) "+15551234567" "Yes!" "SM2" w).1).
Proof.
  cbn zeta.
  assert (Hone : oneRidePerAppointment (db (Fixtures.world Fixtures.offeredDB))).
  { intros id1 id2 r1 r2 H1. cbn in H1. by rewrite lookup_empty in H1. }
  assert (Hfresh : forall w0,
            rides (db w0) = rides (db (Fixtures.world Fixtures.offeredDB)) ->
            rides (db w0) !! Fixtures.someId w0 = None).
  { intros w0 ->. cbn. apply lookup_empty. }
  split; [exact Hone|].
  exact (proj1 (reply_books_at_most_one_ride_per_appointment true
    Fixtures.noTransport Fixtures.noFormat Fixtures.noFormat Fixtures.noFormat
    Fixtures.noFormat true Fixtures.noIntentProvider Fixtures.noPhrase
    Fixtures.someId Fixtures.someId Fixtures.noCost (Fixtures.t0 + 1000)
    "+15551234567" "Yes!" "SM2" (Fixtures.world Fixtures.offeredDB)
    Hfresh Hone)).
Defined.

Lemma listed_confirmation_books_the_ride_unless_booked_witness :
  let w := Fixtures.world Fixtures.offeredDB in
  let w' := (demoHook (Fixtures.t0 + 1000) "+15551234567" "Yes!" "SM2" w).1 in
  cleaned "Yes!" = "yes" /\
  length (smsMessages (db w')) = 3%nat.
Proof.
  cbn zeta.
  assert (Hphrase : In (cleaned "Yes!")
    ["yes"; "yeah"; "yep"; "yup"; "ok"; "okay"; "sure"; "sounds good";
     "please"; "yes please"; "y"; "i need a ride"; "i want a ride";
     "book it"; "lets do it"; "definitely"; "absolutely"])
    by (left; reflexivity).
  split; [reflexivity|].
  exact (proj1 (proj2 (listed_confirmation_books_the_ride_unless_booked true
    Fixtures.noTransport Fixtures.noFormat Fixtures.noFormat Fixtures.noFormat
    Fixtures.noFormat true Fixtures.noIntentProvider Fixtures.noPhrase
    Fixtures.someId Fixtures.someId Fixtures.noCost (Fixtures.t0 + 1000)
    "+15551234567" "Yes!" "SM2" (Fixtures.world Fixtures.offeredDB)
    "a1" Fixtures.appointment Fixtures.maria Fixtures.clinic
    eq_refl eq_refl eq_refl eq_refl eq_refl Hphrase))).
Defined.

End ReplyWitnesses.

(** ** Booking by the coordinator *)

Section Booking.
Import RiskScore Store TwilioService UberHealth Scheduler Routes Jobs
       MoreRoutes MoreProps.
Variable isTestMode : bool.
Variable transport : Z -> string -> string -> string + string.
Variable formatTime : Z -> string.
Variable showTime : Z -> string.
Variable newUberRideId : World -> string.
Variable newRideId : World -> string.
Variable estimateCost : Clinic -> Q.

Variable parseDate : string -> option Z.

(** X21. The booking route. Every failing answer leaves the world as
    it was. A request whose pickup time is absent, [0] or the empty
    text is answered 400 MISSING_FIELDS. A complete request for an
    appointment that already has a ride is refused with RIDE_EXISTS.
    A success means the pickup time was a valid date, the appointment
    had no ride and now has exactly the requested one (SCHEDULED, at
    the requested time and place, dropped at the clinic, registered as
    scheduled with the provider), is CONFIRMED, and RIDE_BOOKED was
    emitted. The route keeps the rule that an appointment has at most
    one ride. *)
Theorem booking_route_refuses_a_second_ride now reqAppointment reqLocation
    reqTime w :
  let resp := (book isTestMode transport formatTime showTime newUberRideId
                 newRideId estimateCost parseDate now reqAppointment
                 reqLocation reqTime w).1 in
  let w' := (book isTestMode transport formatTime showTime newUberRideId
               newRideId estimateCost parseDate now reqAppointment
               reqLocation reqTime w).2 in
  (ok resp = false -> w' = w) /\
  (reqTime = None \/ reqTime = Some (DateMillis 0)
   \/ reqTime = Some (DateText "") ->
     resp = respond 400 false (Some "MISSING_FIELDS")) /\
  (forall id a p c kr x,
     reqAppointment = Some id -> id <> "" ->
     (exists l, reqLocation = Some l /\ l <> "") ->
     reqTime = Some x -> x <> DateMillis 0 -> x <> DateText "" ->
     appointments (db w) !! id = Some a ->
     patients (db w) !! apPatientId a = Some p ->
     clinics (db w) !! apClinicId a = Some c ->
     rides (db w) !! kr.1 = Some kr.2 -> rdAppointmentId kr.2 = id ->
     resp = respond 400 false (Some "RIDE_EXISTS")) /\
  (ok resp = true ->
     exists id loc x t a c rid ride,
       reqAppointment = Some id /\ reqLocation = Some loc /\
       reqTime = Some x /\ newDate parseDate x = Some t /\
       appointments (db w) !! id = Some a /\
       clinics (db w) !! apClinicId a = Some c /\
       (forall k r, rides (db w) !! k = Some r -> rdAppointmentId r <> id) /\
       rides (db w') = <[rid := ride]> (rides (db w)) /\
       rdAppointmentId ride = id /\ rdStatus ride = SCHEDULED /\
       pickupTime ride = t /\ pickupLocation ride = loc /\
       dropoffLocation ride = clinicAddress c /\
       (exists u, uberRideId ride = Some u /\
          status <$> mockRides w' !! u = Some "scheduled") /\
       apStatus <$> appointments (db w') !! id = Some CONFIRMED /\
       events w' = events w ++ [RIDE_BOOKED rid id t (estimateCost c)]) /\
  (oneRidePerAppointment (db w) -> oneRidePerAppointment (db w')).
Proof.
  cbn zeta. unfold book.
  assert (Htruthy : forall x, x <> DateMillis 0 -> x <> DateText "" ->
            dateTruthy x = true).
  { intros [t|s0] H1 H2; cbn.
    - destruct (Z.eqb_spec t 0) as [->|]; [by destruct H1 | done].
    - destruct (String.eqb_spec s0 "") as [->|]; [by destruct H2 | done]. }
  destruct (or_else reqAppointment None) as [id|] eqn:Hid.
  2:{ cbn. split_and!; try done.
      all: intros id a p c kr x -> Hne; exfalso.
      all: unfold or_else in Hid; by rewrite (proj2 (truthy_Some id) Hne) in Hid. }
  assert (reqAppointment = Some id /\ id <> "") as [-> Hidne].
  { unfold or_else in Hid. destruct (truthy reqAppointment) eqn:E; [|done].
    subst. split; [done|]. by apply truthy_Some. }
  destruct (or_else reqLocation None) as [loc|] eqn:Hloc.
  2:{ cbn. split_and!; try done.
      all: intros ? a p c kr x _ _ (l & -> & Hne); exfalso.
      all: unfold or_else in Hloc; by rewrite (proj2 (truthy_Some l) Hne) in Hloc. }
  assert (reqLocation = Some loc) as ->.
  { unfold or_else in Hloc. by destruct (truthy reqLocation). }
  destruct reqTime as [x|].
  2:{ cbn. split_and!; try done. }
  destruct (dateTruthy x) eqn:Hx; cbn [negb].
  2:{ cbn. split_and!; try done.
      intros ? a p c kr x0 _ _ _ [= <-] H1 H2.
      by rewrite (Htruthy x H1 H2) in Hx. }
  assert (Hmiss : ~ (Some x = None \/ Some x = Some (DateMillis 0)
                     \/ Some x = Some (DateText ""))).
  { intros [?|[[= ->]|[= ->]]]; done. }
  destruct (appointments (db w) !! id) as [a|] eqn:Ha.
  2:{ cbn. split_and!; try done. all: intros; congruence. }
  destruct (patients (db w) !! apPatientId a) as [p|] eqn:Hp.
  2:{ cbn. split_and!; try done. all: intros; congruence. }
  destruct (clinics (db w) !! apClinicId a) as [c|] eqn:Hc.
  2:{ cbn. split_and!; try done. all: intros; congruence. }
  destruct (rideOfAppointment (db w) id) as [kr0|] eqn:Hride.
  { cbn. split_and!; try done. }
  pose proof (rideOfAppointment_None _ _ Hride) as Hnone.
  destruct (newDate parseDate x) as [t|] eqn:Ht.
  2:{ cbn. split_and!; try done.
      intros id0 a0 p0 c0 kr x0 [= <-] _ _ _ _ _ _ _ _ Hk Hkid.
      by destruct (Hnone _ _ Hk). }
  cbn [bookRide fst snd].
  set (uber := Build_UberRideResponse _ _ _ _ _ _ _ _ _).
  set (w1 := withMock _ w).
  set (rid := newRideId w1).
  set (ride := Build_Ride _ _ _ _ _ _ _ _ _ _ _).
  set (wc := withDB (set_appointments _) (withDB (set_rides _) w1)).
  lazymatch goal with
  | |- context [emit _ ?x] => set (wd := x)
  end.
  assert (Hwd : rides (db wd) = <[rid := ride]> (rides (db w)) /\
                appointments (db wd)
                  = alter (setAppointmentStatus CONFIRMED) id
                      (appointments (db w)) /\
                mockRides wd = <[newUberRideId w := uber]> (mockRides w) /\
                events wd = events w).
  { subst wd. destruct (contactPhone p) as [ph|]; [|done].
    destruct (truthy (Some ph)); [|done].
    cbn [db withDB mockRides events]. unfold sendRideConfirmation.
    lazymatch goal with
    | |- context [sendSMS _ _ _ ?n ?t ?b ?a ?d] =>
        destruct (sendSMS_frame isTestMode transport showTime n t b a d)
          as (-> & -> & _)
    end. done. }
  clearbody wd. destruct Hwd as (Hr & Hap & Hm & He).
  cbn [emit db mockRides events fst snd].
  split_and!; try done.
  - intros id0 a0 p0 c0 kr x0 [= <-] _ _ _ _ _ _ _ _ Hk Hkid.
    by destruct (Hnone _ _ Hk).
  - intros _. exists id, loc, x, t, a, c, rid, ride.
    split_and!; try done.
    + eexists. split; [done|]. rewrite Hm. by rewrite lookup_insert_eq.
    + by rewrite Hap, lookup_alter_eq, Ha.
    + by rewrite He.
  - intros Hone. unfold oneRidePerAppointment. rewrite Hr.
    apply one_ride_insert; [exact Hone|]. exact Hnone.
Qed.

End Booking.

(** ** The daily jobs: no-shows and risk scores *)

Section DailyJobs.
Import RiskScore Store TwilioService Scheduler Routes Jobs MoreProps.

Lemma NoDup_fst_filter {A} (P : string * A -> bool) (l : list (string * A)) :
  NoDup (l.*1) -> NoDup ((List.filter P l).*1).
Proof.
  induction l as [|x l IH]; cbn; [done|]. intros Hnd.
  apply NoDup_cons in Hnd as [Hx Hnd].
  destruct (P x); cbn; [|by apply IH].
  apply NoDup_cons. split; [|by apply IH].
  intros Hin. apply Hx. apply list_elem_of_fmap in Hin as (y & -> & Hy).
  apply list_elem_of_fmap. exists y. split; [done|].
  apply list_elem_of_In in Hy. apply filter_In in Hy as [Hy _].
  by apply list_elem_of_In.
Qed.

Lemma snapshot_spec {A} (P : string * A -> bool) (m : gmap string A) k a :
  (k, a) ∈ List.filter P (map_to_list m) <-> m !! k = Some a /\ P (k, a) = true.
Proof.
  rewrite list_elem_of_In, filter_In, <- list_elem_of_In.
  by rewrite elem_of_map_to_list.
Qed.

Lemma snapshot_NoDup {A} (P : string * A -> bool) (m : gmap string A) :
  NoDup ((List.filter P (map_to_list m)).*1).
Proof. apply NoDup_fst_filter, NoDup_fst_map_to_list. Qed.

(** A loop that updates each row of a snapshot under its own key. *)
Lemma foldl_alter_out {A} (g : string * A -> A -> A) (l : list (string * A)) :
  forall (m : gmap string A) k,
    k ∉ l.*1 ->
    foldl (fun m row => alter (g row) row.1 m) m l !! k = m !! k.
Proof.
  induction l as [|[k0 a0] l IH]; intros m k Hk; [done|].
  cbn in Hk. apply not_elem_of_cons in Hk as [Hne Hk].
  cbn [foldl fst]. rewrite IH by done. by rewrite lookup_alter_ne.
Qed.

Lemma foldl_alter_in {A} (g : string * A -> A -> A) (l : list (string * A)) :
  forall (m : gmap string A) k a,
    NoDup (l.*1) -> (k, a) ∈ l ->
    foldl (fun m row => alter (g row) row.1 m) m l !! k = g (k, a) <$> m !! k.
Proof.
  induction l as [|[k0 a0] l IH]; intros m k a Hnd Hin.
  { by apply elem_of_nil in Hin. }
  cbn in Hnd. apply NoDup_cons in Hnd as [Hk0 Hnd].
  cbn [foldl fst]. apply elem_of_cons in Hin as [[= -> ->]|Hin].
  - rewrite foldl_alter_out by done. by rewrite lookup_alter_eq.
  - rewrite (IH _ _ _ Hnd Hin). rewrite lookup_alter_ne; [done|].
    intros <-. apply Hk0. apply list_elem_of_fmap. by exists (k0, a).
Qed.

Lemma snapshot_loop {A} (P : string * A -> bool) (g : string * A -> A -> A)
    (m : gmap string A) k :
  foldl (fun m row => alter (g row) row.1 m) m (List.filter P (map_to_list m)) !! k
  = (fun a => if P (k, a) then g (k, a) a else a) <$> m !! k.
Proof.
  destruct (m !! k) as [a|] eqn:Hk.
  - destruct (P (k, a)) eqn:HP.
    + rewrite (foldl_alter_in g _ m k a); [|apply snapshot_NoDup|].
      * rewrite Hk. cbn. by rewrite HP.
      * by apply snapshot_spec.
    + rewrite foldl_alter_out; [rewrite Hk; cbn; by rewrite HP|].
      intros Hin. apply list_elem_of_fmap in Hin as ([k' a'] & Heq & Hin).
      cbn in Heq. subst k'. apply snapshot_spec in Hin as [Hin HP'].
      rewrite Hk in Hin. injection Hin as <-. congruence.
  - rewrite foldl_alter_out; [by rewrite Hk|].
    intros Hin. apply list_elem_of_fmap in Hin as ([k' a'] & Heq & Hin).
    cbn in Heq. subst k'. apply snapshot_spec in Hin as [Hin _]. congruence.
Qed.

Section NoShows.
Variable startOfDay : Z -> Z.
Variable endOfDay : Z -> Z.

Local Abbreviation unattended := (unattendedToday startOfDay endOfDay).
Local Abbreviation noShowJob := (markNoShows startOfDay endOfDay).

Lemma markNoShow_fold now l : forall st,
  let st' := foldl (markNoShow now) st l in
  appointments st'.1
    = foldl (fun m (row : string * Appointment) =>
               alter (setAppointmentStatus NO_SHOW) row.1 m)
        (appointments st.1) l /\
  noShowHistory st'.1
    = noShowHistory st.1 ++
      map (fun row : string * Appointment =>
             {| nsPatientId := apPatientId row.2; nsAppointmentId := row.1;
                occurredAt := now |}) l /\
  st'.2 = st.2 ++ map (fun row : string * Appointment =>
                         APPOINTMENT_UPDATE row.1 NO_SHOW) l /\
  rides st'.1 = rides st.1 /\ patients st'.1 = patients st.1 /\
  clinics st'.1 = clinics st.1 /\ smsMessages st'.1 = smsMessages st.1 /\
  nextSmsId st'.1 = nextSmsId st.1 /\ aiRiskCache st'.1 = aiRiskCache st.1.
Proof.
  induction l as [|[id a] l IH]; intros st.
  { cbn. by rewrite !app_nil_r. }
  cbn [foldl]. cbn zeta.
  destruct (IH (markNoShow now st (id, a)))
    as (-> & -> & -> & -> & -> & -> & -> & -> & ->).
  cbn. rewrite <- !app_assoc. done.
Qed.

Lemma map_fmap {A B} (f : A -> B) (l : list A) : map f l = f <$> l.
Proof. induction l as [|x l IH]; [done|]. cbn. by rewrite IH. Qed.

Lemma unattendedToday_spec now a :
  unattendedToday startOfDay endOfDay now a = true
  <-> startOfDay now <= appointmentDate a <= endOfDay now /\
      (apStatus a = "SCHEDULED" \/ apStatus a = "CONFIRMED").
Proof.
  unfold unattendedToday, isActiveAppointment.
  rewrite !andb_true_iff, orb_true_iff, !Z.leb_le, !String.eqb_eq. tauto.
Qed.

(** X22. The end-of-day job turns into NO_SHOW exactly the
    appointments that are dated between the first and the last
    millisecond of the day of the clock and are still SCHEDULED or
    CONFIRMED: their status becomes NO_SHOW and no other column
    changes; every other appointment is left as it is. For each
    appointment it turns, and for no other, it adds one history row
    (patient, appointment, time of the run) and emits one
    APPOINTMENT_UPDATE. It touches no ride, patient, message or cache
    row, and a second run on the same day finds nothing to do. *)
Theorem no_show_job_marks_each_open_appointment_once now d :
  let d' := (markNoShows startOfDay endOfDay now d).1 in
  let evs := (markNoShows startOfDay endOfDay now d).2 in
  let open := fun a : Appointment =>
    startOfDay now <= appointmentDate a <= endOfDay now /\
    (apStatus a = "SCHEDULED" \/ apStatus a = "CONFIRMED") in
  (forall id a, appointments d !! id = Some a ->
     (open a ->
        exists a', appointments d' !! id = Some a' /\
          apStatus a' = "NO_SHOW" /\
          apPatientId a' = apPatientId a /\ apClinicId a' = apClinicId a /\
          appointmentDate a' = appointmentDate a /\
          appointmentType a' = appointmentType a /\
          riskScore a' = riskScore a /\ needsRide a' = needsRide a /\
          rideOfferSent a' = rideOfferSent a /\
          aiRiskScore a' = aiRiskScore a /\ aiConfidence a' = aiConfidence a /\
          aiReasoning a' = aiReasoning a /\
          aiRecommendations a' = aiRecommendations a) /\
     (~ open a -> appointments d' !! id = Some a)) /\
  (forall id, appointments d !! id = None -> appointments d' !! id = None) /\
  (exists added,
     noShowHistory d' = noShowHistory d ++ added /\
     NoDup (map nsAppointmentId added) /\
     forall h, h ∈ added <->
       exists id a, appointments d !! id = Some a /\ open a /\
         h = {| nsPatientId := apPatientId a; nsAppointmentId := id;
                occurredAt := now |}) /\
  NoDup evs /\
  (forall e, e ∈ evs <->
     exists id a, appointments d !! id = Some a /\ open a /\
       e = APPOINTMENT_UPDATE id "NO_SHOW") /\
  rides d' = rides d /\ patients d' = patients d /\
  smsMessages d' = smsMessages d /\ aiRiskCache d' = aiRiskCache d /\
  (forall now', startOfDay now' = startOfDay now -> endOfDay now' = endOfDay now ->
     markNoShows startOfDay endOfDay now' d' = (d', [])).
Proof.
  cbn zeta. unfold markNoShows.
  set (due := List.filter _ _).
  destruct (markNoShow_fold now due (d, []))
    as (Ha & Hh & He & Hr & Hp & Hc & Hs & Hn & Hk).
  cbn zeta in *. cbn [fst snd] in Ha, Hh, He, Hr, Hp, Hc, Hs, Hn, Hk.
  assert (Hlook : forall id,
    appointments (foldl (markNoShow now) (d, []) due).1 !! id
    = (fun a => if unattended now a then setAppointmentStatus NO_SHOW a else a)
      <$> appointments d !! id).
  { intros id. rewrite Ha. subst due.
    apply (snapshot_loop (fun ka : string * Appointment => unattended now ka.2)
             (fun _ => setAppointmentStatus NO_SHOW)). }
  assert (Hdue : forall id a, (id, a) ∈ due <->
            appointments d !! id = Some a /\
            (startOfDay now <= appointmentDate a <= endOfDay now /\
             (apStatus a = "SCHEDULED" \/ apStatus a = "CONFIRMED"))).
  { intros id a. subst due. rewrite snapshot_spec. cbn [snd].
    by rewrite unattendedToday_spec. }
  assert (Hnd : NoDup (due.*1)) by apply snapshot_NoDup.
  split_and!; try done.
  - intros id a Hid. split.
    + intros Hopen. apply unattendedToday_spec in Hopen.
      rewrite Hlook, Hid. cbn. rewrite Hopen. eexists. split; [done|]. done.
    + intros Hopen. rewrite Hlook, Hid. cbn.
      destruct (unattended now a) eqn:E; [|done].
      apply unattendedToday_spec in E. by destruct Hopen.
  - intros id Hid. by rewrite Hlook, Hid.
  - eexists. split; [exact Hh|]. split.
    + rewrite map_map. cbn. by rewrite map_fmap.
    + intros h. rewrite list_elem_of_In, in_map_iff. split.
      * intros ([id a] & <- & Hin). apply list_elem_of_In, Hdue in Hin as [? ?].
        by exists id, a.
      * intros (id & a & Hid & Hopen & ->). exists (id, a). split; [done|].
        apply list_elem_of_In, Hdue. done.
  - rewrite He. cbn [app]. clear -Hnd.
    induction due as [|[k a] l IH]; cbn in *; [constructor|].
    apply NoDup_cons in Hnd as [Hk Hl]. apply NoDup_cons. split; [|by apply IH].
    intros Hin. apply Hk. apply list_elem_of_In, in_map_iff in Hin
      as ([k' a'] & [= <-] & Hin').
    apply list_elem_of_fmap. exists (k', a'). split; [done|].
    by apply list_elem_of_In.
  - intros e. rewrite He. cbn [app]. rewrite list_elem_of_In, in_map_iff. split.
    + intros ([id a] & <- & Hin). apply list_elem_of_In, Hdue in Hin as [? ?].
      by exists id, a.
    + intros (id & a & Hid & Hopen & ->). exists (id, a). split; [done|].
      apply list_elem_of_In, Hdue. done.
  - intros now' Hs' He'.
    set (d' := (foldl (markNoShow now) (d, []) due).1) in *.
    assert (Hnil : List.filter
              (fun ka : string * Appointment => unattended now' ka.2)
              (map_to_list (appointments d')) = []).
    { destruct (List.filter _ (map_to_list (appointments d')))
        as [|[k a'] l] eqn:E; [done|]. exfalso.
      assert ((k, a') ∈ List.filter
                (fun ka : string * Appointment => unattended now' ka.2)
                (map_to_list (appointments d'))) as Hin
        by (rewrite E; by left).
      apply snapshot_spec in Hin as [Hin Hdue']. cbn in Hdue'.
      rewrite Hlook in Hin.
      destruct (appointments d !! k) as [a|]; [|done]. cbn in Hin.
      injection Hin as <-.
      destruct (unattended now a) eqn:Hu.
      - unfold unattendedToday in Hdue'.
        apply andb_prop in Hdue' as [_ Hact]. by cbn in Hact.
      - unfold unattendedToday in Hdue', Hu. rewrite Hs', He' in Hdue'.
        congruence. }
    rewrite Hnil. cbn. by destruct (foldl _ _ _).
Qed.
End NoShows.

(** X23. The manual no-show route has no guard on the appointment's
    status: for every stored appointment, whatever its status, a call
    answers success, sets NO_SHOW, leaves the other appointments alone
    and appends one history row for the patient, which raises the
    patient's no-show count by one for every cut-off not after the
    row's time; two calls in a row append two rows. An unknown
    appointment is answered 500 and nothing changes. *)
Theorem manual_no_show_is_recorded_on_every_call now id d :
  let resp := (markNoShowRoute now id d).1.1 in
  let d' := (markNoShowRoute now id d).1.2 in
  let evs := (markNoShowRoute now id d).2 in
  (appointments d !! id = None ->
     resp = respond 500 false (Some "UPDATE_ERROR") /\ d' = d /\ evs = []) /\
  (forall a, appointments d !! id = Some a ->
     resp = respond 200 true None /\
     appointments d' !! id = Some (setAppointmentStatus NO_SHOW a) /\
     (forall k, k <> id -> appointments d' !! k = appointments d !! k) /\
     evs = [APPOINTMENT_UPDATE id NO_SHOW] /\
     (exists row,
        noShowHistory d' = noShowHistory d ++ [row] /\
        nsPatientId row = apPatientId a /\ nsAppointmentId row = id /\
        forall cutoff,
          cutoff <= occurredAt row ->
          getNoShowCount (noShowHistory d') cutoff (apPatientId a)
          = getNoShowCount (noShowHistory d) cutoff (apPatientId a) + 1) /\
     (forall now2,
        length (noShowHistory (markNoShowRoute now2 id d').1.2)
        = S (S (length (noShowHistory d))))).
Proof.
  cbn zeta. unfold markNoShowRoute. split.
  - intros ->. done.
  - intros a Ha. rewrite Ha. cbn [fst snd].
    split_and!; try done.
    + cbn. by rewrite lookup_alter_eq, Ha.
    + intros k Hk. cbn. by rewrite lookup_alter_ne.
    + eexists. split; [done|]. cbn. split_and!; try done.
      intros cutoff Hc. unfold getNoShowCount.
      rewrite filter_app, length_app. cbn.
      rewrite decide_True by done. cbn. lia.
    + intros now2. cbn. rewrite lookup_alter_eq, Ha. cbn.
      rewrite !length_app. cbn. lia.
Qed.

Section Scoring.
Variable sixMonthsBefore : Z -> Z.
Variable sevenDaysLater : Z -> Z.

Local Abbreviation dueScore := (dueForScoring sevenDaysLater).
Local Abbreviation scoreJob :=
  (calculateAllRiskScores sixMonthsBefore sevenDaysLater).

(** The row the scoring job writes for an appointment of its snapshot. *)
Local Abbreviation scored d now :=
  (fun (row : string * Appointment) (cur : Appointment) =>
     match patients d !! apPatientId row.2 with
     | Some patient =>
         let r := calculateRiskScore (noShowHistory d) (sixMonthsBefore now)
                    patient in
         setRisk (score r) (bool_decide (category r = HIGH)) cur
     | None => cur
     end).

Lemma scoreAppointment_fold now d l : forall st,
  patients st.1 = patients d -> noShowHistory st.1 = noShowHistory d ->
  let st' := foldl (scoreAppointment sixMonthsBefore now) st l in
  appointments st'.1
    = foldl (fun m row => alter (scored d now row) row.1 m)
        (appointments st.1) l /\
  (length st'.2 <= length st.2 + length l)%nat /\
  (forall e, e ∈ st'.2 -> e ∈ st.2 \/
     exists id a p,
       (id, a) ∈ l /\ patients d !! apPatientId a = Some p /\
       let r := calculateRiskScore (noShowHistory d) (sixMonthsBefore now) p in
       e = RISK_SCORE_CALCULATED id (score r) (category r) (factors r)) /\
  patients st'.1 = patients d /\ noShowHistory st'.1 = noShowHistory d /\
  rides st'.1 = rides st.1 /\ clinics st'.1 = clinics st.1 /\
  smsMessages st'.1 = smsMessages st.1 /\ aiRiskCache st'.1 = aiRiskCache st.1.
Proof.
  induction l as [|[id a] l IH]; intros st Hp Hh.
  { cbn. split_and!; try done; [lia|]. intros e He. by left. }
  cbn [foldl]. cbn zeta.
  assert (Hstep : let st1 := scoreAppointment sixMonthsBefore now st (id, a) in
    appointments st1.1 = alter (scored d now (id, a)) id (appointments st.1) /\
    patients st1.1 = patients d /\ noShowHistory st1.1 = noShowHistory d /\
    rides st1.1 = rides st.1 /\ clinics st1.1 = clinics st.1 /\
    smsMessages st1.1 = smsMessages st.1 /\
    aiRiskCache st1.1 = aiRiskCache st.1 /\
    (length st1.2 <= S (length st.2))%nat /\
    (forall e, e ∈ st1.2 -> e ∈ st.2 \/
       exists p, patients d !! apPatientId a = Some p /\
         let r := calculateRiskScore (noShowHistory d) (sixMonthsBefore now) p in
         e = RISK_SCORE_CALCULATED id (score r) (category r) (factors r))).
  { cbn zeta. unfold scoreAppointment. cbn [snd]. rewrite Hp, Hh.
    destruct (patients d !! apPatientId a) as [p|] eqn:Hpa.
    - cbn. split_and!; try done.
      + rewrite length_app. cbn. lia.
      + intros e He. apply elem_of_app in He as [He|He]; [by left|].
        apply list_elem_of_singleton in He as ->. right. by exists p.
    - split_and!; try done.
      + apply map_eq. intros k. destruct (decide (k = id)) as [->|Hk].
        * rewrite lookup_alter_eq. by destruct (appointments st.1 !! id).
        * by rewrite lookup_alter_ne.
      + lia.
      + intros e He. by left. }
  cbn zeta in Hstep.
  destruct Hstep as (Ha1 & Hp1 & Hh1 & Hr1 & Hc1 & Hs1 & Hk1 & Hl1 & He1).
  destruct (IH (scoreAppointment sixMonthsBefore now st (id, a)) Hp1 Hh1)
    as (-> & Hl & He & -> & -> & -> & -> & -> & ->).
  rewrite Ha1. split_and!; try done.
  - cbn [length]. lia.
  - intros e Hin. destruct (He e Hin) as [H0|(k & b & p & Hkb & Hpb & ->)].
    + destruct (He1 e H0) as [?|(p & Hpa & ->)]; [by left|].
      right. exists id, a, p. split; [by left|done].
    + right. exists k, b, p. split; [by right|done].
Qed.

Lemma dueForScoring_spec now a :
  dueForScoring sevenDaysLater now a = true
  <-> now <= appointmentDate a <= sevenDaysLater now /\
      (apStatus a = "SCHEDULED" \/ apStatus a = "CONFIRMED").
Proof.
  unfold dueForScoring, isActiveAppointment.
  rewrite !andb_true_iff, orb_true_iff, !Z.leb_le, !String.eqb_eq. tauto.
Qed.

(** The events of the loop, in order: one per row whose patient is in
    the store. *)
Lemma scoreAppointment_events now d l : forall st,
  patients st.1 = patients d -> noShowHistory st.1 = noShowHistory d ->
  (foldl (scoreAppointment sixMonthsBefore now) st l).2
  = st.2 ++ flat_map (fun row : string * Appointment =>
      match patients d !! apPatientId row.2 with
      | Some p =>
          let r := calculateRiskScore (noShowHistory d) (sixMonthsBefore now) p in
          [RISK_SCORE_CALCULATED row.1 (score r) (category r) (factors r)]
      | None => []
      end) l.
Proof.
  induction l as [|[id a] l IH]; intros st Hp Hh.
  { cbn. by rewrite app_nil_r. }
  cbn [foldl flat_map fst snd].
  assert (Hstep : let st1 := scoreAppointment sixMonthsBefore now st (id, a) in
    patients st1.1 = patients d /\ noShowHistory st1.1 = noShowHistory d /\
    st1.2 = st.2 ++ match patients d !! apPatientId a with
      | Some p =>
          let r := calculateRiskScore (noShowHistory d) (sixMonthsBefore now) p in
          [RISK_SCORE_CALCULATED id (score r) (category r) (factors r)]
      | None => []
      end).
  { cbn zeta. unfold scoreAppointment. rewrite Hp, Hh.
    destruct (patients d !! apPatientId a) as [p|]; cbn; [done|].
    by rewrite app_nil_r. }
  cbn zeta in Hstep. destruct Hstep as (Hp1 & Hh1 & He1).
  rewrite (IH _ Hp1 Hh1), He1. by rewrite <- app_assoc.
Qed.

(** X24. The daily scoring job rewrites the appointments that are
    dated from the clock to seven days after it and are SCHEDULED or
    CONFIRMED: each gets as risk score the rule score of its patient
    (between 10 and 100) and as ride need whether that score is at
    least 61, and keeps its status, offer flag, date and adjusted
    score. An appointment outside the window or in another status is
    left as it is. One RISK_SCORE_CALCULATED event with that score is
    emitted for each appointment rewritten and for no other, and
    nothing but appointments is written. *)
Theorem scoring_job_sets_score_and_ride_need_together now d :
  let d' := (calculateAllRiskScores sixMonthsBefore sevenDaysLater now d).1 in
  let evs := (calculateAllRiskScores sixMonthsBefore sevenDaysLater now d).2 in
  let due := fun a : Appointment =>
    now <= appointmentDate a <= sevenDaysLater now /\
    (apStatus a = "SCHEDULED" \/ apStatus a = "CONFIRMED") in
  (forall id a, appointments d !! id = Some a ->
     (~ due a -> appointments d' !! id = Some a) /\
     (forall p, due a ->
        patients d !! apPatientId a = Some p ->
        let s := score (calculateRiskScore (noShowHistory d)
                          (sixMonthsBefore now) p) in
        exists a',
          appointments d' !! id = Some a' /\
          riskScore a' = Some s /\ 10 <= s <= 100 /\
          (needsRide a' = true <-> 61 <= s) /\
          apStatus a' = apStatus a /\ rideOfferSent a' = rideOfferSent a /\
          appointmentDate a' = appointmentDate a /\
          aiRiskScore a' = aiRiskScore a)) /\
  (forall id, appointments d !! id = None -> appointments d' !! id = None) /\
  (forall e, e ∈ evs <->
     exists id a p,
       appointments d !! id = Some a /\ due a /\
       patients d !! apPatientId a = Some p /\
       let r := calculateRiskScore (noShowHistory d) (sixMonthsBefore now) p in
       e = RISK_SCORE_CALCULATED id (score r) (category r) (factors r)) /\
  (length evs <= length (map_to_list (appointments d)))%nat /\
  noShowHistory d' = noShowHistory d /\ patients d' = patients d /\
  rides d' = rides d /\ smsMessages d' = smsMessages d /\
  aiRiskCache d' = aiRiskCache d.
Proof.
  cbn zeta. unfold calculateAllRiskScores.
  set (due := List.filter _ _).
  destruct (scoreAppointment_fold now d due (d, []) eq_refl eq_refl)
    as (Ha & Hlen & _ & Hp & Hh & Hr & _ & Hs & Hk).
  pose proof (scoreAppointment_events now d due (d, []) eq_refl eq_refl) as He.
  cbn zeta in *. cbn [fst snd app] in Ha, He, Hr, Hs, Hk, Hlen.
  assert (Hlook : forall id,
    appointments (foldl (scoreAppointment sixMonthsBefore now) (d, []) due).1 !! id
    = (fun a => if dueScore now a then scored d now (id, a) a else a)
      <$> appointments d !! id).
  { intros id. rewrite Ha. subst due.
    apply (snapshot_loop (fun ka : string * Appointment => dueScore now ka.2)
             (scored d now)). }
  assert (Hdue : forall id a, (id, a) ∈ due <->
            appointments d !! id = Some a /\
            (now <= appointmentDate a <= sevenDaysLater now /\
             (apStatus a = "SCHEDULED" \/ apStatus a = "CONFIRMED"))).
  { intros id a. subst due. rewrite snapshot_spec. cbn [snd].
    by rewrite dueForScoring_spec. }
  split_and!; try done.
  - intros id a Hid. split.
    + intros Hno. rewrite Hlook, Hid. cbn.
      destruct (dueScore now a) eqn:E; [|done].
      apply dueForScoring_spec in E. by destruct Hno.
    + intros p Hyes Hpa. apply dueForScoring_spec in Hyes.
      rewrite Hlook, Hid. cbn. rewrite Hyes, Hpa.
      eexists. split; [done|].
      cbn [riskScore needsRide apStatus rideOfferSent appointmentDate
           aiRiskScore setRisk].
      pose proof (score_range (noShowHistory d) (sixMonthsBefore now) p) as Hrange.
      split; [reflexivity|]. split; [exact Hrange|].
      split; [|by split_and!].
      rewrite bool_decide_eq_true.
      apply (getRiskCategory_spec
               (score (calculateRiskScore (noShowHistory d)
                         (sixMonthsBefore now) p))).
  - intros id Hid. by rewrite Hlook, Hid.
  - intros e. rewrite He, list_elem_of_In, in_flat_map. split.
    + intros ([id a] & Hin & Hev). cbn [fst snd] in Hev.
      apply list_elem_of_In, Hdue in Hin as [Hid Hd].
      destruct (patients d !! apPatientId a) as [p|] eqn:Hpa; [|destruct Hev].
      destruct Hev as [<-|[]]. by exists id, a, p.
    + intros (id & a & p & Hid & Hd & Hpa & ->). exists (id, a). split.
      * apply list_elem_of_In, Hdue. done.
      * cbn [fst snd]. rewrite Hpa. by left.
  - etransitivity; [exact Hlen|]. cbn [length]. subst due.
    clear. induction (map_to_list (appointments d)) as [|x l IH]; cbn; [lia|].
    destruct (dueScore now x.2); cbn; lia.
Qed.
End Scoring.

(** X25. The risk filter of the upcoming-appointments route uses the
    thresholds of the rule engine's categories: 'high', 'medium' and
    'low' select exactly the scores of category HIGH, MEDIUM and LOW;
    an appointment without a score matches none of the three; any
    other filter value selects everything. The offer sweep's
    candidates all match 'high'. *)
Theorem risk_filter_agrees_with_the_categories (s : Z) :
  (riskFilterMatches (Some "high") (Some s) = true
     <-> getRiskCategory s = HIGH) /\
  (riskFilterMatches (Some "medium") (Some s) = true
     <-> getRiskCategory s = MEDIUM) /\
  (riskFilterMatches (Some "low") (Some s) = true
     <-> getRiskCategory s = LOW) /\
  (forall f, f = "high" \/ f = "medium" \/ f = "low" ->
     riskFilterMatches (Some f) None = false) /\
  (forall f score, f <> "high" -> f <> "medium" -> f <> "low" ->
     riskFilterMatches (Some f) score = true) /\
  (forall score, riskFilterMatches None score = true) /\
  (forall now a,
     dueForOffer now a = true ->
     exists s', riskScore a = Some s' /\
       riskFilterMatches (Some "high") (riskScore a) = true /\
       getRiskCategory s' = HIGH).
Proof.
  destruct (getRiskCategory_spec s) as (Hl & Hm & Hh).
  split_and!.
  - rewrite Hh. cbn. by rewrite Z.leb_le.
  - rewrite Hm. cbn. rewrite andb_true_iff, !Z.leb_le. done.
  - rewrite Hl. cbn. by rewrite Z.leb_le.
  - by intros f [->|[->| ->]].
  - intros f sc H1 H2 H3. unfold riskFilterMatches.
    destruct (String.eqb_spec f "high"); [done|].
    destruct (String.eqb_spec f "medium"); [done|].
    destruct (String.eqb_spec f "low"); done.
  - done.
  - intros now a Hdue. unfold dueForOffer in Hdue.
    apply andb_prop in Hdue as [Hdue _]. apply andb_prop in Hdue as [_ Hs].
    destruct (riskScore a) as [s'|]; [|done].
    exists s'. split_and!; try done.
    apply (getRiskCategory_spec s'). by apply Z.leb_le.
Qed.

End DailyJobs.

(** ** Ride reminders *)

Section Reminders.
Import RiskScore Store TwilioService Scheduler Routes Jobs MoreProps.
Variable isTestMode : bool.
Variable transport : Z -> string -> string -> string + string.
Variable formatTime : Z -> string.
Variable showTime : Z -> string.
Variable showNumber : Q -> string.

Local Abbreviation remind :=
  (remindRide isTestMode transport formatTime showTime showNumber).
Local Abbreviation reminderJob :=
  (sendRideReminders isTestMode transport formatTime showTime showNumber).

Lemma dueForReminder_spec now r :
  dueForReminder now r = true <->
  (2 * 60 * 60 * 1000 <= pickupTime r - now <= 150 * 60 * 1000) /\
  (rdStatus r = SCHEDULED \/ rdStatus r = DRIVER_ASSIGNED).
Proof.
  unfold dueForReminder.
  rewrite !andb_true_iff, orb_true_iff, !Z.leb_le, !String.eqb_eq.
  intuition lia.
Qed.

Lemma reminderEvents_ext d d' row :
  appointments d' = appointments d -> patients d' = patients d ->
  reminderEvents d' row = reminderEvents d row.
Proof.
  intros Ha Hp. unfold reminderEvents, patientOfRide. by rewrite Ha, Hp.
Qed.

Lemma reminderEvents_all_ext d d' l :
  appointments d' = appointments d -> patients d' = patients d ->
  flat_map (reminderEvents d') l = flat_map (reminderEvents d) l.
Proof.
  intros Ha Hp. induction l as [|x l IH]; [done|]. cbn.
  by rewrite (reminderEvents_ext _ _ x Ha Hp), IH.
Qed.

Lemma remindRide_step now st row :
  let st' := remind now st row in
  rides st'.1 = rides st.1 /\ appointments st'.1 = appointments st.1 /\
  patients st'.1 = patients st.1 /\ clinics st'.1 = clinics st.1 /\
  aiRiskCache st'.1 = aiRiskCache st.1 /\
  noShowHistory st'.1 = noShowHistory st.1 /\
  st'.2 = st.2 ++ reminderEvents st.1 row /\
  length (smsMessages st'.1)
  = (length (smsMessages st.1) + length (reminderEvents st.1 row))%nat.
Proof.
  destruct row as [id ride]. cbn zeta. unfold remindRide, reminderEvents.
  cbn [fst snd].
  destruct (patientOfRide st.1 ride) as [p|];
    [|rewrite app_nil_r; cbn; split_and!; try done; lia].
  destruct (contactPhone p) as [ph|];
    [|rewrite app_nil_r; cbn; split_and!; try done; lia].
  destruct (truthy (Some ph));
    [|rewrite app_nil_r; cbn; split_and!; try done; lia].
  cbn [fst snd]. unfold sendRideReminder.
  lazymatch goal with
  | |- context [sendSMS _ _ _ ?n ?t ?b ?a ?d] =>
      destruct (sendSMS_frame isTestMode transport showTime n t b a d)
        as (-> & -> & -> & -> & -> & ->);
      assert (length (smsMessages
                (sendSMS isTestMode transport showTime n t b a d).2)
              = S (length (smsMessages d))) as ->
  end.
  { unfold sendSMS.
    lazymatch goal with
    | |- context [createSMS ?a ?b ?c ?d ?e ?f ?g ?h] =>
        destruct (createSMS a b c d e f g h) as [row d1] eqn:Ecr
    end.
    unfold createSMS in Ecr. injection Ecr as <- <-.
    destruct isTestMode; [|destruct (transport _ _ _)]; cbn;
      by rewrite length_map. }
  cbn. split_and!; try done; lia.
Qed.

Lemma remindRide_fold now l : forall st,
  let st' := foldl (remind now) st l in
  rides st'.1 = rides st.1 /\ appointments st'.1 = appointments st.1 /\
  patients st'.1 = patients st.1 /\ clinics st'.1 = clinics st.1 /\
  aiRiskCache st'.1 = aiRiskCache st.1 /\
  noShowHistory st'.1 = noShowHistory st.1 /\
  st'.2 = st.2 ++ flat_map (reminderEvents st.1) l /\
  length (smsMessages st'.1)
  = (length (smsMessages st.1) + length (flat_map (reminderEvents st.1) l))%nat.
Proof.
  induction l as [|row l IH]; intros st.
  { cbn. rewrite app_nil_r. split_and!; try done; lia. }
  cbn [foldl flat_map]. cbn zeta.
  destruct (remindRide_step now st row)
    as (Hr & Ha & Hp & Hc & Hk & Hh & He & Hs).
  cbn zeta in *.
  destruct (IH (remind now st row))
    as (-> & -> & -> & -> & -> & -> & -> & ->).
  rewrite Hr, Ha, Hp, Hc, Hk, Hh, He, Hs. rewrite <- app_assoc.
  rewrite (reminderEvents_all_ext _ _ l Ha Hp). split_and!; try done; rewrite length_app; lia.
Qed.

(** X26. The reminder job sends one reminder, and emits one
    RIDE_REMINDER_SENT, for each SCHEDULED or DRIVER_ASSIGNED ride
    whose pickup is between 2 and 2.5 hours away (both ends included)
    and whose patient can be reached; it changes nothing but the
    message log and keeps no record: the events of a later run are
    those it would have emitted without this run. With runs 30 minutes
    apart a ride is due in two consecutive runs exactly when its pickup
    is 2.5 hours after the first, and no ride with a pickup between 2
    and 3 hours away is missed by both. *)
Theorem reminder_job_keeps_no_record_of_what_it_sent now d :
  let d' := (reminderJob now d).1 in
  let evs := (reminderJob now d).2 in
  let due := List.filter (fun kr : string * Ride => dueForReminder now kr.2)
               (map_to_list (rides d)) in
  evs = flat_map (reminderEvents d) due /\
  length (smsMessages d') = (length (smsMessages d) + length evs)%nat /\
  rides d' = rides d /\ appointments d' = appointments d /\
  patients d' = patients d /\ aiRiskCache d' = aiRiskCache d /\
  (forall now', (reminderJob now' d').2 = (reminderJob now' d).2) /\
  (forall r,
     dueForReminder now r = true <->
     (2 * 60 * 60 * 1000 <= pickupTime r - now <= 150 * 60 * 1000) /\
     (rdStatus r = SCHEDULED \/ rdStatus r = DRIVER_ASSIGNED)) /\
  (forall r,
     dueForReminder now r = true /\
     dueForReminder (now + 30 * 60 * 1000) r = true <->
     pickupTime r = now + 150 * 60 * 1000 /\
     (rdStatus r = SCHEDULED \/ rdStatus r = DRIVER_ASSIGNED)) /\
  (forall r,
     rdStatus r = SCHEDULED \/ rdStatus r = DRIVER_ASSIGNED ->
     now + 2 * 60 * 60 * 1000 <= pickupTime r <= now + 3 * 60 * 60 * 1000 ->
     dueForReminder now r = true \/
     dueForReminder (now + 30 * 60 * 1000) r = true).
Proof.
  cbn zeta. unfold sendRideReminders.
  destruct (remindRide_fold now
              (List.filter (fun kr : string * Ride => dueForReminder now kr.2)
                 (map_to_list (rides d))) (d, []))
    as (Hr & Ha & Hp & _ & Hk & _ & He & Hs).
  cbn zeta in *. cbn [fst snd] in *.
  split_and!; try done.
  - by rewrite Hs, He.
  - intros now'. rewrite Hr.
    destruct (remindRide_fold now'
                (List.filter (fun kr : string * Ride => dueForReminder now' kr.2)
                   (map_to_list (rides d)))
                ((foldl (remind now) (d, [])
                    (List.filter
                       (fun kr : string * Ride => dueForReminder now kr.2)
                       (map_to_list (rides d)))).1, []))
      as (_ & _ & _ & _ & _ & _ & He1 & _).
    destruct (remindRide_fold now'
                (List.filter (fun kr : string * Ride => dueForReminder now' kr.2)
                   (map_to_list (rides d))) (d, []))
      as (_ & _ & _ & _ & _ & _ & He2 & _).
    cbn zeta in *. cbn [fst snd] in *. rewrite He1, He2. cbn.
    by apply reminderEvents_all_ext.
  - apply dueForReminder_spec.
  - intros r. rewrite !dueForReminder_spec. intuition lia.
  - intros r Hst Hwin. rewrite !dueForReminder_spec.
    destruct (Z_le_gt_dec (pickupTime r) (now + 150 * 60 * 1000));
      [left|right]; split; try done; lia.
Qed.

End Reminders.

(** ** The provider mock's clock *)

Section MockClock.
Import UberHealth UberMock.
Variable getRandomDriver : Z -> string -> UberDriver.
Variable interpolateLocation : UberRideResponse -> Q -> Q * Q.

Local Abbreviation statusAt := (getRideStatus getRandomDriver interpolateLocation).

Lemma minutes_le now r (k : Z) :
  Qle_bool (minutesUntilPickup now r) (inject_Z k) = true
  <-> pickup_time r - now <= k * 60000.
Proof.
  rewrite Qle_bool_iff. unfold minutesUntilPickup.
  change (1000 * 60) with 60000.
  unfold Qle, Qdiv, Qmult, Qinv, inject_Z. cbn. lia.
Qed.

Lemma minutes_gt now r (k : Z) :
  Qle_bool (minutesUntilPickup now r) (inject_Z k) = false
  <-> k * 60000 < pickup_time r - now.
Proof.
  rewrite <- not_true_iff_false, minutes_le. lia.
Qed.

Lemma ensureDriver_fields now r :
  let r' := ensureDriver getRandomDriver now r in
  ride_id r' = ride_id r /\ status r' = status r /\
  pickup_time r' = pickup_time r /\ pickup_address r' = pickup_address r /\
  dropoff_address r' = dropoff_address r /\
  estimated_cost r' = estimated_cost r /\ is_Some (driver r') /\
  (forall dr, driver r = Some dr -> driver r' = Some dr).
Proof.
  cbn zeta. unfold ensureDriver. destruct (driver r) as [dr|] eqn:E; cbn.
  - rewrite E. split_and!; try done; by eexists.
  - split_and!; try done; by eexists.
Qed.

(** X27. The provider mock derives a ride's status from the time left
    until pickup. An unknown ride yields nothing and changes nothing.
    A known ride is stored as it is reported, keeps its id, pickup
    time, addresses, cost and any assigned driver, and: more than an
    hour before pickup it is unchanged; within the hour it is
    driver-assigned, within 15 minutes en route (with a rounded ETA
    between 5 and 15 and a location), within 5 minutes arrived, each
    with a driver; from the pickup time on it is in progress, and
    completed 30 minutes later, unless it was completed or cancelled.
    In the hour before pickup the reported status is never
    'cancelled', even for a ride that was cancelled. *)
Theorem mock_status_follows_the_time_left_until_pickup now id mock :
  (mock !! id = None ->
     getRideStatus getRandomDriver interpolateLocation now id mock
     = (None, mock)) /\
  (forall r, mock !! id = Some r ->
     let left := pickup_time r - now in
     exists r',
       getRideStatus getRandomDriver interpolateLocation now id mock
       = (Some r', <[id := r']> mock) /\
       ride_id r' = ride_id r /\ pickup_time r' = pickup_time r /\
       pickup_address r' = pickup_address r /\
       dropoff_address r' = dropoff_address r /\
       estimated_cost r' = estimated_cost r /\
       (forall dr, driver r = Some dr -> driver r' = Some dr) /\
       (60 * 60000 < left -> r' = r) /\
       (15 * 60000 < left <= 60 * 60000 ->
          status r' = "driver_assigned" /\ is_Some (driver r')) /\
       (5 * 60000 < left <= 15 * 60000 ->
          status r' = "en_route" /\ is_Some (driver r') /\
          is_Some (current_location r') /\
          exists eta, eta_minutes r' = Some eta /\ 5 <= eta <= 15) /\
       (0 < left <= 5 * 60000 ->
          status r' = "arrived" /\ is_Some (driver r')) /\
       (left <= 0 -> status r <> "completed" -> status r <> "cancelled" ->
          status r' = if left <=? -30 * 60000 then "completed"
                      else "in_progress") /\
       (left <= 0 -> status r = "completed" \/ status r = "cancelled" ->
          r' = r) /\
       (0 < left <= 60 * 60000 -> status r' <> "cancelled")).
Proof.
  split.
  - intros H. unfold getRideStatus. by rewrite H.
  - intros r Hr. cbn zeta. unfold getRideStatus. rewrite Hr.
    eexists. split; [reflexivity|].
    change 0%Q with (inject_Z 0). change 5%Q with (inject_Z 5).
    change 15%Q with (inject_Z 15). change 60%Q with (inject_Z 60).
    change (-30)%Q with (inject_Z (-30)).
    destruct (Qle_bool (minutesUntilPickup now r) (inject_Z 0)) eqn:E0.
    { apply minutes_le in E0.
      destruct (String.eqb_spec (status r) "completed") as [Hc|Hc];
        cbn [negb andb].
      { split_and!; try done; try (intros; lia). }
      destruct (String.eqb_spec (status r) "cancelled") as [Hx|Hx];
        cbn [negb andb].
      { split_and!; try done; try (intros; lia).
        all: try (intros _ [?|?]; done). }
      destruct (Qle_bool (minutesUntilPickup now r) (inject_Z (-30))) eqn:E30.
      - apply minutes_le in E30. cbn.
        split_and!; try done; try (intros; lia).
        all: try (by intros _ [?|?]).
        intros _ _ _.
        assert ((pickup_time r - now <=? -30 * 60000) = true) as ->
            by (apply Z.leb_le; lia). done.
      - apply minutes_gt in E30. cbn.
        split_and!; try done; try (intros; lia).
        all: try (by intros _ [?|?]).
        intros _ _ _.
        assert ((pickup_time r - now <=? -30 * 60000) = false) as ->
            by (apply Z.leb_gt; lia). done. }
    apply minutes_gt in E0.
    destruct (Qle_bool (minutesUntilPickup now r) (inject_Z 5)) eqn:E5.
    { apply minutes_le in E5.
      destruct (ensureDriver_fields now (withStatus "arrived" r))
        as (-> & -> & -> & -> & -> & -> & Hd & Hkeep).
      cbn. split_and!; try done; try (intros; lia). }
    apply minutes_gt in E5.
    destruct (Qle_bool (minutesUntilPickup now r) (inject_Z 15)) eqn:E15.
    { apply minutes_le in E15.
      destruct (ensureDriver_fields now (withStatus "en_route" r))
        as (Hid & Hst & Hpt & Hpa & Hda & Hec & Hd & Hkeep).
      cbn [withProgress ride_id status pickup_time pickup_address
           dropoff_address estimated_cost driver eta_minutes current_location].
      rewrite Hid, Hst, Hpt, Hpa, Hda, Hec.
      cbn -[minutesUntilPickup Math_round Qfloor].
      split_and!; try done; try (intros; lia).
      intros _. split_and!; try done.
      eexists. split; [done|].
      unfold Math_round.
      assert (Hlo : (inject_Z 5 + (1 # 2) <= minutesUntilPickup now r + (1 # 2))%Q).
      { apply Qplus_le_l. apply Qlt_le_weak, Qle_bool_false.
        by apply minutes_gt. }
      assert (Hhi : (minutesUntilPickup now r + (1 # 2) <= inject_Z 15 + (1 # 2))%Q).
      { apply Qplus_le_l. apply Qle_bool_iff. by apply minutes_le. }
      apply Qfloor_resp_le in Hlo, Hhi.
      change (Qfloor (inject_Z 5 + (1 # 2))) with 5 in Hlo.
      change (Qfloor (inject_Z 15 + (1 # 2))) with 15 in Hhi. lia. }
    apply minutes_gt in E15.
    destruct (Qle_bool (minutesUntilPickup now r) (inject_Z 60)) eqn:E60.
    { apply minutes_le in E60.
      destruct (ensureDriver_fields now (withStatus "driver_assigned" r))
        as (-> & -> & -> & -> & -> & -> & Hd & Hkeep).
      cbn. split_and!; try done; try (intros; lia). }
    apply minutes_gt in E60.
    split_and!; try done; try (intros; lia).
Qed.

End MockClock.

(** ** The risk route *)

Section RiskRouteFacts.
Import RiskScore Store AIRiskScore Routes Jobs RiskRoute MoreProps.
Variable claude : DB -> Patient -> string -> RiskScoreResult -> ClaudeReply.
Variable sixMonthsBefore : Z -> Z.
Variable cfg : Config.

Local Abbreviation riskRoute := (calculateRisk claude sixMonthsBefore cfg).
Local Abbreviation enhancedScore :=
  (calculateAIEnhancedRiskScore claude sixMonthsBefore cfg).

Lemma combineScores_high base ai :
  finalCategory (combineScores base ai) = HIGH
  <-> (60 < finalScore (combineScores base ai))%JS
      \/ finalScore (combineScores base ai) = NaN.
Proof.
  unfold combineScores. cbn [finalCategory finalScore].
  set (f := if JS_le 80 (confidence ai) then _ else _).
  apply (final_category_thresholds f).
Qed.

Lemma fallback_high base :
  category base = getRiskCategory (score base) ->
  finalCategory (fallback base) = HIGH
  <-> (60 < finalScore (fallback base))%JS
      \/ finalScore (fallback base) = NaN.
Proof.
  intros Hc. cbn [finalCategory finalScore fallback]. rewrite Hc.
  destruct (getRiskCategory_spec (score base)) as (_ & _ & ->).
  split.
  - intros H. left. apply JSlt_Num. change 60%Q with (inject_Z 60).
    rewrite <- (Zlt_Qlt 60 (score base)). lia.
  - intros [H|H]; [|done]. apply JSlt_Num in H.
    change 60%Q with (inject_Z 60) in H.
    rewrite <- (Zlt_Qlt 60 (score base)) in H. lia.
Qed.

Lemma enhanced_facts now p id d a :
  appointments d !! id = Some a ->
  let base := calculateRiskScore (noShowHistory d) (sixMonthsBefore now) p in
  let r := (enhancedScore now p id d).1.1 in
  let d1 := (enhancedScore now p id d).1.2 in
  let calls := (enhancedScore now p id d).2 in
  baseScore r = score base /\ baseFactors r = factors base /\
  (finalCategory r = HIGH <-> (60 < finalScore r)%JS \/ finalScore r = NaN) /\
  (length calls <= 1)%nat /\
  exists a1, appointments d1 !! id = Some a1 /\
    apStatus a1 = apStatus a /\ rideOfferSent a1 = rideOfferSent a /\
    appointmentDate a1 = appointmentDate a.
Proof.
  intros Ha. cbn zeta. unfold calculateAIEnhancedRiskScore.
  set (base := calculateRiskScore _ _ _).
  assert (Hcat : category base = getRiskCategory (score base)) by reflexivity.
  destruct (negb (isEnabled cfg) || negb (hasClient cfg)).
  { cbn [fst snd]. split_and!; try done.
    - by apply fallback_high.
    - cbn. lia.
    - by exists a. }
  destruct (getCachedAssessment d now id) as [cached|].
  { cbn [fst snd]. split_and!; try done.
    - apply combineScores_high.
    - cbn. lia.
    - by exists a. }
  destruct (getAIAssessment _ _) as [err|ai].
  { cbn [fst snd]. split_and!; try done.
    - by apply fallback_high.
    - by exists a. }
  cbn [fst snd]. split_and!; try done.
  - apply combineScores_high.
  - cbn. rewrite lookup_alter_eq, Ha. cbn. eexists. split; [done|]. done.
Qed.

(** X28. The risk route stores the rule score as the appointment's
    risk score on both branches (between 10 and 100) and keeps status
    and offer flag. The ride need is true exactly when the final score
    is at least 61; that implies the final category HIGH, and the
    converse holds whenever the final score is a whole number. On the
    rule-only branch (the request says so, or the adjustment is
    unavailable) the final score and category are the rule's, the
    provider is not called and the adjusted columns and the cache are
    untouched; on the adjusted branch the stored adjusted score is the
    final (blended) score and the provider is called at most once. An
    unknown appointment is answered 404. *)
Theorem risk_route_stores_the_rule_score_and_the_need_from_the_final_score
    now useAI id d :
  let out := riskRoute now useAI id d in
  (appointments d !! id = None ->
     out = (respond 404 false (Some "NOT_FOUND"), None, d, [], [])) /\
  (forall a p,
     appointments d !! id = Some a -> patients d !! apPatientId a = Some p ->
     let base := calculateRiskScore (noShowHistory d) (sixMonthsBefore now) p in
     exists r a',
       out.1.1.1 = (respond 200 true None, Some r) /\
       appointments out.1.1.2 !! id = Some a' /\
       riskScore a' = Some (score base) /\ baseScore r = score base /\
       10 <= score base <= 100 /\
       apStatus a' = apStatus a /\ rideOfferSent a' = rideOfferSent a /\
       (needsRide a' = true <-> (61 <= finalScore r)%JS) /\
       (needsRide a' = true -> finalCategory r = HIGH) /\
       (forall z, (finalScore r == inject_Z z)%JS ->
          finalCategory r = HIGH -> needsRide a' = true) /\
       (useAI = Some false \/ isAIAvailable cfg = false ->
          finalScore r = inject_Z (score base) /\
          finalCategory r = category base /\ out.1.2 = [] /\
          aiRiskScore a' = aiRiskScore a /\ aiConfidence a' = aiConfidence a /\
          aiRiskCache out.1.1.2 = aiRiskCache d) /\
       (useAI <> Some false -> isAIAvailable cfg = true ->
          aiRiskScore a' = Some (finalScore r) /\ (length out.1.2 <= 1)%nat) /\
       out.2 = [RISK_SCORE_CALCULATED id (score base) (finalCategory r)
                  (factors base)]).
Proof.
  cbn zeta. split.
  - intros Ha. unfold calculateRisk. by rewrite Ha.
  - intros a p Ha Hp. unfold calculateRisk. rewrite Ha, Hp.
    pose proof (score_range (noShowHistory d) (sixMonthsBefore now) p) as Hrange.
    set (base := calculateRiskScore _ _ _) in *.
    assert (Hint : forall (f : JSNumber) (c : RiskCategory),
              (c = HIGH <-> (60 < f)%JS \/ f = NaN) ->
              (JS_le 61 f = true -> c = HIGH) /\
              (forall z, (f == inject_Z z)%JS -> c = HIGH -> JS_le 61 f = true)).
    { intros f c Hc. split.
      - intros H. apply Hc. left. destruct f as [q| | |]; try done.
        apply JSlt_Num. apply (proj1 (JSle_Num 61 q)) in H.
        eapply Qlt_le_trans; [|exact H]. done.
      - intros z Hz Hh. destruct f as [q| | |]; try done.
        cbn in Hz. apply (proj2 (JSle_Num 61 q)). apply Hc in Hh.
        destruct Hh as [Hh|Hh]; [|done]. apply JSlt_Num in Hh.
        rewrite Hz in *. change 60%Q with (inject_Z 60) in Hh.
        rewrite <- (Zlt_Qlt 60 z) in Hh.
        change 61%Q with (inject_Z 61). rewrite <- Zle_Qle. lia. }
    destruct (match useAI with Some false => false | _ => true end
              && isAIAvailable cfg) eqn:Hbranch.
    + apply andb_prop in Hbranch as [Huse Hav].
      pose proof (enhanced_facts now p id d a Ha)
        as (Hb & Hf & Hhigh & Hcalls & a1 & Ha1 & Hst & Hro & _).
      cbn zeta in *. fold base in Hb, Hf.
      destruct (enhancedScore now p id d) as [[r d1] calls].
      cbn [fst snd] in *.
      destruct (Hint (finalScore r) (finalCategory r) Hhigh) as [Hi1 Hi2].
      exists r. eexists. split; [done|].
      cbn [set_appointments appointments]. rewrite lookup_alter_eq, Ha1.
      split; [reflexivity|].
      cbn [setRiskAI riskScore apStatus rideOfferSent needsRide aiRiskScore
           aiConfidence].
      split_and!; try done; try congruence; try lia.
      intros [->|Hno]; [done|congruence].
    + exists {| baseScore := score base; finalCategory := category base;
                baseFactors := factors base; aiAssessment := None;
                finalScore := inject_Z (score base); isAIEnhanced := false;
                aiAvailable := isAIAvailable cfg |}.
      eexists. split; [done|].
      cbn [fst snd set_appointments appointments]. rewrite lookup_alter_eq, Ha.
      split; [reflexivity|].
      cbn [setRisk riskScore apStatus rideOfferSent needsRide aiRiskScore
           aiConfidence finalScore finalCategory baseScore aiRiskCache].
      assert (Hhigh : category base = HIGH <-> (60 < inject_Z (score base))%Q).
      { change (category base) with (getRiskCategory (score base)).
        destruct (getRiskCategory_spec (score base)) as (_ & _ & ->).
        change 60%Q with (inject_Z 60).
        rewrite <- (Zlt_Qlt 60 (score base)). lia. }
      assert (Hneed : bool_decide (category base = HIGH) = true
                      <-> (61 <= Num (inject_Z (score base)))%JS).
      { rewrite bool_decide_eq_true, Hhigh, JSle_Num.
        change 61%Q with (inject_Z 61). change 60%Q with (inject_Z 60).
        rewrite <- Zle_Qle, <- (Zlt_Qlt 60 (score base)). lia. }
      split_and!; try done; try lia.
      * by rewrite bool_decide_eq_true.
      * intros z _. by rewrite bool_decide_eq_true.
      * intros Hne Hav. exfalso.
        apply andb_false_iff in Hbranch as [H|H]; [|congruence].
        destruct useAI as [[|]|]; done.
Qed.

End RiskRouteFacts.

(** ** A declined offer and the jobs *)

Section Declined.
Import RiskScore Store TwilioService Scheduler Routes Jobs MoreProps.
Variable sixMonthsBefore : Z -> Z.
Variable sevenDaysLater : Z -> Z.

Local Abbreviation scoreJob :=
  (calculateAllRiskScores sixMonthsBefore sevenDaysLater).

Lemma scoreJob_lookup now d id :
  appointments (scoreJob now d).1 !! id
  = (fun a =>
       if dueForScoring sevenDaysLater now a then
         match patients d !! apPatientId a with
         | Some patient =>
             let r := calculateRiskScore (noShowHistory d)
                        (sixMonthsBefore now) patient in
             setRisk (score r) (bool_decide (category r = HIGH)) a
         | None => a
         end
       else a) <$> appointments d !! id.
Proof.
  unfold calculateAllRiskScores.
  destruct (scoreAppointment_fold sixMonthsBefore now d
              (List.filter
                 (fun ka : string * Appointment =>
                    dueForScoring sevenDaysLater now ka.2)
                 (map_to_list (appointments d))) (d, []) eq_refl eq_refl)
    as (Ha & _).
  cbn zeta in Ha. cbn [fst] in Ha. rewrite Ha.
  apply (snapshot_loop
           (fun ka : string * Appointment => dueForScoring sevenDaysLater now ka.2)
           (fun (row : string * Appointment) (cur : Appointment) =>
              match patients d !! apPatientId row.2 with
              | Some patient =>
                  let r := calculateRiskScore (noShowHistory d)
                             (sixMonthsBefore now) patient in
                  setRisk (score r) (bool_decide (category r = HIGH)) cur
              | None => cur
              end)).
Qed.

(** X29. A declined offer is not remembered by the jobs. Declining sets
    the appointment's ride need to false; the next scoring run writes
    the same row as if nobody had declined, the ride need being true
    again exactly when the rule score is at least 61; and neither the
    offer sweep's nor the scoring job's selection reads the ride
    need. *)
Theorem declined_need_is_overwritten_by_the_next_scoring_run now d id a p b :
  appointments d !! id = Some a ->
  dueForScoring sevenDaysLater now a = true ->
  patients d !! apPatientId a = Some p ->
  let declined := set_appointments (alter (setNeedsRide b) id) d in
  let s := score (calculateRiskScore (noShowHistory d) (sixMonthsBefore now) p) in
  needsRide <$> appointments declined !! id = Some b /\
  appointments (scoreJob now declined).1 !! id
  = appointments (scoreJob now d).1 !! id /\
  (needsRide <$> appointments (scoreJob now declined).1 !! id = Some true
   <-> 61 <= s) /\
  (forall now', dueForOffer now' (setNeedsRide b a) = dueForOffer now' a) /\
  (forall now',
     dueForScoring sevenDaysLater now' (setNeedsRide b a)
     = dueForScoring sevenDaysLater now' a).
Proof.
  intros Ha Hdue Hp. cbn zeta.
  assert (Hd : appointments (set_appointments (alter (setNeedsRide b) id) d) !! id
               = Some (setNeedsRide b a)).
  { cbn. by rewrite lookup_alter_eq, Ha. }
  split; [by rewrite Hd|].
  assert (Hsame : appointments (scoreJob now
                     (set_appointments (alter (setNeedsRide b) id) d)).1 !! id
                  = appointments (scoreJob now d).1 !! id).
  { rewrite !scoreJob_lookup, Hd, Ha.
    cbn [fmap option_fmap option_map].
    change (dueForScoring sevenDaysLater now (setNeedsRide b a))
      with (dueForScoring sevenDaysLater now a).
    rewrite Hdue. cbn [setNeedsRide apPatientId].
    cbn [set_appointments patients noShowHistory]. by rewrite Hp. }
  split; [exact Hsame|]. split; [|by split].
  rewrite Hsame, scoreJob_lookup, Ha. cbn [fmap option_fmap option_map].
  rewrite Hdue, Hp. cbn [setRisk needsRide].
  split.
  - intros [= H]. apply bool_decide_eq_true in H.
    by apply (getRiskCategory_spec
                (score (calculateRiskScore (noShowHistory d)
                          (sixMonthsBefore now) p))).
  - intros H. f_equal. apply bool_decide_eq_true.
    by apply (getRiskCategory_spec
                (score (calculateRiskScore (noShowHistory d)
                          (sixMonthsBefore now) p))).
Qed.

End Declined.

Section DeclinedWitness.
Import RiskScore Store TwilioService Scheduler Routes Jobs MoreProps.

Lemma declined_need_is_overwritten_by_the_next_scoring_run_witness :
  let declined :=
    set_appointments (alter (setNeedsRide false) "a1") Fixtures.baseDB in
  dueForScoring MoreFixtures.weekLater Fixtures.t0 Fixtures.appointment = true /\
  appointments (calculateAllRiskScores Fixtures.halfYear MoreFixtures.weekLater
                  Fixtures.t0 declined).1 !! "a1"
  = appointments (calculateAllRiskScores Fixtures.halfYear MoreFixtures.weekLater
                    Fixtures.t0 Fixtures.baseDB).1 !! "a1".
Proof.
  cbn zeta.
  assert (Hdue : dueForScoring MoreFixtures.weekLater Fixtures.t0
                   Fixtures.appointment = true) by reflexivity.
  split; [exact Hdue|].
  exact (proj1 (proj2
    (declined_need_is_overwritten_by_the_next_scoring_run Fixtures.halfYear
       MoreFixtures.weekLater Fixtures.t0 Fixtures.baseDB "a1"
       Fixtures.appointment Fixtures.maria false eq_refl Hdue eq_refl))).
Defined.

End DeclinedWitness.

(** ** Cancellation and the status-sync sweep *)

Section CancelledStays.
Import RiskScore Store TwilioService UberHealth Scheduler Routes Props MoreProps.
Variable isTestMode : bool.
Variable transport : Z -> string -> string -> string + string.
Variable showTime : Z -> string.

Lemma cancel_success id w :
  ok (cancel id w).1 = true ->
  exists ride,
    rides (db w) !! id = Some ride /\
    rides (db (cancel id w).2) = <[id := setRideStatus CANCELLED ride]> (rides (db w)) /\
    events (cancel id w).2
    = events w ++ [RIDE_STATUS_UPDATE id None (rdStatus ride) CANCELLED].
Proof.
  unfold cancel. destruct (rides (db w) !! id) as [ride|] eqn:Hr; [|done].
  intros Hok. exists ride. split; [done|].
  assert (Halter : alter (setRideStatus CANCELLED) id (rides (db w))
                   = <[id := setRideStatus CANCELLED ride]> (rides (db w))).
  { apply map_eq; intros k. rewrite lookup_alter, lookup_insert.
    case_decide; subst; [by rewrite Hr | done]. }
  destruct (or_else (uberRideId ride) None) as [u|].
  - destruct (cancelRide u (mockRides w)) as [[okc msg] mock].
    cbn [fst snd] in *. destruct okc; cbn [negb] in *; [|done].
    cbn. by rewrite Halter.
  - cbn. by rewrite Halter.
Qed.

Lemma syncEvents_id p row e :
  e ∈ syncEvents p row ->
  exists a o n, e = RIDE_STATUS_UPDATE row.1 a o n.
Proof.
  unfold syncEvents.
  destruct (or_else (uberRideId row.2) None) as [u|];
    [|intros H; by apply elem_of_nil in H].
  destruct (p u) as [us|]; [|intros H; by apply elem_of_nil in H].
  destruct (String.eqb _ _); [intros H; by apply elem_of_nil in H|].
  intros H. apply list_elem_of_singleton in H as ->. by do 3 eexists.
Qed.

(** X30. A cancelled ride stays cancelled. After the cancel route has
    answered success the ride is CANCELLED, and a run of the
    status-sync sweep, whatever the provider then reports, leaves the
    ride exactly so and announces nothing about it. *)
Theorem cancelled_ride_is_never_synced_again id w p now :
  ok (cancel id w).1 = true ->
  let w1 := (cancel id w).2 in
  let w2 := updateRideStatuses isTestMode transport showTime p now w1 in
  (exists ride,
     rides (db w) !! id = Some ride /\
     rides (db w1) !! id = Some (setRideStatus CANCELLED ride) /\
     rides (db w2) !! id = Some (setRideStatus CANCELLED ride)) /\
  (forall a o n,
     RIDE_STATUS_UPDATE id a o n ∉ drop (length (events w1)) (events w2)).
Proof.
  intros Hok. cbn zeta.
  destruct (cancel_success id w Hok) as (ride & Hr & Hrides & _).
  assert (H1 : rides (db (cancel id w).2) !! id
               = Some (setRideStatus CANCELLED ride)).
  { by rewrite Hrides, lookup_insert_eq. }
  assert (Hnot : id ∉ (activeRides (db (cancel id w).2)).*1).
  { intros Hin. apply list_elem_of_fmap in Hin as ([k r0] & Hk & Hin).
    cbn in Hk. subst k. apply activeRides_spec in Hin as [Hk Hact].
    rewrite H1 in Hk. injection Hk as <-.
    unfold isActiveRide in Hact. cbn [setRideStatus rdStatus] in Hact.
    by vm_compute in Hact. }
  split.
  - exists ride. split; [done|]. split; [done|].
    unfold updateRideStatuses.
    rewrite (sweep_skips isTestMode transport showTime);
      [done|apply activeRides_NoDup| |exact Hnot].
    intros k r0 Hin. by apply activeRides_spec in Hin as [? _].
  - intros a o n Hin. unfold updateRideStatuses in Hin.
    destruct (sweep_events isTestMode transport showTime p now
                (activeRides (db (cancel id w).2)) (cancel id w).2) as [He _].
    rewrite He, drop_app_length in Hin.
    apply list_elem_of_In, in_flat_map in Hin as (row & Hrow & Hev).
    apply list_elem_of_In in Hrow, Hev.
    apply syncEvents_id in Hev as (a' & o' & n' & [= Hid _ _ _]).
    apply Hnot. apply list_elem_of_fmap. by exists row.
Qed.

End CancelledStays.

Section CancelledStaysWitness.
Import RiskScore Store TwilioService UberHealth Scheduler Routes Props MoreProps.

Lemma cancelled_ride_is_never_synced_again_witness :
  ok (cancel "r1" Fixtures.syncedRideWorld).1 = true /\
  forall a o n,
    RIDE_STATUS_UPDATE "r1" a o n
    ∉ drop (length (events (cancel "r1" Fixtures.syncedRideWorld).2))
        (events (updateRideStatuses true Fixtures.noTransport Fixtures.noFormat
                   Fixtures.arrivedProvider Fixtures.t0
                   (cancel "r1" Fixtures.syncedRideWorld).2)).
Proof.
  assert (Hok : ok (cancel "r1" Fixtures.syncedRideWorld).1 = true)
    by reflexivity.
  split; [exact Hok|].
  exact (proj2 (cancelled_ride_is_never_synced_again true Fixtures.noTransport
                  Fixtures.noFormat "r1" Fixtures.syncedRideWorld
                  Fixtures.arrivedProvider Fixtures.t0 Hok)).
Defined.

End CancelledStaysWitness.
